(** * water-tool-backend: authentication workflow

    A shallow embedding of the authentication core of the backend:
    - [controllers/authController.js]: input validation and the request
      handlers (register, login, profile, logout, refresh);
    - [routes/auth.js]: how middleware and handlers are chained;
    - [database/index.js] and a second, static [Database] class: the two
      JSON-file credential stores, which the controller does not call.

    The Mongoose model [models/User.js] and the token middleware
    [middleware/auth.js] are required by the controller but their sources are
    not at hand; they are modelled from the written specification and marked
    as such.

    A JavaScript string is a sequence of UTF-16 code units.  The model
    covers the strings whose code units are all below 256 (the Latin-1
    range) and holds one code unit per character of a [string]: the
    character ["228"] is U+00E4, not a byte of an encoding, so
    [String.length] is [.length] and a non-ASCII letter of a message is
    written by its code unit.  Request fields are strings when present.
    Clock readings, salts, fresh identifiers and the deployment mode are
    explicit inputs of every operation. *)

From Stdlib Require Import Ascii String NArith.
From stdpp Require Import base option list gmap strings pretty.

Set Warnings "-register-all".

Open Scope string_scope.
Open Scope list_scope.

(** ** JavaScript string primitives *)

Module JS.

Definition chars : Type := list ascii.

Definition of_string (s : string) : chars := list_ascii_of_string s.
Definition to_string (cs : chars) : string := string_of_list_ascii cs.

(** Truthiness of an optional string: [undefined] and [''] are falsy. *)
Definition truthy (v : option string) : bool :=
  match v with
  | Some s => negb (String.eqb s "")
  | None => false
  end.

(** [a || b] on strings. *)
Definition or_else (a b : string) : string :=
  if String.eqb a "" then b else a.

Definition in_range (lo hi c : ascii) : bool :=
  Ascii.leb lo c && Ascii.leb c hi.

(** The white space and line terminators removed by
    [String.prototype.trim], among the code units below 256: TAB, LF, VT,
    FF, CR, SPACE and the no-break space U+00A0. *)
Definition is_space (c : ascii) : bool :=
  in_range "009" "013" c || Ascii.eqb c " " || Ascii.eqb c "160".

(** The class [\w]. *)
Definition is_word (c : ascii) : bool :=
  in_range "a" "z" c || in_range "A" "Z" c || in_range "0" "9" c
  || Ascii.eqb c "_".

Fixpoint trimStart (cs : chars) : chars :=
  match cs with
  | c :: cs' => if is_space c then trimStart cs' else cs
  | [] => []
  end.

Definition trimEnd (cs : chars) : chars := rev (trimStart (rev cs)).

Definition trim_chars (cs : chars) : chars := trimEnd (trimStart cs).

(** [s.split(sep)] for a one-character separator: never empty, the empty
    string splits into one empty piece. *)
Fixpoint split_chars (sep : ascii) (cs : chars) : list chars :=
  match cs with
  | [] => [[]]
  | c :: cs' =>
      if Ascii.eqb c sep then [] :: split_chars sep cs'
      else match split_chars sep cs' with
           | w :: ws => (c :: w) :: ws
           | [] => [[c]]
           end
  end.

(** [pieces.join(sep)]. *)
Fixpoint join_chars (sep : ascii) (ws : list chars) : chars :=
  match ws with
  | [] => []
  | [w] => w
  | w :: ws' => w ++ sep :: join_chars sep ws'
  end.

Definition trim (s : string) : string := to_string (trim_chars (of_string s)).

Definition split (sep : ascii) (s : string) : list string :=
  to_string <$> split_chars sep (of_string s).

Definition join (sep : ascii) (ws : list string) : string :=
  to_string (join_chars sep (of_string <$> ws)).

(** [arr.slice(1)]. *)
Definition slice1 {A} (xs : list A) : list A := drop 1 xs.

(** [arr[i]] read as a string, with [undefined] collapsed to [''] (every
    use in the controller is of the form [arr[i] || fallback]). *)
Definition at_ (xs : list string) (i : nat) : string := default "" (xs !! i).

(** [hay.includes(needle)]. *)
Definition includes (hay needle : string) : bool :=
  bool_decide (is_Some (String.index 0 needle hay)).

(** The part after the last occurrence of [sep] (the whole string when
    there is none): the final [sep]-separated label. *)
Definition last_label (sep : ascii) (cs : chars) : chars :=
  default [] (last (split_chars sep cs)).

(** The letters of the Swedish messages outside ASCII, by code unit:
    U+00E4, U+00E5 and U+00F6. *)
Definition a_uml : string := String "228" "".
Definition a_ring : string := String "229" "".
Definition o_uml : string := String "246" "".

End JS.

(** ** Regular expressions, as far as the e-mail pattern needs them *)

Module Regex.

Inductive t : Type :=
| Void
| Eps
| Class (p : ascii -> bool)
| Cat (r1 r2 : t)
| Alt (r1 r2 : t)
| Star (r : t).

Definition Chr (c : ascii) : t := Class (Ascii.eqb c).
Definition Opt (r : t) : t := Alt Eps r.     (* r?     *)
Definition Plus (r : t) : t := Cat r (Star r). (* r+     *)
Definition Rep23 (r : t) : t := Cat r (Cat r (Opt r)). (* r{2,3} *)

(** The language of a pattern. *)
Inductive Matches : t -> JS.chars -> Prop :=
| MEps : Matches Eps []
| MClass p c : p c = true -> Matches (Class p) [c]
| MCat r1 r2 w1 w2 :
    Matches r1 w1 -> Matches r2 w2 -> Matches (Cat r1 r2) (w1 ++ w2)
| MAltL r1 r2 w : Matches r1 w -> Matches (Alt r1 r2) w
| MAltR r1 r2 w : Matches r2 w -> Matches (Alt r1 r2) w
| MStarNil r : Matches (Star r) []
| MStarApp r w1 w2 :
    Matches r w1 -> Matches (Star r) w2 -> Matches (Star r) (w1 ++ w2).

Fixpoint nullable (r : t) : bool :=
  match r with
  | Void => false
  | Eps => true
  | Class _ => false
  | Cat r1 r2 => nullable r1 && nullable r2
  | Alt r1 r2 => nullable r1 || nullable r2
  | Star _ => true
  end.

(** Brzozowski derivative, with the two simplifications that keep the
    derivatives of anchored patterns small. *)
Definition cat (r1 r2 : t) : t :=
  match r1 with
  | Void => Void
  | Eps => r2
  | _ => Cat r1 r2
  end.

Definition alt (r1 r2 : t) : t :=
  match r1, r2 with
  | Void, _ => r2
  | _, Void => r1
  | _, _ => Alt r1 r2
  end.

Fixpoint deriv (c : ascii) (r : t) : t :=
  match r with
  | Void => Void
  | Eps => Void
  | Class p => if p c then Eps else Void
  | Cat r1 r2 =>
      if nullable r1 then alt (cat (deriv c r1) r2) (deriv c r2)
      else cat (deriv c r1) r2
  | Alt r1 r2 => alt (deriv c r1) (deriv c r2)
  | Star r1 => cat (deriv c r1) (Star r1)
  end.

Fixpoint matches (r : t) (w : JS.chars) : bool :=
  match w with
  | [] => nullable r
  | c :: w' => matches (deriv c r) w'
  end.

(** [/^r$/.test(s)]: with both anchors and no flags the test succeeds
    exactly when the whole string is in the language of [r]. *)
Definition test (r : t) (s : string) : bool := matches r (JS.of_string s).

End Regex.

(** ** JSON payloads and HTTP responses *)

Inductive JSON : Type :=
| JNull
| JBool (b : bool)
| JNum (n : N)
| JStr (s : string)
| JDate (t : N)
| JArr (xs : list JSON)
| JObj (fields : list (string * JSON)).

Module Json.

(** [v[k]] on an object literal; [None] is [undefined]. *)
Definition get (k : string) (v : JSON) : option JSON :=
  match v with
  | JObj fs => snd <$> List.find (λ kv, String.eqb (fst kv) k) fs
  | _ => None
  end.

Definition keys (v : JSON) : list string :=
  match v with
  | JObj fs => fst <$> fs
  | _ => []
  end.

(** A nullable timestamp. *)
Definition date_or_null (t : option N) : JSON := from_option JDate JNull t.

End Json.

(** [res.status(code).json(payload)] *)
Record Response : Type := { status : N; body : JSON }.

Definition send (code : N) (payload : JSON) : Response :=
  {| status := code; body := payload |}.

(** A thrown error: [error.name], [error.message] and, for Mongoose
    validation errors, the messages of [Object.values(error.errors)]. *)
Module Error.

Record t : Type := { name : string; message : string; errors : list string }.

(** Calling a method on [undefined]. *)
Definition TypeError (method : string) : t :=
  {| name := "TypeError";
     message :=
       "Cannot read properties of undefined (reading '" +:+ method +:+ "')";
     errors := [] |}.

End Error.

(** What a request reads from its surroundings. *)
Record Env : Type := {
  now : N;             (* [new Date()], milliseconds since the epoch *)
  production : bool;   (* [process.env.NODE_ENV === 'production'] *)
  objectId : string;   (* the identifier drawn for a new document *)
  salt : string;       (* the result of [bcrypt.genSalt(12)] *)
  tokenId : N          (* the identifier drawn for a new refresh token *)
}.

(** ** External libraries, as interfaces *)

(** bcryptjs: [hash(plaintext, salt)] and [compare(plaintext, hash)]. *)
Class Bcrypt : Type := {
  bcrypt_hash : string -> string -> string;
  bcrypt_compare : string -> string -> bool
}.

(** What the library promises: a hash verifies against its plaintext, and
    the hash text carries its salt. *)
Definition bcrypt_verifies `{Bcrypt} : Prop :=
  ∀ plaintext s, bcrypt_compare plaintext (bcrypt_hash plaintext s) = true.

Definition bcrypt_salted `{Bcrypt} : Prop :=
  ∀ plaintext s1 s2,
    bcrypt_hash plaintext s1 = bcrypt_hash plaintext s2 -> s1 = s2.

Inductive TokenKind : Type := AccessToken | RefreshToken.

(** The payload of a signed token. *)
Record Claims : Type := {
  userId : string;
  jti : option N;
  exp : N
}.

(** jsonwebtoken: signing, and decoding with signature check, under the
    key of the given kind. *)
Class Jwt : Type := {
  jwt_sign : TokenKind -> Claims -> string;
  jwt_decode : TokenKind -> string -> option Claims
}.

(** ** A state monad with exceptions

    Handlers are [async] functions run one after the other: a computation
    reads and writes the collection and either returns or throws; writes
    made before a throw stay. *)

Definition M (Σ A : Type) : Type := Σ -> (Error.t + A) * Σ.

#[global] Instance M_ret {Σ} : MRet (M Σ) := λ A a σ, (inr a, σ).

#[global] Instance M_bind {Σ} : MBind (M Σ) := λ A B f m σ,
  match m σ with
  | (inr a, σ') => f a σ'
  | (inl e, σ') => (inl e, σ')
  end.

Definition throw {Σ A} (e : Error.t) : M Σ A := λ σ, (inl e, σ).

Definition gets {Σ A} (f : Σ -> A) : M Σ A := λ σ, (inr (f σ), σ).

Definition modify {Σ} (f : Σ -> Σ) : M Σ () := λ σ, (inr (), f σ).

(** [try { body } catch (error) { handler }] around a handler whose catch
    clause only sends a response. *)
Definition try_catch {Σ} (body : M Σ Response) (handler : Error.t -> Response)
  : Σ -> Response * Σ :=
  λ σ, match body σ with
       | (inr r, σ') => (r, σ')
       | (inl e, σ') => (handler e, σ')
       end.

(** [v.method(...)] on a possibly [undefined] receiver. *)
Definition receiver {Σ} (v : option string) (method : string) : M Σ string :=
  match v with
  | Some s => mret s
  | None => throw (Error.TypeError method)
  end.

(** ** The user model ([models/User.js]) *)

Module User.

(** Modelled from the spec: the role flag, enumerated {user, admin}. *)
Inductive Role : Type := RoleUser | RoleAdmin.

Definition role_name (r : Role) : string :=
  match r with
  | RoleUser => "user"
  | RoleAdmin => "admin"
  end.

(** Modelled from the spec: the schema of [models/User.js] is not among the
    sources; this is the user record of the data model, the password field
    holding the hash and [refreshTokens] the set of tokens currently valid
    for the user. *)
Record doc : Type := {
  _id : string;
  username : string;
  email : string;
  password : string;
  firstName : string;
  lastName : string;
  role : Role;
  isActive : bool;
  lastLogin : option N;
  createdAt : N;
  updatedAt : N;
  refreshTokens : gset string
}.

(** The fields passed to [new User({...})]. *)
Record fields : Type := {
  new_username : string;
  new_email : string;
  new_password : option string;
  new_firstName : string;
  new_lastName : string;
  new_role : Role
}.

(** A field of an update document. *)
Inductive change : Type :=
| FirstName (v : string)
| LastName (v : string)
| Email (v : string)
| Password (plaintext : string)
| LastLogin (t : N).

Definition with_refreshTokens (ts : gset string) (u : doc) : doc :=
  {| _id := _id u; username := username u; email := email u;
     password := password u; firstName := firstName u;
     lastName := lastName u; role := role u; isActive := isActive u;
     lastLogin := lastLogin u; createdAt := createdAt u;
     updatedAt := updatedAt u; refreshTokens := ts |}.

Definition with_updatedAt (t : N) (u : doc) : doc :=
  {| _id := _id u; username := username u; email := email u;
     password := password u; firstName := firstName u;
     lastName := lastName u; role := role u; isActive := isActive u;
     lastLogin := lastLogin u; createdAt := createdAt u;
     updatedAt := t; refreshTokens := refreshTokens u |}.

(** Modelled from the spec: merging one field of an update document into a
    record; a password is hashed again before it is stored. *)
Definition merge `{Bcrypt} (env : Env) (u : doc) (c : change) : doc :=
  {| _id := _id u;
     username := username u;
     email := match c with Email v => v | _ => email u end;
     password :=
       match c with
       | Password plaintext => bcrypt_hash plaintext (salt env)
       | _ => password u
       end;
     firstName := match c with FirstName v => v | _ => firstName u end;
     lastName := match c with LastName v => v | _ => lastName u end;
     role := role u;
     isActive := isActive u;
     lastLogin := match c with LastLogin t => Some t | _ => lastLogin u end;
     createdAt := createdAt u;
     updatedAt := updatedAt u;
     refreshTokens := refreshTokens u |}.

(** Modelled from the spec: the uniqueness violation [DuplicateError], under
    the name the driver reports it with (one of the names the catch clause
    of [registerUser] tests for). *)
Definition DuplicateError : Error.t :=
  {| Error.name := "MongoServerError";
     Error.message := "E11000 duplicate key error";
     Error.errors := [] |}.

(** Modelled from the spec: [NotFoundError], an update aimed at an absent
    id. *)
Definition NotFoundError : Error.t :=
  {| Error.name := "NotFoundError";
     Error.message := "User not found";
     Error.errors := [] |}.

(** Modelled from the spec: a hash failure, bcryptjs refusing to hash
    [undefined]. *)
Definition HashError : Error.t :=
  {| Error.name := "Error";
     Error.message := "Illegal arguments: undefined, string";
     Error.errors := [] |}.

(** [User.findOne(query)]: the first record satisfying the query. *)
Definition findOne (q : doc -> Prop) `{∀ u, Decision (q u)}
  : M (list doc) (option doc) :=
  gets (λ db, snd <$> list_find q db).

Definition findById (i : string) : M (list doc) (option doc) :=
  findOne (λ u, _id u = i).

(** Rewriting the stored record with identifier [i] in place. *)
Definition write (i : string) (f : doc -> doc) (db : list doc) : list doc :=
  match list_find (λ u, _id u = i) db with
  | Some (k, u) => <[k := f u]> db
  | None => db
  end.

(** Modelled from the spec: the record that [create(fields)] persists: the
    hash of the supplied plaintext, [isActive=true],
    [createdAt=updatedAt=now], [lastLogin=null], no refresh tokens, and the
    role handed in, which is the spec's [role=user] at the only call. *)
Definition fresh `{Bcrypt} (f : fields) (plaintext : string) (env : Env) : doc :=
  {| _id := objectId env;
     username := new_username f;
     email := new_email f;
     password := bcrypt_hash plaintext (salt env);
     firstName := new_firstName f;
     lastName := new_lastName f;
     role := new_role f;
     isActive := true;
     lastLogin := None;
     createdAt := now env;
     updatedAt := now env;
     refreshTokens := ∅ |}.

(** Modelled from the spec: [create(fields)] of the credential store, the
    effect of [new User(fields)] followed by [user.save()] (neither is
    among the sources).  It fails with [DuplicateError] if the e-mail or the
    username is already present, and otherwise persists the fresh record. *)
Definition create `{Bcrypt} (f : fields) (env : Env) : M (list doc) doc :=
  match new_password f with
  | None => throw HashError
  | Some plaintext =>
      taken ← findOne (λ u, email u = new_email f ∨ username u = new_username f);
      match taken with
      | Some _ => throw DuplicateError
      | None =>
          let u := fresh f plaintext env in
          _ ← modify (λ db, db ++ [u]);
          mret u
      end
  end.

(** Modelled from the spec: the record that [update(id, partialFields)]
    stores: the fields merged shallowly, [updatedAt] refreshed. *)
Definition updated `{Bcrypt} (u : doc) (changes : list change) (env : Env) : doc :=
  with_updatedAt (now env) (foldl (merge env) u changes).

(** Modelled from the spec: [update(id, partialFields)] of the credential
    store, what [User.findByIdAndUpdate] does under the schema (not among
    the sources).  It fails with [NotFoundError] if the id is absent, and
    otherwise stores and yields the updated record. *)
Definition findByIdAndUpdate `{Bcrypt}
    (i : string) (changes : list change) (env : Env) : M (list doc) doc :=
  found ← findById i;
  match found with
  | None => throw NotFoundError
  | Some u =>
      let u' := updated u changes env in
      _ ← modify (write i (λ _, u'));
      mret u'
  end.

(** Modelled from the spec: [verify(plaintext, hash)] against the stored
    hash, the method [user.comparePassword] (not among the sources). *)
Definition comparePassword `{Bcrypt} (u : doc) (candidate : string) : bool :=
  bcrypt_compare candidate (password u).

(** Modelled from the spec: the set-membership edits of [refreshTokens],
    the methods [user.addRefreshToken], [user.removeRefreshToken] and
    [user.removeAllRefreshTokens] (not among the sources).  Each edits the
    stored record of the user and the document at hand, and nothing but the
    token set and [updatedAt]; removing [undefined] removes nothing.  The
    spec gives these edits no failure of their own; a storage failure (its
    [InternalError]) during an edit is not modelled. *)
(** Modelled from the spec: a record after an edit of its token set;
    [updatedAt] is refreshed as on any mutation. *)
Definition retoken (edit : gset string -> gset string) (env : Env) (v : doc) : doc :=
  with_updatedAt (now env) (with_refreshTokens (edit (refreshTokens v)) v).

Definition editRefreshTokens (edit : gset string -> gset string)
    (u : doc) (env : Env) : M (list doc) doc :=
  _ ← modify (write (_id u) (retoken edit env));
  mret (retoken edit env u).

Definition addRefreshToken (u : doc) (token : string) :=
  editRefreshTokens (λ ts, {[token]} ∪ ts) u.

Definition removeRefreshToken (u : doc) (token : option string) :=
  editRefreshTokens
    (λ ts, match token with Some t => ts ∖ {[t]} | None => ts end) u.

Definition removeAllRefreshTokens (u : doc) :=
  editRefreshTokens (λ _, ∅) u.

End User.

(** ** The token middleware ([middleware/auth.js]) *)

Module Middleware.

(** Modelled from the spec: the lifetimes it gives as examples, 15 minutes
    and 7 days, in milliseconds. *)
Definition accessTokenLifetime : N := 15 * 60 * 1000.
Definition refreshTokenLifetime : N := 7 * 24 * 60 * 60 * 1000.

(** Modelled from the spec: [issue(userId)] of the token service
    ([generateTokens] is not among the sources): a short-lived access token
    embedding the user id and a long-lived refresh token embedding the user
    id and a token identifier, signed under distinct keys.  The signing keys
    are taken to be configured: a signing failure, which the catch clause of
    [registerUser] looks for under the text [JWT], is not modelled. *)
Definition generateTokens `{Jwt} (uid : string) (env : Env) : string * string :=
  (jwt_sign AccessToken
     {| userId := uid; jti := None;
        exp := now env + accessTokenLifetime |},
   jwt_sign RefreshToken
     {| userId := uid; jti := Some (tokenId env);
        exp := now env + refreshTokenLifetime |}).

(** Modelled from the spec: the two error kinds of [verifyRefresh]. *)
Inductive TokenError : Type := InvalidTokenError | RevokedError.

(** Modelled from the spec: [verifyRefresh(token)] of the token service
    ([verifyRefreshToken] is not among the sources): [InvalidTokenError] if
    the signature is invalid or the token expired, [RevokedError] if the
    token is not in the stored [refreshTokens] of its user; on success the
    user is attached to the request. *)
Definition verifyRefreshToken `{Jwt}
    (token : option string) (env : Env) (db : list User.doc)
  : TokenError + User.doc :=
  match token with
  | None => inl InvalidTokenError
  | Some t =>
      match jwt_decode RefreshToken t with
      | None => inl InvalidTokenError
      | Some claims =>
          if (exp claims <=? now env)%N then inl InvalidTokenError
          else
            match snd <$> list_find (λ u, User._id u = userId claims) db with
            | None => inl InvalidTokenError
            | Some u =>
                if bool_decide (t ∈ User.refreshTokens u) then inr u
                else inl RevokedError
            end
      end
  end.

End Middleware.

(** ** Requests *)

Module Req.

(** [req.body]: every field optional, a string when present. *)
Record body : Type := {
  name : option string;
  email : option string;
  password : option string;
  confirmPassword : option string;
  refreshToken : option string
}.

End Req.

(** ** The controller ([controllers/authController.js]) *)

Module AuthController.

Import Regex.

Definition Handler : Type := list User.doc -> Response * list User.doc.

(** The value of a field already known to be a string. *)
Definition str (v : option string) : string := default "" v.

(** [/^\w+([.-]?\w+)*@\w+([.-]?\w+)*(\.\w{2,3})+$/] *)
Definition emailRegex : Regex.t :=
  let w := Class JS.is_word in
  let sep := Class (λ c, Ascii.eqb c "." || Ascii.eqb c "-") in
  let words := Cat (Plus w) (Star (Cat (Opt sep) (Plus w))) in
  Cat words (Cat (Chr "@") (Cat words (Plus (Cat (Chr ".") (Rep23 w))))).

Definition allFieldsRequired : Response :=
  send 400 (JObj [
    ("success", JBool false);
    ("message", JStr "All fields are required");
    ("errors", JArr [JStr ("Fullst" +:+ JS.a_uml
                           +:+ "ndigt namn, e-postadress och l" +:+ JS.o_uml
                           +:+ "senord " +:+ JS.a_uml +:+ "r obligatoriska")])]).

Definition passwordsDoNotMatch : Response :=
  send 400 (JObj [
    ("success", JBool false);
    ("message", JStr "Passwords do not match");
    ("errors", JArr [JStr ("L" +:+ JS.o_uml +:+ "senorden matchar inte")])]).

Definition passwordTooShort : Response :=
  send 400 (JObj [
    ("success", JBool false);
    ("message", JStr "Password must be at least 6 characters long");
    ("errors", JArr [JStr ("L" +:+ JS.o_uml +:+ "senordet m" +:+ JS.a_ring
                           +:+ "ste vara minst 6 tecken l" +:+ JS.a_ring
                           +:+ "ngt")])]).

Definition invalidEmail : Response :=
  send 400 (JObj [
    ("success", JBool false);
    ("message", JStr "Please enter a valid email");
    ("errors", JArr [JStr "Ange en giltig e-postadress"])]).

(** The validation middleware: [Some r] when it answers with [r] itself,
    [None] when it calls [next()]. *)
Definition validateRegistrationInput (req : Req.body) : option Response :=
  let name := Req.name req in
  let email := Req.email req in
  let password := Req.password req in
  let confirmPassword := Req.confirmPassword req in
  if negb (JS.truthy name) || negb (JS.truthy email) || negb (JS.truthy password)
  then Some allFieldsRequired
  else if JS.truthy confirmPassword && negb (bool_decide (password = confirmPassword))
  then Some passwordsDoNotMatch
  else if (String.length (str password) <? 6)%nat
  then Some passwordTooShort
  else if negb (Regex.test emailRegex (str email))
  then Some invalidEmail
  else None.

(** [`${user.firstName} ${user.lastName}`.trim()] *)
Definition displayName (u : User.doc) : string :=
  JS.trim (User.firstName u +:+ " " +:+ User.lastName u).

Definition internalServerError : Response :=
  send 500 (JObj [
    ("success", JBool false);
    ("message", JStr "Internal server error");
    ("message_sv", JStr "Internt serverfel")]).

Definition validationError (error : Error.t) : Response :=
  send 400 (JObj [
    ("success", JBool false);
    ("message", JStr "Validation error");
    ("message_sv", JStr "Valideringsfel");
    ("errors", JArr (JStr <$> Error.errors error))]).

Definition emailAlreadyExists : Response :=
  send 400 (JObj [
    ("success", JBool false);
    ("message", JStr "Email already exists");
    ("errors", JArr [JStr "E-postadressen finns redan"])]).

Definition usernameAlreadyExists : Response :=
  send 400 (JObj [
    ("success", JBool false);
    ("message", JStr "Username already exists");
    ("errors", JArr [JStr ("Anv" +:+ JS.a_uml +:+ "ndarnamnet finns redan")])]).

(** The catch clause of [registerUser]. *)
Definition registrationError (env : Env) (error : Error.t) : Response :=
  if String.eqb (Error.name error) "ValidationError" then validationError error
  else if negb (production env)
          || String.eqb (Error.name error) "MongoServerError"
          || String.eqb (Error.name error) "MongoError"
          || JS.includes (Error.message error) "JWT"
  then send 500 (JObj [
         ("success", JBool false);
         ("message", JStr "Internal server error");
         ("message_sv", JStr "Internt serverfel");
         ("error", JStr (Error.message error));
         ("errorName", JStr (Error.name error))])
  else internalServerError.

(** The user view of a registration. *)
Definition registrationView (user : User.doc) : JSON :=
  JObj [
    ("id", JStr (User._id user));
    ("name", JStr (displayName user));
    ("email", JStr (User.email user));
    ("username", JStr (User.username user));
    ("role", JStr (User.role_name (User.role user)));
    ("createdAt", JDate (User.createdAt user))].

Definition registered (user : User.doc) (accessToken refreshToken : string) : Response :=
  send 201 (JObj [
    ("success", JBool true);
    ("message", JStr "User registered successfully");
    ("message_sv", JStr ("Anv" +:+ JS.a_uml +:+ "ndare registrerad framg"
                         +:+ JS.a_ring +:+ "ngsrikt"));
    ("data", JObj [
      ("user", registrationView user);
      ("accessToken", JStr accessToken);
      ("refreshToken", JStr refreshToken)])]).

(** POST /api/auth/register *)
Definition registerUser `{Bcrypt, Jwt} (req : Req.body) (env : Env) : Handler :=
  try_catch
    (name ← receiver (Req.name req) "trim";
     let nameParts := JS.split " " (JS.trim name) in
     let firstName := JS.or_else (JS.at_ nameParts 0) "" in
     let lastName := JS.or_else (JS.join " " (JS.slice1 nameParts)) "" in
     email ← receiver (Req.email req) "split";
     let username := JS.at_ (JS.split "@" email) 0 in
     existingUser ← User.findOne
       (λ u, User.email u = email ∨ User.username u = username);
     match existingUser with
     | Some existing =>
         mret (if bool_decide (User.email existing = email)
               then emailAlreadyExists else usernameAlreadyExists)
     | None =>
         user ← User.create
           {| User.new_username := username;
              User.new_email := email;
              User.new_password := Req.password req;
              User.new_firstName := firstName;
              User.new_lastName := lastName;
              User.new_role := User.RoleUser |} env;
         let '(accessToken, refreshToken) :=
           Middleware.generateTokens (User._id user) env in
         user ← User.addRefreshToken user refreshToken env;
         mret (registered user accessToken refreshToken)
     end)
    (registrationError env).

Definition emailAndPasswordRequired : Response :=
  send 400 (JObj [
    ("success", JBool false);
    ("message", JStr "Email and password are required");
    ("message_sv", JStr ("E-postadress och l" +:+ JS.o_uml +:+ "senord kr"
                         +:+ JS.a_uml +:+ "vs"))]).

Definition invalidEmailOrPassword : Response :=
  send 401 (JObj [
    ("success", JBool false);
    ("message", JStr "Invalid email or password");
    ("message_sv", JStr ("Ogiltig e-postadress eller l" +:+ JS.o_uml +:+ "senord"))]).

Definition accountDeactivated : Response :=
  send 401 (JObj [
    ("success", JBool false);
    ("message", JStr "Account is deactivated");
    ("message_sv", JStr ("Kontot " +:+ JS.a_uml +:+ "r inaktiverat"))]).

(** The user view of a login. *)
Definition loginView (user : User.doc) : JSON :=
  JObj [
    ("id", JStr (User._id user));
    ("name", JStr (displayName user));
    ("email", JStr (User.email user));
    ("username", JStr (User.username user));
    ("role", JStr (User.role_name (User.role user)));
    ("lastLogin", Json.date_or_null (User.lastLogin user));
    ("createdAt", JDate (User.createdAt user))].

Definition loggedIn (user : User.doc) (accessToken refreshToken : string) : Response :=
  send 200 (JObj [
    ("success", JBool true);
    ("message", JStr "Login successful");
    ("message_sv", JStr "Inloggning lyckades");
    ("data", JObj [
      ("user", loginView user);
      ("accessToken", JStr accessToken);
      ("refreshToken", JStr refreshToken)])]).

(** POST /api/auth/login *)
Definition loginUser `{Bcrypt, Jwt} (req : Req.body) (env : Env) : Handler :=
  try_catch
    (let email := Req.email req in
     let password := Req.password req in
     if negb (JS.truthy email) || negb (JS.truthy password)
     then mret emailAndPasswordRequired
     else
       found ← User.findOne (λ u, User.email u = str email);
       match found with
       | None => mret invalidEmailOrPassword
       | Some user =>
           if negb (User.isActive user) then mret accountDeactivated
           else if negb (User.comparePassword user (str password))
           then mret invalidEmailOrPassword
           else
             _ ← User.findByIdAndUpdate (User._id user)
                   [User.LastLogin (now env)] env;
             let '(accessToken, refreshToken) :=
               Middleware.generateTokens (User._id user) env in
             user ← User.addRefreshToken user refreshToken env;
             mret (loggedIn user accessToken refreshToken)
       end)
    (λ _, internalServerError).

(** The user view of the profile endpoints. *)
Definition profileView (u : User.doc) : JSON :=
  JObj [
    ("id", JStr (User._id u));
    ("name", JStr (displayName u));
    ("email", JStr (User.email u));
    ("username", JStr (User.username u));
    ("role", JStr (User.role_name (User.role u)));
    ("lastLogin", Json.date_or_null (User.lastLogin u));
    ("createdAt", JDate (User.createdAt u));
    ("updatedAt", JDate (User.updatedAt u))].

Definition profile (u : User.doc) : Response :=
  send 200 (JObj [
    ("success", JBool true);
    ("data", JObj [("user", profileView u)])]).

(** GET /api/auth/me; [reqUser] is [req.user]. *)
Definition getCurrentUser (reqUser : User.doc) : Handler :=
  try_catch (mret (profile reqUser)) (λ _, internalServerError).

Definition profileUpdated (u : User.doc) : Response :=
  send 200 (JObj [
    ("success", JBool true);
    ("message", JStr "Profile updated successfully");
    ("message_sv", JStr ("Profil uppdaterad framg" +:+ JS.a_ring +:+ "ngsrikt"));
    ("data", JObj [("user", profileView u)])]).

Definition emailAlreadyExistsOnUpdate : Response :=
  send 400 (JObj [
    ("success", JBool false);
    ("message", JStr "Email already exists");
    ("message_sv", JStr "E-postadressen finns redan")]).

(** PUT /api/auth/profile *)
Definition updateProfile `{Bcrypt}
    (reqUser : User.doc) (req : Req.body) (env : Env) : Handler :=
  try_catch
    (let name := Req.name req in
     let email := Req.email req in
     let userId := User._id reqUser in
     let '(firstName, lastName) :=
       if JS.truthy name then
         let nameParts := JS.split " " (JS.trim (str name)) in
         (JS.or_else (JS.at_ nameParts 0) (User.firstName reqUser),
          JS.or_else (JS.join " " (JS.slice1 nameParts)) "")
       else (User.firstName reqUser, User.lastName reqUser) in
     existingUser ←
       (if JS.truthy email && negb (bool_decide (str email = User.email reqUser))
        then User.findOne (λ u, User.email u = str email)
        else mret None);
     match existingUser with
     | Some _ => mret emailAlreadyExistsOnUpdate
     | None =>
         updatedUser ← User.findByIdAndUpdate userId
           [User.FirstName firstName;
            User.LastName lastName;
            User.Email (JS.or_else (str email) (User.email reqUser))] env;
         mret (profileUpdated updatedUser)
     end)
    (λ error,
       if String.eqb (Error.name error) "ValidationError"
       then validationError error
       else internalServerError).

Definition loggedOut : Response :=
  send 200 (JObj [
    ("success", JBool true);
    ("message", JStr "Logout successful");
    ("message_sv", JStr "Utloggning lyckades")]).

Definition tokenRefreshed (accessToken newRefreshToken : string) : Response :=
  send 200 (JObj [
    ("success", JBool true);
    ("message", JStr "Token refreshed successfully");
    ("message_sv", JStr ("Token uppdaterad framg" +:+ JS.a_ring +:+ "ngsrikt"));
    ("data", JObj [
      ("accessToken", JStr accessToken);
      ("refreshToken", JStr newRefreshToken)])]).

(** POST /api/auth/logout *)
Definition logoutUser (reqUser : User.doc) (req : Req.body) (env : Env) : Handler :=
  try_catch
    (_ ← (if JS.truthy (Req.refreshToken req)
          then User.removeRefreshToken reqUser (Req.refreshToken req) env
          else User.removeAllRefreshTokens reqUser env);
     mret loggedOut)
    (λ _, internalServerError).

(** POST /api/auth/refresh *)
Definition refreshToken `{Jwt}
    (reqUser : User.doc) (req : Req.body) (env : Env) : Handler :=
  try_catch
    (let refreshToken := Req.refreshToken req in
     let user := reqUser in
     let '(accessToken, newRefreshToken) :=
       Middleware.generateTokens (User._id user) env in
     user ← User.removeRefreshToken user refreshToken env;
     _ ← User.addRefreshToken user newRefreshToken env;
     mret (tokenRefreshed accessToken newRefreshToken))
    (λ _, internalServerError).

End AuthController.

(** ** The routes ([routes/auth.js]) *)

Module Routes.

Import AuthController.

(** [router.post('/register', validateRegistrationInput, registerUser)] *)
Definition register `{Bcrypt, Jwt} (req : Req.body) (env : Env) : Handler :=
  match validateRegistrationInput req with
  | Some rejection => λ db, (rejection, db)
  | None => registerUser req env
  end.

(** [router.post('/login', loginUser)] *)
Definition login `{Bcrypt, Jwt} (req : Req.body) (env : Env) : Handler :=
  loginUser req env.

(** What the refresh route produces: the error kind of the middleware, or
    the response of the handler. *)
Inductive RefreshOutcome : Type :=
| Rejected (e : Middleware.TokenError)
| Responded (r : Response).

(** [router.post('/refresh', verifyRefreshToken, refreshToken)] *)
Definition refresh `{Jwt} (req : Req.body) (env : Env)
  : list User.doc -> RefreshOutcome * list User.doc :=
  λ db,
    match Middleware.verifyRefreshToken (Req.refreshToken req) env db with
    | inl e => (Rejected e, db)
    | inr user =>
        let '(r, db') := refreshToken user req env db in (Responded r, db')
    end.

End Routes.

(** ** The JSON-file store ([database/index.js]) *)

Module Database.

(** A stored user is a plain object. *)
Abbreviation record := (gmap string JSON).

(** [this.users] and the parsed content of [users.json] ([None] when the
    file cannot be read). *)
Record t : Type := { users : list record; usersFile : option (list record) }.

(** [v === s] for a string [s]. *)
Definition is_string (v : option JSON) (s : string) : bool :=
  match v with
  | Some (JStr x) => String.eqb x s
  | _ => false
  end.

(** [a === b] on values read from records.  Ids and e-mails are
    primitives in every record the stores make themselves.  An array or
    object, compared by reference in JavaScript, is never equal here: that
    is right between values of different records or of different parses,
    and wrong only for such a value compared with itself, as
    [comparePassword] would compare a stored id that is not a primitive. *)
Definition strict_equal (a b : option JSON) : bool :=
  match a, b with
  | None, None => true
  | Some JNull, Some JNull => true
  | Some (JBool x), Some (JBool y) => Bool.eqb x y
  | Some (JNum x), Some (JNum y) => N.eqb x y
  | Some (JStr x), Some (JStr y) => String.eqb x y
  | Some (JDate x), Some (JDate y) => N.eqb x y
  | _, _ => false
  end.

(** Truthiness of a value read from a record. *)
Definition truthy (v : option JSON) : bool :=
  match v with
  | None | Some JNull | Some (JBool false) | Some (JNum 0) | Some (JStr "") => false
  | Some _ => true
  end.

(** [saveUsers()] when [fs.writeFileSync] succeeds; a write that throws is
    the subject of [DatabaseIO] below. *)
Definition saveUsers (db : t) : t :=
  {| users := users db; usersFile := Some (users db) |}.

Definition loadUsers (file : option (list record)) : t :=
  match file with
  | Some us => {| users := us; usersFile := file |}
  | None => saveUsers {| users := []; usersFile := None |}
  end.

Definition findUserByEmail (email : string) (db : t) : option record :=
  List.find (λ user, is_string (user !! "email") email) (users db).

Definition findUserById (id : string) (db : t) : option record :=
  List.find (λ user, is_string (user !! "id") id) (users db).

(** The object literal of [createUser]: later keys override earlier ones, so
    the spread of [userData] may override the id, which is the decimal text
    of the clock. *)
Definition newUser (userData : record) (hashedPassword : string) (env : Env) : record :=
  <["role" := JStr "user"]>
    (<["isActive" := JBool true]>
       (<["lastLogin" := JNull]>
          (<["createdAt" := JDate (now env)]>
             (<["password" := JStr hashedPassword]>
                (userData ∪ {["id" := JStr (pretty (now env))]}))))).

(** [createUser(userData)]; [None] when [bcrypt.hash] rejects a password
    that is not a string. *)
Definition createUser `{Bcrypt} (userData : record) (env : Env) (db : t)
  : option record * t :=
  match userData !! "password" with
  | Some (JStr plaintext) =>
      let hashedPassword := bcrypt_hash plaintext (salt env) in
      let user := newUser userData hashedPassword env in
      let db' := saveUsers {| users := users db ++ [user]; usersFile := usersFile db |} in
      (Some (delete "password" user), db')
  | _ => (None, db)
  end.

(** [updateUser(id, updateData)]: the outer [None] is a rejected hash, the
    inner one the [null] returned for an unknown id. *)
Definition updateUser `{Bcrypt} (id : string) (updateData : record) (env : Env) (db : t)
  : option (option record) * t :=
  match list_find (λ user, is_string (user !! "id") id = true) (users db) with
  | Some (userIndex, stored) =>
      let hashed : option record :=
        if truthy (updateData !! "password") then
          match updateData !! "password" with
          | Some (JStr plaintext) =>
              Some (<["password" := JStr (bcrypt_hash plaintext (salt env))]> updateData)
          | _ => None
          end
        else Some updateData in
      match hashed with
      | Some updateData' =>
          let user := updateData' ∪ stored in
          let db' := saveUsers {| users := <[userIndex := user]> (users db);
                                  usersFile := usersFile db |} in
          (Some (Some (delete "password" user)), db')
      | None => (None, db)
      end
  | None => (Some None, db)
  end.

(** [comparePassword(email, password)]; [None] when [bcrypt.compare]
    rejects a stored password that is not a string. *)
Definition comparePassword `{Bcrypt} (email password : string) (db : t)
  : option bool :=
  match findUserByEmail email db with
  | None => Some false
  | Some user =>
      match List.find (λ u, strict_equal (u !! "id") (user !! "id")) (users db) with
      | None => Some false
      | Some userWithPassword =>
          match userWithPassword !! "password" with
          | Some (JStr hashed) => Some (bcrypt_compare password hashed)
          | _ => None
          end
      end
  end.

Definition updateLastLogin (id : string) (env : Env) (db : t) : option record * t :=
  match list_find (λ user, is_string (user !! "id") id = true) (users db) with
  | Some (userIndex, stored) =>
      let user := <["lastLogin" := JDate (now env)]> stored in
      let db' := saveUsers {| users := <[userIndex := user]> (users db);
                              usersFile := usersFile db |} in
      (Some user, db')
  | None => (None, db)
  end.

End Database.

(** ** The static JSON-file store (the second [Database] class, a source
    file whose name is not known) *)

Module FileDatabase.

Abbreviation record := (gmap string JSON).

(** The parsed content of [data/users.json] ([None] when it cannot be read
    or parsed) and whether the file can be written. *)
Record t : Type := { usersFile : option (list record); writable : bool }.

Definition failure (text : string) : Error.t :=
  {| Error.name := "Error"; Error.message := text; Error.errors := [] |}.

(** [{ ..., key: value }] where the value may be [undefined]. *)
Definition field (key : string) (value : option JSON) (r : record) : record :=
  match value with
  | Some v => <[key := v]> r
  | None => delete key r
  end.

Definition readUsers (fs : t) : list record := default [] (usersFile fs).

(** [writeUsers(users)] with its boolean result. *)
Definition writeUsers (users : list record) (fs : t) : bool * t :=
  if writable fs then (true, {| usersFile := Some users; writable := true |})
  else (false, fs).

Definition findUserByEmail (email : option JSON) (fs : t) : option record :=
  List.find (λ user, Database.strict_equal (user !! "email") email) (readUsers fs).

Definition findUserById (id : option JSON) (fs : t) : option record :=
  List.find (λ user, Database.strict_equal (user !! "id") id) (readUsers fs).

(** The object returned by [createUser] and [updateUser]. *)
Definition view (user : record) : record :=
  field "id" (user !! "id")
    (field "name" (user !! "name")
       (field "email" (user !! "email")
          (field "role" (user !! "role")
             (field "createdAt" (user !! "createdAt")
                (field "updatedAt" (user !! "updatedAt") ∅))))).

Definition createUser `{Bcrypt} (userData : record) (env : Env) (fs : t)
  : (Error.t + record) * t :=
  let users := readUsers fs in
  match findUserByEmail (userData !! "email") fs with
  | Some _ => (inl (failure "User already exists"), fs)
  | None =>
      match userData !! "password" with
      | Some (JStr plaintext) =>
          let hashedPassword := bcrypt_hash plaintext (salt env) in
          let newUser : record :=
            field "id" (Some (JStr (pretty (now env))))
              (field "name" (userData !! "name")
                 (field "email" (userData !! "email")
                    (field "password" (Some (JStr hashedPassword))
                       (field "role" (Some (JStr "user"))
                          (field "createdAt" (Some (JDate (now env)))
                             (field "updatedAt" (Some (JDate (now env))) ∅)))))) in
          match writeUsers (users ++ [newUser]) fs with
          | (true, fs') => (inr (view newUser), fs')
          | (false, fs') => (inl (failure "Failed to save user"), fs')
          end
      | _ => (inl (failure "Illegal arguments"), fs)
      end
  end.

Definition comparePassword `{Bcrypt} (plainPassword hashedPassword : string) : bool :=
  bcrypt_compare plainPassword hashedPassword.

Definition updateLastLogin (userId : string) (env : Env) (fs : t) : t :=
  let users := readUsers fs in
  match list_find (λ user, Database.is_string (user !! "id") userId = true) users with
  | Some (userIndex, stored) =>
      let user := <["updatedAt" := JDate (now env)]>
                    (<["lastLogin" := JDate (now env)]> stored) in
      (writeUsers (<[userIndex := user]> users) fs).2
  | None => fs
  end.

Definition updateUser (userId : string) (updateData : record) (env : Env) (fs : t)
  : (Error.t + record) * t :=
  let users := readUsers fs in
  match list_find (λ user, Database.is_string (user !! "id") userId = true) users with
  | Some (userIndex, stored) =>
      let user := <["updatedAt" := JDate (now env)]> (updateData ∪ stored) in
      match writeUsers (<[userIndex := user]> users) fs with
      | (true, fs') => (inr (view user), fs')
      | (false, fs') => (inl (failure "User not found or update failed"), fs')
      end
  | None => (inl (failure "User not found or update failed"), fs)
  end.

End FileDatabase.

(** ** Sample implementations of the library interfaces

    Small executable stand-ins for bcryptjs and jsonwebtoken, used to run the
    model on concrete requests. *)

Module Sample.

(** A salted "hash" that verifies by prefix. *)
#[local] Instance bcrypt : Bcrypt := {|
  bcrypt_hash plaintext s := plaintext +:+ "$" +:+ s;
  bcrypt_compare plaintext hashed := String.prefix (plaintext +:+ "$") hashed
|}.

Definition kind_tag (k : TokenKind) : string :=
  match k with
  | AccessToken => "a"
  | RefreshToken => "r"
  end.

(** Tokens of the form [tag.user.identifier] that do not expire before
    [2^53]. *)
#[local] Instance jwt : Jwt := {|
  jwt_sign k claims :=
    kind_tag k +:+ "." +:+ userId claims +:+ "." +:+ from_option pretty "" (jti claims);
  jwt_decode k token :=
    match JS.split "." token with
    | [tag; uid; _] =>
        if String.eqb tag (kind_tag k)
        then Some {| userId := uid; jti := None; exp := 2 ^ 53 |}
        else None
    | _ => None
    end
|}.

Definition request (name email password : option string) : Req.body :=
  {| Req.name := name; Req.email := email; Req.password := password;
     Req.confirmPassword := None; Req.refreshToken := None |}.

Definition env (t : N) (id s : string) (tid : N) : Env :=
  {| now := t; production := true; objectId := id; salt := s; tokenId := tid |}.

(** Jane Doe, registered at time 1000 and never logged in. *)
Definition jane : User.doc :=
  {| User._id := "u1"; User.username := "jane"; User.email := "jane@x.com";
     User.password := "secret1$s1"; User.firstName := "Jane";
     User.lastName := "Doe"; User.role := User.RoleUser;
     User.isActive := true; User.lastLogin := None;
     User.createdAt := 1000; User.updatedAt := 1000;
     User.refreshTokens := {["r.u1.0"]} |}.

(** A deactivated account. *)
Definition bob : User.doc :=
  {| User._id := "u2"; User.username := "bob"; User.email := "bob@x.com";
     User.password := "hunter22$s2"; User.firstName := "Bob";
     User.lastName := "Roe"; User.role := User.RoleUser;
     User.isActive := false; User.lastLogin := None;
     User.createdAt := 2000; User.updatedAt := 2000;
     User.refreshTokens := ∅ |}.

End Sample.

(** ** Vocabulary of the properties *)

Module Vocabulary.

Import AuthController.

(** [email.split('@')[0]] *)
Definition derived_username (email : string) : string :=
  JS.at_ (JS.split "@" email) 0.

(** The query [{ $or: [{ email }, { username }] }]. *)
Abbreviation taken email username :=
  (λ u : User.doc, User.email u = email ∨ User.username u = username).

(** The queries [{ email }] and [{ _id }]. *)
Abbreviation with_email email := (λ u : User.doc, User.email u = email).
Abbreviation with_id id := (λ u : User.doc, User._id u = id).

(** The fields [registerUser] passes to [new User]. *)
Definition new_fields (name email : string) (password : option string) : User.fields :=
  let nameParts := JS.split " " (JS.trim name) in
  {| User.new_username := derived_username email;
     User.new_email := email;
     User.new_password := password;
     User.new_firstName := JS.or_else (JS.at_ nameParts 0) "";
     User.new_lastName := JS.or_else (JS.join " " (JS.slice1 nameParts)) "";
     User.new_role := User.RoleUser |}.

(** The first and last name [updateProfile] is about to store. *)
Definition new_names (reqUser : User.doc) (req : Req.body) : string * string :=
  if JS.truthy (Req.name req) then
    let nameParts := JS.split " " (JS.trim (str (Req.name req))) in
    (JS.or_else (JS.at_ nameParts 0) (User.firstName reqUser),
     JS.or_else (JS.join " " (JS.slice1 nameParts)) "")
  else (User.firstName reqUser, User.lastName reqUser).

(** The update document [updateProfile] passes to [findByIdAndUpdate]. *)
Definition profile_changes (reqUser : User.doc) (req : Req.body) : list User.change :=
  [User.FirstName (new_names reqUser req).1;
   User.LastName (new_names reqUser req).2;
   User.Email (JS.or_else (str (Req.email req)) (User.email reqUser))].

(** The request asks for an e-mail other than the current one. *)
Definition changes_email (reqUser : User.doc) (req : Req.body) : bool :=
  JS.truthy (Req.email req)
  && negb (bool_decide (str (Req.email req) = User.email reqUser)).

(** A string without a space character. *)
Definition no_space (s : string) : Prop :=
  Forall (λ c, Ascii.eqb c " " = false) (JS.of_string s).

(** A response that reports success. *)
Definition succeeded (r : Response) : Prop :=
  Json.get "success" (body r) = Some (JBool true).

(** The user view of a response: [data.user]. *)
Definition user_view (r : Response) : option JSON :=
  Json.get "data" (body r) ≫= Json.get "user".

(** A view without the fields that must stay inside. *)
Definition hides_secrets (view : JSON) : Prop :=
  ∀ k, k ∈ Json.keys view ->
       k ≠ "password" ∧ k ≠ "passwordHash" ∧ k ≠ "refreshTokens".

(** Everything in a record but its password hash and its token set. *)
Definition public_fields (u : User.doc) :=
  (User._id u, User.username u, User.email u, User.firstName u,
   User.lastName u, User.role u, User.isActive u, User.lastLogin u,
   User.createdAt u, User.updatedAt u).

(** A JSON value built from the public fields of a record alone. *)
Definition reads_public_fields_only (build : User.doc -> JSON) : Prop :=
  ∀ u u', public_fields u = public_fields u' -> build u = build u'.

(** The refresh token a response hands out: [data.refreshToken]. *)
Definition issued_refresh_token (r : Response) : option string :=
  match Json.get "data" (body r) ≫= Json.get "refreshToken" with
  | Some (JStr t) => Some t
  | _ => None
  end.

(** No stored object has the e-mail, nor the id that the clock reading
    [t] gives. *)
Definition fresh_in (db : Database.t) (email : string) (t : N) : Prop :=
  Forall (λ u, Database.is_string (u !! "email") email = false
               ∧ Database.strict_equal (u !! "id") (Some (JStr (pretty t))) = false)
         (Database.users db).

(** The number of stored records with the given e-mail. *)
Definition records_with_email (email : string) (db : list User.doc) : nat :=
  length (filter (λ e, e = email) (User.email <$> db)).

(** The checks made before the e-mail pattern is consulted. *)
Definition passes_earlier_checks (req : Req.body) : Prop :=
  JS.truthy (Req.name req) = true
  ∧ JS.truthy (Req.email req) = true
  ∧ JS.truthy (Req.password req) = true
  ∧ (JS.truthy (Req.confirmPassword req) = true ->
     Req.password req = Req.confirmPassword req)
  ∧ (6 ≤ String.length (str (Req.password req)))%nat.

(** The final dot-separated label of the requested address. *)
Definition final_label (req : Req.body) : JS.chars :=
  JS.last_label "." (JS.of_string (str (Req.email req))).

(** What a login reads from a record and shows of it in its answer; a
    token edit changes none of it. *)
Definition login_fields (u : User.doc) :=
  (User.email u, User.isActive u, User.password u, User._id u,
   AuthController.loginView u).

End Vocabulary.

(** ** The application ([app.js], the revision with an origin allow-list) *)

Module App.

Import Regex.

(** Case folding under the [i] flag, among the code units below 256, as
    far as a pattern of ASCII characters can tell: the ASCII letters fold,
    and no other character folds onto one. *)
Definition lower (c : ascii) : ascii :=
  if JS.in_range "A" "Z" c then ascii_of_nat (nat_of_ascii c + 32) else c.

Definition Chr_i (c : ascii) : Regex.t :=
  Class (λ x, Ascii.eqb (lower x) (lower c)).

Fixpoint Lit_i (cs : JS.chars) : Regex.t :=
  match cs with
  | [] => Eps
  | c :: cs' => Cat (Chr_i c) (Lit_i cs')
  end.

(** [/\.vercel\.app$/i]: without [^] a match may start anywhere. *)
Definition vercelRegex : Regex.t :=
  Cat (Star (Class (λ _, true))) (Lit_i (JS.of_string ".vercel.app")).

(** [explicitAllowedOrigins]; the argument is [process.env.CORS_ORIGIN],
    dropped by [filter(Boolean)] when unset or empty. *)
Definition explicitAllowedOrigins (CORS_ORIGIN : option string) : list string :=
  (if JS.truthy CORS_ORIGIN then [default "" CORS_ORIGIN] else [])
  ++ ["http://localhost:5173";
      "http://localhost:3000";
      "https://water-tool-frontend.vercel.app";
      "https://water-tool-frontend-atgm.vercel.app"].

Definition notAllowedByCors (origin : string) : Error.t :=
  {| Error.name := "Error";
     Error.message := "Not allowed by CORS: " +:+ origin;
     Error.errors := [] |}.

(** The [origin] callback of the CORS middleware: [inr tt] is
    [callback(null, true)], [inl e] is [callback(e)]. *)
Definition corsOrigin (CORS_ORIGIN origin : option string) : Error.t + () :=
  if negb (JS.truthy origin) then inr ()
  else
    let isVercel := Regex.test vercelRegex (default "" origin) in
    if isVercel
       || bool_decide (default "" origin ∈ explicitAllowedOrigins CORS_ORIGIN)
    then inr ()
    else inl (notAllowedByCors (default "" origin)).

End App.

(** ** The in-memory store once more, on a disk that can refuse a write

    [Database] takes every [fs.writeFileSync] to succeed.  Here the fate of
    the write is an input of the call, as clock and salt are: each method of
    [database/index.js] changes [this.users] first and calls [saveUsers]
    after, so an exception of the write leaves the memory changed and
    reaches the caller. *)

Module DatabaseIO.

Import Database.

(** How a call ends: with the value it returns, or with an exception that
    propagates to the caller (none of the methods catches one, but for the
    read in [loadUsers]). *)
Inductive outcome (A : Type) : Type :=
| Returned (a : A)
| Threw.
Arguments Returned {A} a.
Arguments Threw {A}.

(** [saveUsers()]; [disk] tells whether [fs.writeFileSync] succeeds. *)
Definition saveUsers (disk : bool) (db : t) : outcome () * t :=
  if disk then (Returned (), Database.saveUsers db) else (Threw, db).

(** The constructor: [loadUsers()], whose catch clause writes an empty
    file. *)
Definition loadUsers (disk : bool) (file : option (list record)) : outcome () * t :=
  match file with
  | Some us => (Returned (), {| users := us; usersFile := file |})
  | None => saveUsers disk {| users := []; usersFile := None |}
  end.

Definition createUser `{Bcrypt} (disk : bool) (userData : record) (env : Env) (db : t)
  : outcome record * t :=
  match userData !! "password" with
  | Some (JStr plaintext) =>
      let hashedPassword := bcrypt_hash plaintext (salt env) in
      let user := newUser userData hashedPassword env in
      let pushed := {| users := users db ++ [user]; usersFile := usersFile db |} in
      match saveUsers disk pushed with
      | (Returned _, db') => (Returned (delete "password" user), db')
      | (Threw, db') => (Threw, db')
      end
  | _ => (Threw, db)
  end.

Definition updateUser `{Bcrypt} (disk : bool) (id : string) (updateData : record)
    (env : Env) (db : t) : outcome (option record) * t :=
  match list_find (λ user, is_string (user !! "id") id = true) (users db) with
  | Some (userIndex, stored) =>
      let hashed : option record :=
        if truthy (updateData !! "password") then
          match updateData !! "password" with
          | Some (JStr plaintext) =>
              Some (<["password" := JStr (bcrypt_hash plaintext (salt env))]> updateData)
          | _ => None
          end
        else Some updateData in
      match hashed with
      | Some updateData' =>
          let user := updateData' ∪ stored in
          let replaced := {| users := <[userIndex := user]> (users db);
                             usersFile := usersFile db |} in
          match saveUsers disk replaced with
          | (Returned _, db') => (Returned (Some (delete "password" user)), db')
          | (Threw, db') => (Threw, db')
          end
      | None => (Threw, db)
      end
  | None => (Returned None, db)
  end.

Definition updateLastLogin (disk : bool) (id : string) (env : Env) (db : t)
  : outcome (option record) * t :=
  match list_find (λ user, is_string (user !! "id") id = true) (users db) with
  | Some (userIndex, stored) =>
      let user := <["lastLogin" := JDate (now env)]> stored in
      let replaced := {| users := <[userIndex := user]> (users db);
                         usersFile := usersFile db |} in
      match saveUsers disk replaced with
      | (Returned _, db') => (Returned (Some user), db')
      | (Threw, db') => (Threw, db')
      end
  | None => (Returned None, db)
  end.

(** The states the store is in after calls that returned: the constructor,
    then any of the writing methods. *)
Inductive reachable `{Bcrypt} : t -> Prop :=
| reach_load disk file db :
    loadUsers disk file = (Returned (), db) -> reachable db
| reach_createUser disk userData env db answer db' :
    reachable db ->
    createUser disk userData env db = (Returned answer, db') -> reachable db'
| reach_updateUser disk id updateData env db answer db' :
    reachable db ->
    updateUser disk id updateData env db = (Returned answer, db') -> reachable db'
| reach_updateLastLogin disk id env db answer db' :
    reachable db ->
    updateLastLogin disk id env db = (Returned answer, db') -> reachable db'.

(** Reading the file again would give what is in memory. *)
Definition synced (db : t) : Prop := Database.loadUsers (usersFile db) = db.

End DatabaseIO.

(** ** Further vocabulary *)

Module Notions.

(** Every character class of the pattern lies within [q]. *)
Fixpoint classes_in (q : ascii -> bool) (r : Regex.t) : Prop :=
  match r with
  | Regex.Void | Regex.Eps => True
  | Regex.Class p => ∀ c, p c = true -> q c = true
  | Regex.Cat r1 r2 | Regex.Alt r1 r2 => classes_in q r1 ∧ classes_in q r2
  | Regex.Star r1 => classes_in q r1
  end.

(** The characters the e-mail pattern admits on either side of the [@]. *)
Definition address_char (c : ascii) : bool :=
  JS.is_word c || Ascii.eqb c "." || Ascii.eqb c "-".

(** E-mails and usernames are each unique across the collection. *)
Definition unique_identities (db : list User.doc) : Prop :=
  NoDup (User.email <$> db) ∧ NoDup (User.username <$> db).

(** One request served to completion.  The profile route runs for the
    stored record of the authenticated user. *)
Inductive served `{Bcrypt, Jwt} : list User.doc -> list User.doc -> Prop :=
| served_register req env db :
    served db (Routes.register req env db).2
| served_login req env db :
    served db (Routes.login req env db).2
| served_profile reqUser req env db k :
    list_find (λ u, User._id u = User._id reqUser) db = Some (k, reqUser) ->
    served db (AuthController.updateProfile reqUser req env db).2
| served_logout reqUser req env db :
    served db (AuthController.logoutUser reqUser req env db).2
| served_refresh req env db :
    served db (Routes.refresh req env db).2.

(** Any number of requests, one after the other. *)
Inductive served_all `{Bcrypt, Jwt} : list User.doc -> list User.doc -> Prop :=
| served_none db : served_all db db
| served_more db db1 db2 : served db db1 -> served_all db1 db2 -> served_all db db2.

(** jsonwebtoken decodes what it signed, under the same key. *)
Definition jwt_round_trip `{Jwt} : Prop :=
  ∀ kind claims, jwt_decode kind (jwt_sign kind claims) = Some claims.

(** What identifies and protects an account: the fields no request of the
    controller is meant to change. *)
Definition account (u : User.doc)
  : string * string * string * User.Role * bool * N :=
  (User._id u, User.username u, User.password u, User.role u, User.isActive u,
   User.createdAt u).

(** The outcome of the refresh route on a token that is let through: the
    handler is reached, and if it answers 200 the answer is the new token
    pair made for [uid] at this call, whose refresh token is then stored on
    the record of [uid]. *)
Definition rotated `{Jwt} (uid : string) (env : Env) (db : list User.doc)
    (outcome : Routes.RefreshOutcome * list User.doc) : Prop :=
  ∃ r db',
    outcome = (Routes.Responded r, db')
    ∧ (status r = 200%N ->
       r = AuthController.tokenRefreshed (Middleware.generateTokens uid env).1
                                         (Middleware.generateTokens uid env).2
       ∧ ∃ k u, list_find (λ u, User._id u = uid) db' = Some (k, u)
                ∧ (Middleware.generateTokens uid env).2 ∈ User.refreshTokens u).

(** What a logout request revokes: the token it names, or every token of
    the user when it names none. *)
Definition revoked_by (req : Req.body) (t : string) : Prop :=
  JS.truthy (Req.refreshToken req) = false ∨ Req.refreshToken req = Some t.

(** A request that carries only a refresh token. *)
Definition refresh_request (token : option string) : Req.body :=
  {| Req.name := None; Req.email := None; Req.password := None;
     Req.confirmPassword := None; Req.refreshToken := token |}.

(** The keys that [createUser] of [database/index.js] writes after the
    spread of its argument. *)
Definition forced_keys : list string :=
  ["password"; "createdAt"; "lastLogin"; "isActive"; "role"].

(** The e-mails that are strings, in the order of the records. *)
Definition string_emails (users : list (gmap string JSON)) : list string :=
  omap (λ user, match user !! "email" with
                | Some (JStr e) => Some e
                | _ => None
                end) users.

(** The origin ends with [.vercel.app], in any mix of cases. *)
Definition ends_with_vercel (origin : string) : Prop :=
  ∃ pre suf, JS.of_string origin = pre ++ suf
             ∧ App.lower <$> suf = JS.of_string ".vercel.app".

End Notions.

(** ** A token format that can be read back

    A second stand-in for jsonwebtoken, whose tokens carry all their claims:
    the kind, the expiry and the token identifier in binary, then the user
    id. *)

Module Plain.

Definition tag (k : TokenKind) : ascii :=
  match k with
  | AccessToken => "a"
  | RefreshToken => "r"
  end.

(** The binary digits of [p], least significant first, before [rest]. *)
Fixpoint bits (p : positive) (rest : string) : string :=
  match p with
  | xH => String "1" rest
  | xO q => String "0" (bits q rest)
  | xI q => String "1" (bits q rest)
  end.

(** A number, closed by a dot, before [rest]. *)
Definition digits (n : N) (rest : string) : string :=
  match n with
  | N0 => String "." rest
  | Npos p => bits p (String "." rest)
  end.

Fixpoint read (s : string) : option (N * string) :=
  match s with
  | String "." rest => Some (0%N, rest)
  | String "0" r =>
      match read r with
      | Some (n, rest) => Some ((2 * n)%N, rest)
      | None => None
      end
  | String "1" r =>
      match read r with
      | Some (n, rest) => Some ((2 * n + 1)%N, rest)
      | None => None
      end
  | _ => None
  end.

Definition sign (k : TokenKind) (claims : Claims) : string :=
  String (tag k)
    (digits (exp claims)
       match jti claims with
       | None => String "n" (userId claims)
       | Some j => String "s" (digits j (userId claims))
       end).

Definition decode (k : TokenKind) (token : string) : option Claims :=
  match token with
  | String c rest =>
      if Ascii.eqb c (tag k) then
        match read rest with
        | Some (e, String "n" uid) => Some {| userId := uid; jti := None; exp := e |}
        | Some (e, String "s" rest') =>
            match read rest' with
            | Some (j, uid) => Some {| userId := uid; jti := Some j; exp := e |}
            | None => None
            end
        | _ => None
        end
      else None
  | "" => None
  end.

#[local] Instance jwt : Jwt := {| jwt_sign := sign; jwt_decode := decode |}.

End Plain.

(** * Properties *)

(** ** Strings *)

Section Strings.

Lemma to_of_string s : JS.to_string (JS.of_string s) = s.
Proof. apply string_of_list_ascii_of_string. Qed.

Lemma split_chars_cons sep cs : ∃ w ws, JS.split_chars sep cs = w :: ws.
Proof.
  induction cs as [|c cs IH]; simpl; [by eauto|].
  destruct (Ascii.eqb c sep); [by eauto|].
  destruct IH as (w & ws & ->). by eauto.
Qed.

(** Splitting distributes over a separator. *)
Lemma split_chars_app sep p x :
  JS.split_chars sep (p ++ sep :: x)
  = JS.split_chars sep p ++ JS.split_chars sep x.
Proof.
  induction p as [|c p IH]; simpl.
  - by rewrite Ascii.eqb_refl.
  - destruct (Ascii.eqb c sep); [by rewrite IH|].
    rewrite IH. by destruct (split_chars_cons sep p) as (w & ws & ->).
Qed.

Lemma split_chars_none sep x :
  Forall (λ c, Ascii.eqb c sep = false) x -> JS.split_chars sep x = [x].
Proof.
  induction 1 as [|c x Hc _ IH]; simpl; [done|]. by rewrite Hc, IH.
Qed.

Lemma last_label_app sep p x :
  Forall (λ c, Ascii.eqb c sep = false) x ->
  JS.last_label sep (p ++ sep :: x) = x.
Proof.
  intros Hx. unfold JS.last_label.
  rewrite split_chars_app, (split_chars_none _ _ Hx).
  by rewrite last_snoc.
Qed.

Lemma word_not_dot c : JS.is_word c = true -> Ascii.eqb c "." = false.
Proof.
  intros Hw. destruct (Ascii.eqb_spec c ".") as [->|]; [|done].
  by vm_compute in Hw.
Qed.

End Strings.

(** ** The pattern matcher decides the language of a pattern *)

Module RegexFacts.

Import Regex.

#[local] Hint Constructors Matches : core.

Lemma Matches_cat_inv r1 r2 w :
  Matches (Cat r1 r2) w ->
  ∃ w1 w2, w = w1 ++ w2 ∧ Matches r1 w1 ∧ Matches r2 w2.
Proof. inversion 1; subst; eauto. Qed.

Lemma Matches_alt_inv r1 r2 w :
  Matches (Alt r1 r2) w -> Matches r1 w ∨ Matches r2 w.
Proof. inversion 1; subst; eauto. Qed.

Lemma Matches_class_inv p w :
  Matches (Class p) w -> ∃ c, w = [c] ∧ p c = true.
Proof. inversion 1; subst; eauto. Qed.

Lemma Matches_eps_inv w : Matches Eps w -> w = [].
Proof. by inversion 1. Qed.

Lemma Matches_void_inv w : ¬ Matches Void w.
Proof. inversion 1. Qed.

(** A non-empty word of [r*] starts with a non-empty word of [r]. *)
Lemma Matches_star_cons r c w :
  Matches (Star r) (c :: w) ->
  ∃ w1 w2, w = w1 ++ w2 ∧ Matches r (c :: w1) ∧ Matches (Star r) w2.
Proof.
  intros H. remember (Star r) as s eqn:Hs. remember (c :: w) as cw eqn:Hcw.
  revert Hs Hcw.
  induction H as [| | | | | |r' w1 w2 H1 _ H2 IH2]; try discriminate.
  intros [= ->] Hcw. destruct w1 as [|c' w1]; simpl in Hcw.
  - by apply IH2.
  - simplify_eq/=. eauto.
Qed.

(** A non-empty word of [r*] ends with a word of [r]. *)
Lemma Matches_star_last r w :
  Matches (Star r) w -> w = [] ∨ ∃ p l, w = p ++ l ∧ Matches r l.
Proof.
  intros H. remember (Star r) as s eqn:Hs. revert Hs.
  induction H as [| | | | | |r' w1 w2 H1 _ H2 IH2]; try discriminate.
  - by left.
  - intros [= ->]. right. destruct (IH2 eq_refl) as [->|(p & l & -> & Hl)].
    + exists [], w1. by rewrite app_nil_r.
    + exists (w1 ++ p), l. by rewrite app_assoc.
Qed.

Lemma nullable_spec r : nullable r = true ↔ Matches r [].
Proof.
  induction r as [| |p|r1 IH1 r2 IH2|r1 IH1 r2 IH2|r IH]; simpl.
  - split; [done|]. by intros ?%Matches_void_inv.
  - by split.
  - split; [done|]. by intros (c & ? & _)%Matches_class_inv.
  - rewrite andb_true_iff, IH1, IH2. split.
    + intros [H1 H2]. by apply (MCat _ _ [] []).
    + intros (w1 & w2 & Hw & H1 & H2)%Matches_cat_inv.
      symmetry in Hw. apply app_eq_nil in Hw as [-> ->]. done.
  - rewrite orb_true_iff, IH1, IH2. split.
    + intros [?|?]; eauto.
    + apply Matches_alt_inv.
  - by split.
Qed.

Lemma cat_spec r1 r2 w : Matches (cat r1 r2) w ↔ Matches (Cat r1 r2) w.
Proof.
  destruct r1; simpl; try done.
  - split; [by intros ?%Matches_void_inv|].
    by intros (? & ? & _ & ?%Matches_void_inv & _)%Matches_cat_inv.
  - split.
    + intros H. by apply (MCat Eps r2 [] w).
    + by intros (? & ? & -> & ->%Matches_eps_inv & ?)%Matches_cat_inv.
Qed.

Lemma alt_spec r1 r2 w : Matches (alt r1 r2) w ↔ Matches (Alt r1 r2) w.
Proof.
  split.
  - destruct r1, r2; simpl; eauto.
  - intros [H|H]%Matches_alt_inv;
      destruct r1, r2; simpl; eauto; by apply Matches_void_inv in H.
Qed.

Lemma deriv_spec c r w : Matches (deriv c r) w ↔ Matches r (c :: w).
Proof.
  revert w.
  induction r as [| |p|r1 IH1 r2 IH2|r1 IH1 r2 IH2|r IH]; intros w; simpl.
  - split; by intros ?%Matches_void_inv.
  - split; [by intros ?%Matches_void_inv|]. by intros ?%Matches_eps_inv.
  - destruct (p c) eqn:Hp.
    + split.
      * intros ->%Matches_eps_inv. by constructor.
      * intros (c' & [= -> ->] & _)%Matches_class_inv. done.
    + split; [by intros ?%Matches_void_inv|].
      intros (c' & [= -> ->] & ?)%Matches_class_inv. congruence.
  - assert (Hcat : Matches (cat (deriv c r1) r2) w
                   ↔ ∃ w1 w2, w = w1 ++ w2 ∧ Matches r1 (c :: w1) ∧ Matches r2 w2).
    { rewrite cat_spec. split.
      - intros (w1 & w2 & -> & H1 & H2)%Matches_cat_inv.
        exists w1, w2. by rewrite <- IH1.
      - intros (w1 & w2 & -> & H1 & H2). constructor; [by apply IH1|done]. }
    assert (Hsplit : Matches (Cat r1 r2) (c :: w)
                     ↔ (∃ w1 w2, w = w1 ++ w2 ∧ Matches r1 (c :: w1) ∧ Matches r2 w2)
                       ∨ (Matches r1 [] ∧ Matches r2 (c :: w))).
    { split.
      - intros (w1 & w2 & Hw & H1 & H2)%Matches_cat_inv.
        destruct w1 as [|c' w1]; simpl in Hw.
        + right. by subst.
        + simplify_eq/=. left. eauto.
      - intros [(w1 & w2 & -> & H1 & H2)|[H1 H2]].
        + by apply (MCat r1 r2 (c :: w1) w2).
        + by apply (MCat r1 r2 [] (c :: w)). }
    rewrite Hsplit. destruct (nullable r1) eqn:Hn.
    + rewrite alt_spec. apply nullable_spec in Hn. split.
      * intros [H|H]%Matches_alt_inv; [left; by apply Hcat|right].
        split; [done|by apply IH2].
      * intros [H|[_ H]]; [apply MAltL; by apply Hcat|apply MAltR; by apply IH2].
    + rewrite Hcat. split; [by left|]. intros [H|[H _]]; [done|].
      apply nullable_spec in H. congruence.
  - rewrite alt_spec. split.
    + intros [H|H]%Matches_alt_inv; [apply MAltL; by apply IH1|apply MAltR; by apply IH2].
    + intros [H|H]%Matches_alt_inv; [apply MAltL; by apply IH1|apply MAltR; by apply IH2].
  - rewrite cat_spec. split.
    + intros (w1 & w2 & -> & H1 & H2)%Matches_cat_inv.
      apply (MStarApp r (c :: w1) w2); [by apply IH|done].
    + intros (w1 & w2 & -> & H1 & H2)%Matches_star_cons.
      constructor; [by apply IH|done].
Qed.

Lemma matches_spec r w : matches r w = true ↔ Matches r w.
Proof.
  revert r. induction w as [|c w IH]; intros r; simpl.
  - apply nullable_spec.
  - by rewrite IH, deriv_spec.
Qed.

Lemma Matches_plus_last r w :
  Matches (Plus r) w -> ∃ p l, w = p ++ l ∧ Matches r l.
Proof.
  intros (w1 & w2 & -> & H1 & H2)%Matches_cat_inv.
  destruct (Matches_star_last _ _ H2) as [->|(p & l & -> & Hl)].
  - exists [], w1. by rewrite app_nil_r.
  - exists (w1 ++ p), l. by rewrite app_assoc.
Qed.

Lemma Matches_rep23 p w :
  Matches (Rep23 (Class p)) w ->
  Forall (λ c, p c = true) w ∧ (length w = 2 ∨ length w = 3).
Proof.
  intros (w1 & w' & -> & (c1 & -> & H1)%Matches_class_inv & H)%Matches_cat_inv.
  apply Matches_cat_inv in H
    as (w2 & w3 & -> & (c2 & -> & H2)%Matches_class_inv & H3).
  apply Matches_alt_inv in H3
    as [->%Matches_eps_inv|(c3 & -> & H3)%Matches_class_inv]; simpl.
  - split; [by repeat constructor|by left].
  - split; [by repeat constructor|by right].
Qed.

End RegexFacts.

(** ** The sample hasher keeps bcrypt's promises *)

Module SampleFacts.

Lemma sample_bcrypt_verifies : @bcrypt_verifies Sample.bcrypt.
Proof.
  intros plaintext s. simpl.
  induction plaintext as [|c plaintext IH]; simpl.
  - destruct (Ascii.ascii_dec "$" "$"); [by destruct s|done].
  - destruct (Ascii.ascii_dec c c); [exact IH|done].
Qed.

Lemma sample_bcrypt_salted : @bcrypt_salted Sample.bcrypt.
Proof.
  intros plaintext s1 s2. simpl.
  induction plaintext as [|c plaintext IH]; simpl.
  - intros [= Heq]. exact Heq.
  - intros [= Heq]. by apply IH.
Qed.

End SampleFacts.

(** ** Registration input validation *)

Module ValidationFacts.

Import Regex RegexFacts AuthController Vocabulary.

(** A string accepted by the e-mail pattern ends with a dot followed by two
    or three word characters. *)
Lemma emailRegex_tail cs :
  Matches emailRegex cs ->
  ∃ p l, cs = p ++ "."%char :: l
         ∧ Forall (λ c, JS.is_word c = true) l
         ∧ (length l = 2 ∨ length l = 3).
Proof.
  unfold emailRegex.
  intros (w1 & cs1 & -> & _ & H)%Matches_cat_inv.
  apply Matches_cat_inv in H as (w2 & cs2 & -> & _ & H).
  apply Matches_cat_inv in H as (w3 & cs3 & -> & _ & H).
  apply Matches_plus_last in H as (p & l & -> & H).
  apply Matches_cat_inv in H as (d & l' & -> & Hd & Hl).
  apply Matches_class_inv in Hd as (c & -> & Hc).
  apply Ascii.eqb_eq in Hc as <-.
  apply Matches_rep23 in Hl as [Hw Hlen].
  exists (w1 ++ w2 ++ w3 ++ p), l'. split; [|done].
  by rewrite <- !app_assoc.
Qed.

(** The final dot-separated label of an accepted address has two or three
    characters. *)
Lemma emailRegex_final_label s :
  Regex.test emailRegex s = true ->
  let label := JS.last_label "." (JS.of_string s) in
  length label = 2 ∨ length label = 3.
Proof.
  unfold Regex.test. intros H%matches_spec.
  apply emailRegex_tail in H as (p & l & -> & Hw & Hlen). simpl.
  rewrite last_label_app; [done|].
  eapply Forall_impl; [exact Hw|]. apply word_not_dot.
Qed.

(** The middleware answers with one of its four rejections, all with
    status 400, or passes the request on. *)
Lemma validateRegistrationInput_cases req :
  validateRegistrationInput req = None
  ∨ validateRegistrationInput req = Some allFieldsRequired
  ∨ validateRegistrationInput req = Some passwordsDoNotMatch
  ∨ validateRegistrationInput req = Some passwordTooShort
  ∨ validateRegistrationInput req = Some invalidEmail.
Proof.
  unfold validateRegistrationInput.
  repeat (match goal with |- context [if ?b then _ else _] => destruct b end);
    tauto.
Qed.

Lemma validateRegistrationInput_status req r :
  validateRegistrationInput req = Some r -> status r = 400%N.
Proof.
  destruct (validateRegistrationInput_cases req) as [H|[H|[H|[H|H]]]];
    rewrite H; intros [= <-]; done.
Qed.

(** C9, as amended.  A Register request whose e-mail's final
    dot-separated label is longer than 3 or shorter than 2 characters never
    reaches the registration handler: validation answers with status 400
    and the store is untouched.  When the request passes the checks made
    before the e-mail check (name, e-mail and password present,
    confirmation absent or equal, password of 6 characters or more), the
    answer is the 'Please enter a valid email' rejection. *)
Theorem invalid_final_label_rejected `{Bcrypt, Jwt} (req : Req.body) :
  length (final_label req) < 2 ∨ 3 < length (final_label req) ->
  (∃ r, validateRegistrationInput req = Some r
        ∧ status r = 400%N
        ∧ ∀ env db, Routes.register req env db = (r, db))
  ∧ (passes_earlier_checks req ->
     validateRegistrationInput req = Some invalidEmail).
Proof.
  intros Hlabel.
  assert (Hre : Regex.test emailRegex (str (Req.email req)) = false).
  { destruct (Regex.test _ _) eqn:Htest; [|done].
    apply emailRegex_final_label in Htest. unfold final_label in Hlabel.
    simpl in Htest. lia. }
  split.
  - assert (∃ r, validateRegistrationInput req = Some r) as [r Hr].
    { unfold validateRegistrationInput. rewrite Hre. simpl.
      repeat (match goal with |- context [if ?b then _ else _] => destruct b end);
        eauto. }
    exists r. split; [done|]. split; [by eapply validateRegistrationInput_status|].
    intros env db. unfold Routes.register. by rewrite Hr.
  - intros (Hn & He & Hp & Hc & Hlen).
    unfold validateRegistrationInput. rewrite Hn, He, Hp, Hre. simpl.
    destruct (JS.truthy (Req.confirmPassword req)) eqn:Hcp; simpl.
    + rewrite bool_decide_eq_true_2 by auto. simpl.
      destruct (Nat.ltb_spec (String.length (str (Req.password req))) 6); [lia|done].
    + destruct (Nat.ltb_spec (String.length (str (Req.password req))) 6); [lia|done].
Qed.

(** The spec's own example, [user@example.info]. *)
Lemma invalid_final_label_rejected_witness :
  let req := Sample.request (Some "Jane Doe") (Some "user@example.info") (Some "secret1") in
  (∃ r, validateRegistrationInput req = Some r
        ∧ status r = 400%N
        ∧ ∀ env db, @Routes.register Sample.bcrypt Sample.jwt req env db = (r, db))
  ∧ (passes_earlier_checks req ->
     validateRegistrationInput req = Some invalidEmail).
Proof.
  intros req.
  apply (@invalid_final_label_rejected Sample.bcrypt Sample.jwt req).
  right. vm_compute. lia.
Defined.

(** C9 as stated fails: with the name missing, the same address is turned
    away with 'All fields are required', not with 'Please enter a valid
    email'. *)
Lemma invalid_final_label_other_message :
  let req := Sample.request None (Some "user@example.info") (Some "secret1") in
  3 < length (final_label req)
  ∧ validateRegistrationInput req = Some allFieldsRequired
  ∧ validateRegistrationInput req ≠ Some invalidEmail.
Proof.
  intros req. split; [vm_compute; lia|]. split; [done|]. discriminate.
Qed.

End ValidationFacts.

(** ** The collection *)

Module StoreFacts.

Import User.

Section Find.
Context {A : Type} (P : A -> Prop) `{!∀ x, Decision (P x)}.

Lemma list_find_insert_found (l : list A) k x y :
  list_find P l = Some (k, x) -> P y ->
  list_find P (<[k := y]> l) = Some (k, y).
Proof.
  intros (Hk & HP & Hleast)%list_find_Some Hy.
  apply list_find_insert_Some. right; left.
  split_and!; eauto using lookup_lt_Some.
Qed.

(** A search only looks at what the predicate looks at. *)
Lemma list_find_same_key {K} (key : A -> K) (l l' : list A) :
  (∀ x y, key x = key y -> P x -> P y) ->
  key <$> l = key <$> l' ->
  prod_map id key <$> list_find P l = prod_map id key <$> list_find P l'.
Proof.
  intros Hkey. revert l'.
  induction l as [|x l IH]; intros [|y l'] Heq; try done.
  injection Heq as Hx Hl. simpl.
  rewrite (decide_ext (P x) (P y)) by (split; apply Hkey; done).
  case_decide; simpl; [by rewrite Hx|].
  specialize (IH l' Hl).
  destruct (list_find P l) as [[]|], (list_find P l') as [[]|];
    simplify_eq/=; congruence.
Qed.

Lemma filter_none (l : list A) : Forall (λ x, ¬ P x) l -> filter P l = [].
Proof.
  induction 1 as [|x l Hx _ IH]; [done|]. by rewrite filter_cons_False.
Qed.
End Find.

Lemma write_found i f db k u :
  list_find (λ u, _id u = i) db = Some (k, u) -> write i f db = <[k := f u]> db.
Proof. unfold write. by intros ->. Qed.

(** Rewriting a record changes no field that the rewriting leaves alone. *)
Lemma write_fmap {K} (key : doc -> K) i f db :
  (∀ u, key (f u) = key u) -> key <$> write i f db = key <$> db.
Proof.
  intros Hf. unfold write.
  destruct (list_find _ db) as [[k u]|] eqn:Hfind; [|done].
  apply list_find_Some in Hfind as (Hk & _).
  rewrite list_fmap_insert. apply list_insert_id.
  by rewrite list_lookup_fmap, Hk; simpl; rewrite Hf.
Qed.

Lemma write_find i f db k u :
  list_find (λ u, _id u = i) db = Some (k, u) -> _id (f u) = i ->
  list_find (λ u, _id u = i) (write i f db) = Some (k, f u).
Proof.
  intros Hfind Hid. rewrite (write_found _ _ _ _ _ Hfind).
  by eapply list_find_insert_found.
Qed.

End StoreFacts.

(** ** Running the handlers *)

Ltac run_monad :=
  unfold try_catch, receiver, User.create, User.findByIdAndUpdate,
    User.findById, User.addRefreshToken, User.removeRefreshToken,
    User.removeAllRefreshTokens, User.editRefreshTokens, User.findOne,
    mbind, M_bind, mret, M_ret, gets, modify, throw.

Module RegisterFacts.

Import AuthController StoreFacts Vocabulary.

Section WithLibraries.
Context `{Bcrypt, Jwt}.

Lemma registrationError_status env e : status (registrationError env e) ≠ 201%N.
Proof.
  unfold registrationError.
  repeat (match goal with |- context [if ?b then _ else _] => destruct b end);
    done.
Qed.

(** The handler on a request whose e-mail or derived username is taken. *)
Lemma registerUser_taken req env db name email k existing :
  Req.name req = Some name -> Req.email req = Some email ->
  list_find (taken email (derived_username email)) db = Some (k, existing) ->
  registerUser req env db
  = (if bool_decide (User.email existing = email)
     then emailAlreadyExists else usernameAlreadyExists, db).
Proof.
  intros Hn He Hfind. unfold registerUser. run_monad.
  rewrite Hn, He. simpl. unfold derived_username in Hfind.
  by rewrite Hfind.
Qed.

(** The handler on a request whose e-mail and derived username are free. *)
Lemma registerUser_free req env db name email password :
  Req.name req = Some name -> Req.email req = Some email ->
  Req.password req = Some password ->
  list_find (taken email (derived_username email)) db = None ->
  let user := User.fresh (new_fields name email (Some password)) password env in
  let tokens := Middleware.generateTokens (User._id user) env in
  let issue := User.retoken (λ ts, {[tokens.2]} ∪ ts) env in
  registerUser req env db
  = (registered (issue user) tokens.1 tokens.2,
     User.write (User._id user) issue (db ++ [user])).
Proof.
  intros Hn He Hp Hfind. unfold registerUser. run_monad.
  rewrite Hn, He. simpl. unfold derived_username in Hfind.
  rewrite Hfind. simpl. rewrite Hp. simpl. rewrite Hfind. simpl.
  reflexivity.
Qed.

(** A 201 answer means the request was complete and its e-mail and
    derived username were free. *)
Lemma registerUser_201 req env db r db' :
  registerUser req env db = (r, db') -> status r = 201%N ->
  ∃ name email password,
    Req.name req = Some name ∧ Req.email req = Some email
    ∧ Req.password req = Some password
    ∧ list_find (taken email (derived_username email)) db = None.
Proof.
  unfold registerUser. run_monad.
  destruct (Req.name req) as [name|]; simpl;
    [|intros [= <- _] ?; by edestruct registrationError_status].
  destruct (Req.email req) as [email|]; simpl;
    [|intros [= <- _] ?; by edestruct registrationError_status].
  destruct (list_find _ db) as [[k ex]|] eqn:Hfind; simpl.
  { intros [= <- _]. by case_bool_decide. }
  destruct (Req.password req) as [password|]; simpl;
    [|intros [= <- _] ?; by edestruct registrationError_status].
  intros _ _. by exists name, email, password.
Qed.

End WithLibraries.

End RegisterFacts.

(** ** Sequential registrations *)

Module DuplicateFacts.

Import AuthController StoreFacts RegisterFacts ValidationFacts Vocabulary.

Section WithLibraries.
Context `{Bcrypt, Jwt}.

(** Token edits touch neither the e-mail nor the username. *)
Lemma retoken_identity edit env u :
  (User.email (User.retoken edit env u), User.username (User.retoken edit env u))
  = (User.email u, User.username u).
Proof. done. Qed.

(** Once a record with the e-mail has been appended to a collection that
    had none, the uniqueness query finds a record with that e-mail,
    whatever token edit happened since. *)
Lemma find_taken_after_append email username db u i edit env :
  list_find (taken email username) db = None ->
  User.email u = email ->
  ∃ v, list_find (taken email username)
         (User.write i (User.retoken edit env) (db ++ [u]))
       = Some (length db, v)
       ∧ User.email v = email.
Proof.
  intros Hfree Hu.
  pose proof (list_find_same_key (taken email username)
                (λ v, (User.email v, User.username v))
                (User.write i (User.retoken edit env) (db ++ [u]))
                (db ++ [u])) as Hkey.
  rewrite (list_find_app_r _ _ _ Hfree) in Hkey. simpl in Hkey.
  rewrite decide_True in Hkey by (by left). simpl in Hkey.
  destruct (list_find _ (User.write _ _ _)) as [[k v]|].
  - exists v.
    assert (Some (k, (User.email v, User.username v))
            = Some (length db, (User.email u, User.username u))) as Heq.
    { apply Hkey.
      - intros x y [= Hx Hy]. by rewrite Hx, Hy.
      - apply write_fmap, retoken_identity. }
    injection Heq as -> He _. split; [done|congruence].
  - exfalso. assert (@None (nat * (string * string))
                     = Some (length db, (User.email u, User.username u))) as Heq.
    { apply Hkey.
      - intros x y [= Hx Hy]. by rewrite Hx, Hy.
      - apply write_fmap, retoken_identity. }
    discriminate.
Qed.

Lemma records_with_email_after_append email username db u i edit env :
  list_find (taken email username) db = None ->
  User.email u = email ->
  records_with_email email (User.write i (User.retoken edit env) (db ++ [u])) = 1.
Proof.
  intros Hfree Hu. unfold records_with_email.
  rewrite (write_fmap User.email) by done.
  rewrite fmap_app, filter_app, length_app. simpl.
  rewrite filter_none.
  - rewrite filter_cons_True by done. done.
  - apply list_find_None in Hfree. apply Forall_fmap.
    eapply Forall_impl; [exact Hfree|]. simpl. tauto.
Qed.

End WithLibraries.

(** C1, as amended.  Under sequential execution, when Register has been
    answered 201 for an e-mail and is called again with the same e-mail, in a
    request that may differ in everything else, the second call is answered
    400, creates no record and leaves the store as it was, and the store
    holds exactly one record with that e-mail.  If the second request passes
    input validation the answer is the duplicate error, 'Email already
    exists'; if it does not, validation turns it away with its own message
    before the store is consulted. *)
Theorem second_registration_rejected `{Bcrypt, Jwt}
    (req1 req2 : Req.body) (env1 env2 : Env) (db db1 : list User.doc)
    (r1 : Response) (email : string) :
  Routes.register req1 env1 db = (r1, db1) ->
  status r1 = 201%N ->
  Req.email req1 = Some email ->
  Req.email req2 = Some email ->
  let second := Routes.register req2 env2 db1 in
  status second.1 = 400%N
  ∧ second.2 = db1
  ∧ records_with_email email second.2 = 1
  ∧ (validateRegistrationInput req2 = None -> second.1 = emailAlreadyExists)
  ∧ (∀ rejection, validateRegistrationInput req2 = Some rejection ->
                  second.1 = rejection).
Proof.
  unfold Routes.register.
  destruct (validateRegistrationInput req1) as [rej|] eqn:Hv.
  { intros [= <- _] Hs. apply validateRegistrationInput_status in Hv.
    rewrite Hv in Hs. discriminate. }
  intros Hfirst Hs Hemail1 Hemail2.
  destruct (registerUser_201 _ _ _ _ _ Hfirst Hs)
    as (name & email' & password & Hn & He & Hp & Hfree).
  rewrite Hemail1 in He. injection He as <-.
  rewrite (registerUser_free _ _ _ _ _ _ Hn Hemail1 Hp Hfree) in Hfirst.
  injection Hfirst as _ <-.
  set (user := User.fresh (new_fields name email (Some password)) password env1).
  match goal with
  | |- context [User.write _ (User.retoken ?edit ?env) _] =>
      pose proof (records_with_email_after_append email (derived_username email)
                    db user (User._id user) edit env Hfree eq_refl) as Hone;
      destruct (find_taken_after_append email (derived_username email) db user
                  (User._id user) edit env Hfree eq_refl) as (v & Hfind & Hv')
  end.
  destruct (validateRegistrationInput req2) as [rejection|] eqn:Hv2; simpl.
  - split_and!; try done.
    + by apply validateRegistrationInput_status in Hv2.
    + by intros ? [= ->].
  - assert (JS.truthy (Req.name req2) = true) as Hn2.
    { revert Hv2. unfold validateRegistrationInput.
      by destruct (JS.truthy (Req.name req2)). }
    destruct (Req.name req2) as [name2|] eqn:Hname2; [|done].
    rewrite (registerUser_taken _ _ _ _ _ _ _ Hname2 Hemail2 Hfind).
    rewrite bool_decide_eq_true_2 by done. simpl. split_and!; done.
Qed.

Lemma second_registration_rejected_witness :
  let req1 := Sample.request (Some "Ann Lee") (Some "ann@x.com") (Some "secret1") in
  let req2 := Sample.request (Some "Anna L") (Some "ann@x.com") (Some "other22") in
  let db := [Sample.jane; Sample.bob] in
  let first :=
    @Routes.register Sample.bcrypt Sample.jwt req1 (Sample.env 5000 "u9" "s9" 7) db in
  let second :=
    @Routes.register Sample.bcrypt Sample.jwt req2 (Sample.env 6000 "u10" "s10" 8)
      first.2 in
  status second.1 = 400%N
  ∧ second.2 = first.2
  ∧ records_with_email "ann@x.com" second.2 = 1
  ∧ (validateRegistrationInput req2 = None -> second.1 = emailAlreadyExists)
  ∧ (∀ rejection, validateRegistrationInput req2 = Some rejection ->
                  second.1 = rejection).
Proof.
  intros req1 req2 db first.
  apply (@second_registration_rejected Sample.bcrypt Sample.jwt req1 req2
           (Sample.env 5000 "u9" "s9" 7) (Sample.env 6000 "u10" "s10" 8)
           db first.2 first.1 "ann@x.com").
  - apply surjective_pairing.
  - vm_compute. reflexivity.
  - reflexivity.
  - reflexivity.
Defined.

(** C1 as stated fails: a second call with the same e-mail and a password
    of three characters is turned away for its password, 'Password must be at
    least 6 characters long', not as a duplicate. *)
Lemma second_registration_other_error :
  let req1 := Sample.request (Some "Ann Lee") (Some "ann@x.com") (Some "secret1") in
  let req2 := Sample.request (Some "Ann Lee") (Some "ann@x.com") (Some "abc") in
  let db := [Sample.jane; Sample.bob] in
  let first :=
    @Routes.register Sample.bcrypt Sample.jwt req1 (Sample.env 5000 "u9" "s9" 7) db in
  let second :=
    @Routes.register Sample.bcrypt Sample.jwt req2 (Sample.env 6000 "u10" "s10" 8)
      first.2 in
  status first.1 = 201%N
  ∧ Req.email req2 = Req.email req1
  ∧ second.1 = passwordTooShort
  ∧ second.1 ≠ emailAlreadyExists.
Proof. vm_compute. split_and!; [reflexivity..|discriminate]. Qed.

End DuplicateFacts.

(** ** Login *)

Module LoginFacts.

Import AuthController StoreFacts Vocabulary.

Section WithLibraries.
Context `{Bcrypt, Jwt}.

Lemma loginUser_missing req env db :
  JS.truthy (Req.email req) && JS.truthy (Req.password req) = false ->
  loginUser req env db = (emailAndPasswordRequired, db).
Proof.
  intros Hm. unfold loginUser. run_monad.
  destruct (JS.truthy (Req.email req)), (JS.truthy (Req.password req));
    simplify_eq/=; done.
Qed.

Lemma loginUser_unknown req env db :
  JS.truthy (Req.email req) = true -> JS.truthy (Req.password req) = true ->
  list_find (with_email (str (Req.email req))) db = None ->
  loginUser req env db = (invalidEmailOrPassword, db).
Proof.
  intros He Hp Hfind. unfold loginUser. run_monad.
  rewrite He, Hp. simpl. by rewrite Hfind.
Qed.

Lemma loginUser_inactive req env db k user :
  JS.truthy (Req.email req) = true -> JS.truthy (Req.password req) = true ->
  list_find (with_email (str (Req.email req))) db = Some (k, user) ->
  User.isActive user = false ->
  loginUser req env db = (accountDeactivated, db).
Proof.
  intros He Hp Hfind Ha. unfold loginUser. run_monad.
  rewrite He, Hp. simpl. rewrite Hfind. simpl. by rewrite Ha.
Qed.

Lemma loginUser_mismatch req env db k user :
  JS.truthy (Req.email req) = true -> JS.truthy (Req.password req) = true ->
  list_find (with_email (str (Req.email req))) db = Some (k, user) ->
  User.isActive user = true ->
  User.comparePassword user (str (Req.password req)) = false ->
  loginUser req env db = (invalidEmailOrPassword, db).
Proof.
  intros He Hp Hfind Ha Hc. unfold loginUser. run_monad.
  rewrite He, Hp. simpl. rewrite Hfind. simpl. by rewrite Ha, Hc.
Qed.

(** A successful login: [stored] is the record the update by id reaches,
    [user] the document the handler holds. *)
Lemma loginUser_verified req env db k user k0 stored :
  JS.truthy (Req.email req) = true -> JS.truthy (Req.password req) = true ->
  list_find (with_email (str (Req.email req))) db = Some (k, user) ->
  User.isActive user = true ->
  User.comparePassword user (str (Req.password req)) = true ->
  list_find (with_id (User._id user)) db = Some (k0, stored) ->
  let tokens := Middleware.generateTokens (User._id user) env in
  let issue := User.retoken (λ ts, {[tokens.2]} ∪ ts) env in
  loginUser req env db
  = (loggedIn (issue user) tokens.1 tokens.2,
     User.write (User._id user) issue
       (User.write (User._id user)
          (λ _, User.updated stored [User.LastLogin (now env)] env) db)).
Proof.
  intros He Hp Hfind Ha Hc Hid. unfold loginUser. run_monad.
  rewrite He, Hp. simpl. rewrite Hfind. simpl. rewrite Ha, Hc. simpl.
  rewrite Hid. reflexivity.
Qed.

(** The record the handler found is in the collection, so the update by
    id reaches some record. *)
Lemma found_has_id (P : User.doc -> Prop) `{!∀ u, Decision (P u)} db k user :
  list_find P db = Some (k, user) ->
  ∃ k0 stored, list_find (with_id (User._id user)) db = Some (k0, stored).
Proof.
  intros (Hk & _)%list_find_Some.
  destruct (list_find_elem_of (with_id (User._id user)) db user)
    as [[k0 stored] Hfound]; [by eapply list_elem_of_lookup_2|done|eauto].
Qed.

End WithLibraries.

(** C3, as amended.  A Login request with e-mail and password that fails
    because the e-mail matches no user, or because the password does not
    verify against the stored hash of an active account, gets one and the
    same answer in both cases: status 401, 'Invalid email or password'.  A
    Login to a deactivated account fails with status 401 too, but with its
    own message, 'Account is deactivated'.  None of the three changes the
    store. *)
Theorem login_failures `{Bcrypt, Jwt} (req : Req.body) (env : Env) (db : list User.doc) :
  JS.truthy (Req.email req) = true ->
  JS.truthy (Req.password req) = true ->
  let found := snd <$> list_find (with_email (str (Req.email req))) db in
  (found = None -> loginUser req env db = (invalidEmailOrPassword, db))
  ∧ (∀ user, found = Some user -> User.isActive user = true ->
       User.comparePassword user (str (Req.password req)) = false ->
       loginUser req env db = (invalidEmailOrPassword, db))
  ∧ (∀ user, found = Some user -> User.isActive user = false ->
       loginUser req env db = (accountDeactivated, db))
  ∧ status invalidEmailOrPassword = 401%N
  ∧ status accountDeactivated = 401%N.
Proof.
  intros He Hp found. subst found. split_and!; [| | |done|done].
  - intros Hnone. apply loginUser_unknown; [done..|].
    by destruct (list_find _ db).
  - intros user Hsome Ha Hc.
    destruct (list_find _ db) as [[k u]|] eqn:Hfind; simplify_eq/=.
    by eapply loginUser_mismatch.
  - intros user Hsome Ha.
    destruct (list_find _ db) as [[k u]|] eqn:Hfind; simplify_eq/=.
    by eapply loginUser_inactive.
Qed.

Lemma login_failures_witness :
  let req := Sample.request None (Some "zed@x.com") (Some "secret1") in
  let env := Sample.env 5000 "u9" "s9" 7 in
  let db := [Sample.jane; Sample.bob] in
  let found := snd <$> list_find (with_email (str (Req.email req))) db in
  (found = None ->
   @loginUser Sample.bcrypt Sample.jwt req env db = (invalidEmailOrPassword, db))
  ∧ (∀ user, found = Some user -> User.isActive user = true ->
       @User.comparePassword Sample.bcrypt user (str (Req.password req)) = false ->
       @loginUser Sample.bcrypt Sample.jwt req env db = (invalidEmailOrPassword, db))
  ∧ (∀ user, found = Some user -> User.isActive user = false ->
       @loginUser Sample.bcrypt Sample.jwt req env db = (accountDeactivated, db))
  ∧ status invalidEmailOrPassword = 401%N
  ∧ status accountDeactivated = 401%N.
Proof.
  intros req env db.
  apply (@login_failures Sample.bcrypt Sample.jwt req env db); reflexivity.
Defined.

(** C3 as stated fails: the answer to a login to a deactivated account
    differs from the answer to a login with an unknown e-mail. *)
Lemma login_inactive_distinguishable :
  let env := Sample.env 5000 "u9" "s9" 7 in
  let db := [Sample.jane; Sample.bob] in
  let unknown := Sample.request None (Some "zed@x.com") (Some "hunter22") in
  let inactive := Sample.request None (Some "bob@x.com") (Some "hunter22") in
  (@loginUser Sample.bcrypt Sample.jwt unknown env db).1 = invalidEmailOrPassword
  ∧ (@loginUser Sample.bcrypt Sample.jwt inactive env db).1 = accountDeactivated
  ∧ Json.get "message" (body invalidEmailOrPassword)
    ≠ Json.get "message" (body accountDeactivated).
Proof. split_and!; [reflexivity|reflexivity|discriminate]. Qed.

End LoginFacts.

(** ** Registration followed by login *)

Module RoundTripFacts.

Import AuthController StoreFacts RegisterFacts LoginFacts Vocabulary.

Lemma truthy_Some v : JS.truthy v = true -> ∃ s, v = Some s.
Proof. destruct v; [eauto|done]. Qed.

(** A request that validation passes on carries all three fields. *)
Lemma validateRegistrationInput_next req :
  validateRegistrationInput req = None ->
  JS.truthy (Req.name req) = true
  ∧ JS.truthy (Req.email req) = true
  ∧ JS.truthy (Req.password req) = true.
Proof.
  unfold validateRegistrationInput.
  destruct (JS.truthy (Req.name req)), (JS.truthy (Req.email req)),
    (JS.truthy (Req.password req)); simpl; done.
Qed.

Section WithLibraries.
Context `{Bcrypt, Jwt}.

(** What a token edit leaves alone of the fields a login consults. *)
Lemma retoken_credentials edit env u :
  (User.email (User.retoken edit env u), User.isActive (User.retoken edit env u),
   User.password (User.retoken edit env u))
  = (User.email u, User.isActive u, User.password u).
Proof. done. Qed.

(** After a record with a fresh e-mail has been appended, the login query
    finds a record with that e-mail, activity flag and password hash,
    whatever token edit happened since. *)
Lemma find_email_after_append email db u i edit env :
  list_find (with_email email) db = None ->
  User.email u = email ->
  ∃ k v, list_find (with_email email)
           (User.write i (User.retoken edit env) (db ++ [u])) = Some (k, v)
         ∧ User.isActive v = User.isActive u
         ∧ User.password v = User.password u.
Proof.
  intros Hfree Hu.
  pose proof (list_find_same_key (with_email email)
                (λ v, (User.email v, User.isActive v, User.password v))
                (User.write i (User.retoken edit env) (db ++ [u]))
                (db ++ [u])) as Hkey.
  rewrite (list_find_app_r _ _ _ Hfree) in Hkey. simpl in Hkey.
  rewrite decide_True in Hkey by done. simpl in Hkey.
  specialize (Hkey ltac:(by intros x y [= -> _ _])
                   ltac:(apply write_fmap, retoken_credentials)).
  destruct (list_find _ (User.write _ _ _)) as [[k v]|]; [|done].
  exists k, v. injection Hkey as _ _ Ha Hp. done.
Qed.

End WithLibraries.

(** C5.  For every registration input that passes validation and whose
    e-mail and derived username are not taken, Register succeeds: it answers
    201 with the view of the new user and a token pair for it.  A Login that
    follows with the same e-mail and the same plaintext password succeeds:
    it finds a record with that e-mail whose stored hash is the hash made at
    registration, that hash verifies against the plaintext (as bcrypt
    promises of its own hashes), and the answer is 200 with the view of the
    registered user and a token pair issued to its id. *)
Theorem registration_then_login `{Bcrypt, Jwt}
    (req login : Req.body) (env1 env2 : Env) (db : list User.doc)
    (name email password : string) :
  bcrypt_verifies ->
  validateRegistrationInput req = None ->
  Req.name req = Some name -> Req.email req = Some email ->
  Req.password req = Some password ->
  list_find (taken email (derived_username email)) db = None ->
  Req.email login = Some email ->
  Req.password login = Some password ->
  let user := User.fresh (new_fields name email (Some password)) password env1 in
  let first := Middleware.generateTokens (User._id user) env1 in
  let second := Middleware.generateTokens (User._id user) env2 in
  ∃ db1 db2 k stored,
    Routes.register req env1 db = (registered user first.1 first.2, db1)
    ∧ status (registered user first.1 first.2) = 201%N
    ∧ succeeded (registered user first.1 first.2)
    ∧ list_find (with_email email) db1 = Some (k, stored)
    ∧ User.password stored = bcrypt_hash password (salt env1)
    ∧ User.comparePassword stored password = true
    ∧ Routes.login login env2 db1 = (loggedIn user second.1 second.2, db2)
    ∧ status (loggedIn user second.1 second.2) = 200%N
    ∧ succeeded (loggedIn user second.1 second.2).
Proof.
  intros Hbcrypt Hvalid Hname Hmail Hpass Hfree Hemail Hpassword user first second.
  unfold Routes.register, Routes.login. rewrite Hvalid.
  rewrite (registerUser_free _ _ _ _ _ _ Hname Hmail Hpass Hfree).
  fold user. fold first.
  set (issue := User.retoken (λ ts, {[first.2]} ∪ ts) env1).
  set (db1 := User.write (User._id user) issue (db ++ [user])).
  assert (list_find (with_email email) db = None) as Hfree'.
  { apply list_find_None. apply list_find_None in Hfree.
    eapply Forall_impl; [exact Hfree|]. simpl. tauto. }
  assert (∃ k v, list_find (with_email email) db1 = Some (k, v)
                 ∧ login_fields v = login_fields user) as (k & v & Hfind & Hfields).
  { pose proof (list_find_same_key (with_email email) login_fields db1 (db ++ [user]))
      as Hkey.
    rewrite (list_find_app_r _ _ _ Hfree') in Hkey. simpl in Hkey.
    rewrite decide_True in Hkey by done. simpl in Hkey.
    specialize (Hkey ltac:(intros x y [= He _ _ _ _] Hx; congruence)
                     ltac:(apply write_fmap; intros u; reflexivity)).
    destruct (list_find _ db1) as [[k v]|]; [|done].
    change (Some (k, login_fields v) = Some (length db, login_fields user)) in Hkey.
    exists k, v. split; [done|]. congruence. }
  assert (Hactive : User.isActive v = true)
    by exact (f_equal (λ p, p.1.1.1.2) Hfields).
  assert (Hhash : User.password v = bcrypt_hash password (salt env1))
    by exact (f_equal (λ p, p.1.1.2) Hfields).
  assert (Hid : User._id v = User._id user) by exact (f_equal (λ p, p.1.2) Hfields).
  assert (Hview : loginView v = loginView user) by exact (f_equal snd Hfields).
  destruct (found_has_id _ _ _ _ Hfind) as (k0 & stored & Hstored).
  assert (Hcmp : User.comparePassword v password = true).
  { unfold User.comparePassword. rewrite Hhash. apply Hbcrypt. }
  assert (Hl : JS.truthy (Req.email login) = true).
  { rewrite Hemail. destruct (validateRegistrationInput_next _ Hvalid) as (_ & He & _).
    by rewrite Hmail in He. }
  assert (Hlp : JS.truthy (Req.password login) = true).
  { rewrite Hpassword. destruct (validateRegistrationInput_next _ Hvalid) as (_ & _ & Hp).
    by rewrite Hpass in Hp. }
  assert (Hq : str (Req.email login) = email) by (by rewrite Hemail).
  assert (Hqp : str (Req.password login) = password) by (by rewrite Hpassword).
  rewrite <- Hq in Hfind. rewrite <- Hqp in Hcmp.
  pose proof (loginUser_verified login env2 db1 k v k0 stored Hl Hlp Hfind Hactive Hcmp
                Hstored) as Hrun.
  cbv zeta in Hrun.
  rewrite Hq in Hfind. rewrite Hqp in Hcmp.
  exists db1, (loginUser login env2 db1).2, k, v. split_and!; try done.
  rewrite Hrun. cbn [snd]. f_equal.
  unfold loggedIn. rewrite Hid.
  change (loginView (User.retoken _ env2 v)) with (loginView v).
  by rewrite Hview.
Qed.

Lemma registration_then_login_witness :
  let req := Sample.request (Some "Ann Lee") (Some "ann@x.com") (Some "secret1") in
  let login := Sample.request None (Some "ann@x.com") (Some "secret1") in
  let env1 := Sample.env 5000 "u9" "s9" 7 in
  let env2 := Sample.env 6000 "u10" "s10" 8 in
  let db := [Sample.jane; Sample.bob] in
  let user := @User.fresh Sample.bcrypt
                (new_fields "Ann Lee" "ann@x.com" (Some "secret1")) "secret1" env1 in
  let first := @Middleware.generateTokens Sample.jwt (User._id user) env1 in
  let second := @Middleware.generateTokens Sample.jwt (User._id user) env2 in
  ∃ db1 db2 k stored,
    @Routes.register Sample.bcrypt Sample.jwt req env1 db
    = (registered user first.1 first.2, db1)
    ∧ status (registered user first.1 first.2) = 201%N
    ∧ succeeded (registered user first.1 first.2)
    ∧ list_find (with_email "ann@x.com") db1 = Some (k, stored)
    ∧ User.password stored = @bcrypt_hash Sample.bcrypt "secret1" (salt env1)
    ∧ @User.comparePassword Sample.bcrypt stored "secret1" = true
    ∧ @Routes.login Sample.bcrypt Sample.jwt login env2 db1
      = (loggedIn user second.1 second.2, db2)
    ∧ status (loggedIn user second.1 second.2) = 200%N
    ∧ succeeded (loggedIn user second.1 second.2).
Proof.
  intros req login env1 env2 db.
  apply (@registration_then_login Sample.bcrypt Sample.jwt req login env1 env2 db
           "Ann Lee" "ann@x.com" "secret1").
  - exact SampleFacts.sample_bcrypt_verifies.
  - reflexivity.
  - reflexivity.
  - reflexivity.
  - reflexivity.
  - reflexivity.
  - reflexivity.
  - reflexivity.
Defined.

End RoundTripFacts.

(** ** What a login records and what it reports *)

Module LastLoginFacts.

Import AuthController StoreFacts LoginFacts Vocabulary.

Section WithLibraries.
Context `{Bcrypt, Jwt}.

(** A login answered with status 200 went through every check. *)
Lemma loginUser_200 req env db r db' :
  loginUser req env db = (r, db') -> status r = 200%N ->
  ∃ k user k0 stored,
    JS.truthy (Req.email req) = true ∧ JS.truthy (Req.password req) = true
    ∧ list_find (with_email (str (Req.email req))) db = Some (k, user)
    ∧ User.isActive user = true
    ∧ User.comparePassword user (str (Req.password req)) = true
    ∧ list_find (with_id (User._id user)) db = Some (k0, stored).
Proof.
  intros Hrun Hs.
  destruct (JS.truthy (Req.email req)) eqn:He;
    [|rewrite loginUser_missing in Hrun by (by rewrite He); by simplify_eq].
  destruct (JS.truthy (Req.password req)) eqn:Hp;
    [|rewrite loginUser_missing in Hrun by (by rewrite He, Hp); by simplify_eq].
  destruct (list_find (with_email (str (Req.email req))) db) as [[k user]|] eqn:Hfind;
    [|rewrite loginUser_unknown in Hrun by done; by simplify_eq].
  destruct (User.isActive user) eqn:Ha;
    [|rewrite (loginUser_inactive _ _ _ _ _ He Hp Hfind Ha) in Hrun; by simplify_eq].
  destruct (User.comparePassword user (str (Req.password req))) eqn:Hc;
    [|rewrite (loginUser_mismatch _ _ _ _ _ He Hp Hfind Ha Hc) in Hrun; by simplify_eq].
  destruct (found_has_id _ _ _ _ Hfind) as (k0 & stored & Hid).
  by exists k, user, k0, stored.
Qed.

(** Every successful login stores the time of the login in the record that
    carries the user's identifier. *)
Lemma login_stores_lastLogin req env db r db' :
  loginUser req env db = (r, db') -> status r = 200%N ->
  ∃ k user k0 stored',
    list_find (with_email (str (Req.email req))) db = Some (k, user)
    ∧ list_find (with_id (User._id user)) db' = Some (k0, stored')
    ∧ User.lastLogin stored' = Some (now env).
Proof.
  intros Hrun Hs.
  destruct (loginUser_200 _ _ _ _ _ Hrun Hs)
    as (k & user & k0 & stored & He & Hp & Hfind & Ha & Hc & Hid).
  rewrite (loginUser_verified _ _ _ _ _ _ _ He Hp Hfind Ha Hc Hid) in Hrun.
  injection Hrun as _ <-.
  apply list_find_Some in Hid as Hstored. destruct Hstored as (_ & Hsid & _).
  set (recorded := User.updated stored [User.LastLogin (now env)] env).
  eexists k, user, k0, (User.retoken _ env recorded). split; [done|]. split.
  - apply (write_find _ _ _ k0 recorded); [|done].
    by apply (write_find _ (λ _, recorded) _ k0 stored).
  - done.
Qed.

(** The view of a successful login shows the [lastLogin] that the document
    held when it was read, before the login was recorded. *)
Lemma login_reports_previous_lastLogin req env db r db' :
  loginUser req env db = (r, db') -> status r = 200%N ->
  ∃ k user,
    list_find (with_email (str (Req.email req))) db = Some (k, user)
    ∧ (user_view r ≫= Json.get "lastLogin")
      = Some (Json.date_or_null (User.lastLogin user)).
Proof.
  intros Hrun Hs.
  destruct (loginUser_200 _ _ _ _ _ Hrun Hs)
    as (k & user & k0 & stored & He & Hp & Hfind & Ha & Hc & Hid).
  rewrite (loginUser_verified _ _ _ _ _ _ _ He Hp Hfind Ha Hc Hid) in Hrun.
  injection Hrun as <- _. by exists k, user.
Qed.

End WithLibraries.

(** C7 fails on the code.  Jane has never logged in; she logs in at time 5000
    with the right password.  The login succeeds and her stored record gets
    [lastLogin = 5000], but the user view of the response still says
    [lastLogin: null]: the view is built from the document read before
    [findByIdAndUpdate] recorded the login. *)
Theorem first_login_reports_null_lastLogin :
  let req := Sample.request None (Some "jane@x.com") (Some "secret1") in
  let env := Sample.env 5000 "u9" "s9" 7 in
  let result := @loginUser Sample.bcrypt Sample.jwt req env [Sample.jane; Sample.bob] in
  status result.1 = 200%N
  ∧ User.lastLogin <$> result.2 !! 0 = Some (Some 5000%N)
  ∧ (user_view result.1 ≫= Json.get "lastLogin") = Some JNull.
Proof. split_and!; reflexivity. Qed.

End LastLoginFacts.

(** ** Profile updates *)

Module UpdateFacts.

Import AuthController StoreFacts Vocabulary.

Section WithLibraries.
Context `{Bcrypt}.

Lemma updateProfile_taken reqUser req env db k other :
  changes_email reqUser req = true ->
  list_find (with_email (str (Req.email req))) db = Some (k, other) ->
  updateProfile reqUser req env db = (emailAlreadyExistsOnUpdate, db).
Proof.
  intros Hc Hfind. unfold updateProfile. run_monad.
  destruct (if JS.truthy (Req.name req) then _ else _) as [firstName lastName].
  unfold changes_email in Hc. rewrite Hc. by rewrite Hfind.
Qed.

Lemma updateProfile_absent reqUser req env db :
  (changes_email reqUser req = true ->
   list_find (with_email (str (Req.email req))) db = None) ->
  list_find (with_id (User._id reqUser)) db = None ->
  updateProfile reqUser req env db = (internalServerError, db).
Proof.
  intros Hc Hid. unfold updateProfile. run_monad.
  destruct (if JS.truthy (Req.name req) then _ else _) as [firstName lastName].
  unfold changes_email in Hc.
  destruct (JS.truthy (Req.email req) && _); simpl.
  - rewrite Hc by done. simpl. by rewrite Hid.
  - by rewrite Hid.
Qed.

(** The handler on a request that is not turned away: the record with the
    caller's identifier is replaced by its update. *)
Lemma updateProfile_stored reqUser req env db k stored :
  (changes_email reqUser req = true ->
   list_find (with_email (str (Req.email req))) db = None) ->
  list_find (with_id (User._id reqUser)) db = Some (k, stored) ->
  let updatedUser := User.updated stored (profile_changes reqUser req) env in
  updateProfile reqUser req env db
  = (profileUpdated updatedUser, <[k := updatedUser]> db).
Proof.
  intros Hc Hid. unfold updateProfile, profile_changes, new_names. run_monad.
  destruct (if JS.truthy (Req.name req) then _ else _) as [firstName lastName].
  unfold changes_email in Hc.
  destruct (JS.truthy (Req.email req) && _); simpl.
  - rewrite Hc by done. simpl. rewrite Hid. simpl.
    by rewrite (write_found _ _ _ _ _ Hid).
  - rewrite Hid. simpl. by rewrite (write_found _ _ _ _ _ Hid).
Qed.

(** The answers [updateProfile] can give. *)
Lemma updateProfile_cases reqUser req env db :
  let r := (updateProfile reqUser req env db).1 in
  r = emailAlreadyExistsOnUpdate ∨ r = internalServerError
  ∨ ∃ u, r = profileUpdated u.
Proof.
  simpl.
  destruct (changes_email reqUser req) eqn:Hc.
  - destruct (list_find (with_email (str (Req.email req))) db) as [[k o]|] eqn:Hf.
    { rewrite (updateProfile_taken _ _ _ _ _ _ Hc Hf). by left. }
    destruct (list_find (with_id (User._id reqUser)) db) as [[k s]|] eqn:Hid.
    + rewrite (updateProfile_stored _ _ _ _ _ _ (λ _, Hf) Hid). right; right. eauto.
    + rewrite (updateProfile_absent _ _ _ _ (λ _, Hf) Hid). by right; left.
  - assert (changes_email reqUser req = true ->
            list_find (with_email (str (Req.email req))) db = None) as Hf
      by (intros; congruence).
    destruct (list_find (with_id (User._id reqUser)) db) as [[k s]|] eqn:Hid.
    + rewrite (updateProfile_stored _ _ _ _ _ _ Hf Hid). right; right. eauto.
    + rewrite (updateProfile_absent _ _ _ _ Hf Hid). by right; left.
Qed.

(** Merging the profile fields touches nothing but the names, the e-mail
    and the modification time. *)
Lemma updated_profile_frame stored reqUser req env :
  let u := User.updated stored (profile_changes reqUser req) env in
  User._id u = User._id stored
  ∧ User.username u = User.username stored
  ∧ User.role u = User.role stored
  ∧ User.password u = User.password stored
  ∧ User.isActive u = User.isActive stored
  ∧ User.lastLogin u = User.lastLogin stored
  ∧ User.createdAt u = User.createdAt stored
  ∧ User.refreshTokens u = User.refreshTokens stored
  ∧ User.firstName u = (new_names reqUser req).1
  ∧ User.lastName u = (new_names reqUser req).2
  ∧ User.email u = JS.or_else (str (Req.email req)) (User.email reqUser)
  ∧ User.updatedAt u = now env.
Proof. done. Qed.

End WithLibraries.

End UpdateFacts.

Module ProfileFacts.

Import AuthController StoreFacts UpdateFacts Vocabulary.

Lemma or_else_same a b : a = b -> JS.or_else a b = b.
Proof. intros ->. unfold JS.or_else. by destruct (String.eqb b ""). Qed.

Lemma or_else_decide a b : JS.or_else a b = if decide (a = "") then b else a.
Proof.
  unfold JS.or_else. destruct (String.eqb_spec a ""); by case_decide.
Qed.

Lemma truthy_false v : JS.truthy v = false -> str v = "".
Proof.
  destruct v as [s|]; [|done]. simpl.
  destruct (String.eqb_spec s ""); [done|discriminate].
Qed.

(** Without a change of e-mail the update document carries the current
    e-mail. *)
Lemma unchanged_email reqUser req :
  changes_email reqUser req = false ->
  JS.or_else (str (Req.email req)) (User.email reqUser) = User.email reqUser.
Proof.
  unfold changes_email. intros [Ht|Hs]%andb_false_iff.
  - by rewrite (truthy_false _ Ht).
  - apply or_else_same. apply negb_false_iff in Hs. by apply bool_decide_eq_true in Hs.
Qed.

(** A string without a space splits into itself. *)
Lemma split_no_space s : no_space s -> JS.split " " s = [s].
Proof.
  intros Hs. unfold JS.split. rewrite (split_chars_none _ _ Hs). simpl.
  by rewrite to_of_string.
Qed.

(** The names stored for a name that is one word after trimming. *)
Lemma new_names_single_word reqUser req name :
  Req.name req = Some name -> name ≠ "" -> no_space (JS.trim name) ->
  new_names reqUser req
  = (if decide (JS.trim name = "") then User.firstName reqUser else JS.trim name, "").
Proof.
  intros Hn Hne Hs. unfold new_names. rewrite Hn. simpl.
  destruct (String.eqb_spec name ""); [done|]. simpl.
  rewrite (split_no_space _ Hs). unfold JS.at_, JS.slice1. simpl.
  by rewrite or_else_decide.
Qed.

(** C6.  For every UpdateProfile call on an existing user that asks for no
    change of e-mail (as when only a name is supplied), the stored record
    keeps its e-mail, username, role and password hash, every other record
    is left alone, and the record's [updatedAt] is set to the time of the
    update: it advances whenever the clock has. *)
Theorem update_without_email_change `{Bcrypt}
    (reqUser : User.doc) (req : Req.body) (env : Env) (db : list User.doc) (k : nat) :
  list_find (with_id (User._id reqUser)) db = Some (k, reqUser) ->
  changes_email reqUser req = false ->
  ∃ stored',
    (updateProfile reqUser req env db).2 = <[k := stored']> db
    ∧ list_find (with_id (User._id reqUser)) (updateProfile reqUser req env db).2
      = Some (k, stored')
    ∧ User.email stored' = User.email reqUser
    ∧ User.username stored' = User.username reqUser
    ∧ User.role stored' = User.role reqUser
    ∧ User.password stored' = User.password reqUser
    ∧ User.updatedAt stored' = now env
    ∧ ((User.updatedAt reqUser < now env)%N ->
       (User.updatedAt reqUser < User.updatedAt stored')%N).
Proof.
  intros Hid Hc.
  assert (changes_email reqUser req = true ->
          list_find (with_email (str (Req.email req))) db = None) as Hfree
    by (intros; congruence).
  rewrite (updateProfile_stored _ _ _ _ _ _ Hfree Hid). simpl.
  eexists. split; [reflexivity|]. split.
  { by eapply list_find_insert_found. }
  split; [by apply unchanged_email|]. done.
Qed.

Lemma update_without_email_change_witness :
  let req := Sample.request (Some "Janet") None None in
  let env := Sample.env 5000 "u9" "s9" 7 in
  let db := [Sample.jane; Sample.bob] in
  ∃ stored',
    (@updateProfile Sample.bcrypt Sample.jane req env db).2 = <[0 := stored']> db
    ∧ list_find (with_id (User._id Sample.jane))
        (@updateProfile Sample.bcrypt Sample.jane req env db).2 = Some (0, stored')
    ∧ User.email stored' = User.email Sample.jane
    ∧ User.username stored' = User.username Sample.jane
    ∧ User.role stored' = User.role Sample.jane
    ∧ User.password stored' = User.password Sample.jane
    ∧ User.updatedAt stored' = now env
    ∧ ((User.updatedAt Sample.jane < now env)%N ->
       (User.updatedAt Sample.jane < User.updatedAt stored')%N).
Proof.
  intros req env db.
  apply (@update_without_email_change Sample.bcrypt Sample.jane req env db 0);
    reflexivity.
Defined.

(** C10, as amended.  For every UpdateProfile call that is not turned away
    for a taken e-mail and that supplies a name which, after trimming, is not
    empty and contains no space character, the stored firstName becomes that
    single word and the stored lastName becomes the empty string, whatever
    lastName was stored before.  When the supplied name is nothing but white
    space, the stored firstName keeps its value and the lastName is emptied
    all the same. *)
Theorem update_with_single_word_name `{Bcrypt}
    (reqUser : User.doc) (req : Req.body) (env : Env) (db : list User.doc)
    (k : nat) (name : string) :
  list_find (with_id (User._id reqUser)) db = Some (k, reqUser) ->
  (changes_email reqUser req = true ->
   list_find (with_email (str (Req.email req))) db = None) ->
  Req.name req = Some name -> name ≠ "" ->
  no_space (JS.trim name) ->
  ∃ stored',
    list_find (with_id (User._id reqUser)) (updateProfile reqUser req env db).2
    = Some (k, stored')
    ∧ (JS.trim name ≠ "" -> User.firstName stored' = JS.trim name)
    ∧ (JS.trim name = "" -> User.firstName stored' = User.firstName reqUser)
    ∧ User.lastName stored' = "".
Proof.
  intros Hid Hfree Hn Hne Hs.
  rewrite (updateProfile_stored _ _ _ _ _ _ Hfree Hid). simpl.
  eexists. split; [by eapply list_find_insert_found|].
  simpl. rewrite (new_names_single_word _ _ _ Hn Hne Hs). simpl.
  split_and!; [intros; by case_decide|intros; by case_decide|done].
Qed.

Lemma update_with_single_word_name_witness :
  let req := Sample.request (Some " Janet ") None None in
  let env := Sample.env 5000 "u9" "s9" 7 in
  let db := [Sample.jane; Sample.bob] in
  ∃ stored',
    list_find (with_id (User._id Sample.jane))
      (@updateProfile Sample.bcrypt Sample.jane req env db).2 = Some (0, stored')
    ∧ (JS.trim " Janet " ≠ "" -> User.firstName stored' = JS.trim " Janet ")
    ∧ (JS.trim " Janet " = "" -> User.firstName stored' = User.firstName Sample.jane)
    ∧ User.lastName stored' = "".
Proof.
  intros req env db.
  apply (@update_with_single_word_name Sample.bcrypt Sample.jane req env db 0 " Janet ").
  - reflexivity.
  - discriminate.
  - reflexivity.
  - discriminate.
  - vm_compute. repeat constructor.
Defined.

(** C10 as stated fails: a name of two spaces is supplied; trimmed it is the
    empty string, which contains no space, yet the stored firstName stays
    "Jane" instead of becoming the trimmed name. *)
Lemma blank_name_keeps_firstName :
  let req := Sample.request (Some "  ") None None in
  let env := Sample.env 5000 "u9" "s9" 7 in
  let result := @updateProfile Sample.bcrypt Sample.jane req env [Sample.jane; Sample.bob] in
  JS.truthy (Req.name req) = true
  ∧ no_space (JS.trim "  ")
  ∧ status result.1 = 200%N
  ∧ User.firstName <$> result.2 !! 0 = Some "Jane"
  ∧ "Jane" ≠ JS.trim "  ".
Proof.
  split_and!; [reflexivity|by vm_compute|reflexivity|reflexivity|discriminate].
Qed.

End ProfileFacts.

(** ** What the responses show *)

Module ViewFacts.

Import AuthController StoreFacts RegisterFacts LoginFacts LastLoginFacts UpdateFacts
  Vocabulary.

Ltac check_keys :=
  intros k Hk; simpl in Hk;
  repeat (apply elem_of_cons in Hk as [->|Hk]; [by split_and!|]);
  by apply elem_of_nil in Hk.

Lemma registrationView_hides u : hides_secrets (registrationView u).
Proof. check_keys. Qed.

Lemma loginView_hides u : hides_secrets (loginView u).
Proof. check_keys. Qed.

Lemma profileView_hides u : hides_secrets (profileView u).
Proof. check_keys. Qed.

Ltac check_public :=
  intros u u' Hpub; unfold public_fields in Hpub; simplify_eq;
  unfold registrationView, loginView, profileView, displayName; congruence.

Lemma registrationView_public : reads_public_fields_only registrationView.
Proof. check_public. Qed.

Lemma loginView_public : reads_public_fields_only loginView.
Proof. check_public. Qed.

Lemma profileView_public : reads_public_fields_only profileView.
Proof. check_public. Qed.

Lemma registrationError_no_view env e : user_view (registrationError env e) = None.
Proof.
  unfold registrationError.
  repeat (match goal with |- context [if ?b then _ else _] => destruct b end);
    reflexivity.
Qed.

Section WithLibraries.
Context `{Bcrypt, Jwt}.

(** The answers [registerUser] can give. *)
Lemma registerUser_cases req env db :
  let r := (registerUser req env db).1 in
  (∃ e, r = registrationError env e) ∨ r = emailAlreadyExists
  ∨ r = usernameAlreadyExists ∨ ∃ u a t, r = registered u a t.
Proof.
  simpl. unfold registerUser. run_monad.
  destruct (Req.name req) as [name|]; simpl; [|by eauto].
  destruct (Req.email req) as [email|]; simpl; [|by eauto].
  destruct (list_find _ db) as [[k ex]|] eqn:Hfind; simpl.
  { case_bool_decide; eauto. }
  destruct (Req.password req) as [password|]; simpl; [|by eauto].
  rewrite Hfind. simpl. right; right; right. eauto.
Qed.

(** The answers [loginUser] can give. *)
Lemma loginUser_cases req env db :
  let r := (loginUser req env db).1 in
  r = emailAndPasswordRequired ∨ r = invalidEmailOrPassword
  ∨ r = accountDeactivated ∨ ∃ u a t, r = loggedIn u a t.
Proof.
  simpl.
  destruct (JS.truthy (Req.email req)) eqn:He;
    [|rewrite loginUser_missing by (by rewrite He); by left].
  destruct (JS.truthy (Req.password req)) eqn:Hp;
    [|rewrite loginUser_missing by (by rewrite He, Hp); by left].
  destruct (list_find (with_email (str (Req.email req))) db) as [[k user]|] eqn:Hfind;
    [|rewrite loginUser_unknown by done; by right; left].
  destruct (User.isActive user) eqn:Ha;
    [|rewrite (loginUser_inactive _ _ _ _ _ He Hp Hfind Ha); by right; right; left].
  destruct (User.comparePassword user (str (Req.password req))) eqn:Hc;
    [|rewrite (loginUser_mismatch _ _ _ _ _ He Hp Hfind Ha Hc); by right; left].
  destruct (found_has_id _ _ _ _ Hfind) as (k0 & stored & Hid).
  rewrite (loginUser_verified _ _ _ _ _ _ _ He Hp Hfind Ha Hc Hid).
  right; right; right. eauto.
Qed.

(** The answer of [registerUser] does not depend on which password was
    supplied. *)
Lemma registerUser_ignores_password req req' env db :
  Req.name req' = Req.name req -> Req.email req' = Req.email req ->
  is_Some (Req.password req) -> is_Some (Req.password req') ->
  (registerUser req' env db).1 = (registerUser req env db).1.
Proof.
  intros Hn He [p Hp] [p' Hp'].
  unfold registerUser. run_monad. rewrite Hn, He, Hp, Hp'.
  destruct (Req.name req) as [name|]; simpl; [|done].
  destruct (Req.email req) as [email|]; simpl; [|done].
  destruct (list_find _ db) as [[k ex]|] eqn:Hfind; simpl; [done|].
  rewrite Hfind. reflexivity.
Qed.

(** Two successful logins to the same e-mail get the same answer, whatever
    passwords were supplied. *)
Lemma loginUser_ignores_password req req' env db :
  Req.email req' = Req.email req ->
  status (loginUser req env db).1 = 200%N ->
  status (loginUser req' env db).1 = 200%N ->
  (loginUser req' env db).1 = (loginUser req env db).1.
Proof.
  intros Hmail Hs Hs'.
  destruct (loginUser req env db) as [r db1] eqn:Hrun.
  destruct (loginUser req' env db) as [r' db1'] eqn:Hrun'.
  destruct (loginUser_200 _ _ _ _ _ Hrun Hs)
    as (k & user & k0 & stored & He & Hp & Hfind & Ha & Hc & Hid).
  destruct (loginUser_200 _ _ _ _ _ Hrun' Hs')
    as (k' & user' & k0' & stored' & He' & Hp' & Hfind' & Ha' & Hc' & Hid').
  rewrite Hmail, Hfind in Hfind'. injection Hfind' as <- <-.
  rewrite (loginUser_verified _ _ _ _ _ _ _ He Hp Hfind Ha Hc Hid) in Hrun.
  rewrite Hmail in He'. rewrite <- Hmail in Hfind.
  rewrite (loginUser_verified _ _ _ _ _ _ _ ltac:(by rewrite Hmail) Hp' Hfind Ha Hc' Hid')
    in Hrun'.
  simpl. congruence.
Qed.

End WithLibraries.

(** C4.  Whatever the input, the user view in an answer of Register, Login,
    GetProfile or UpdateProfile has no [password], [passwordHash] or
    [refreshTokens] field, and it is built from a record by a view that reads
    neither the password hash nor the token set.  The plaintext password is
    not returned either: the answer of Register is the same for every
    password supplied, and so is the answer of every successful Login to an
    account (the other answers of Login are fixed messages). *)
Theorem views_hide_secrets `{Bcrypt, Jwt} :
  (∀ req env db view,
     user_view (registerUser req env db).1 = Some view ->
     hides_secrets view ∧ ∃ u, view = registrationView u)
  ∧ (∀ req env db view,
       user_view (loginUser req env db).1 = Some view ->
       hides_secrets view ∧ ∃ u, view = loginView u)
  ∧ (∀ reqUser db view,
       user_view (getCurrentUser reqUser db).1 = Some view ->
       hides_secrets view ∧ ∃ u, view = profileView u)
  ∧ (∀ reqUser req env db view,
       user_view (updateProfile reqUser req env db).1 = Some view ->
       hides_secrets view ∧ ∃ u, view = profileView u)
  ∧ (reads_public_fields_only registrationView
     ∧ reads_public_fields_only loginView
     ∧ reads_public_fields_only profileView)
  ∧ (∀ req req' env db,
       Req.name req' = Req.name req -> Req.email req' = Req.email req ->
       is_Some (Req.password req) -> is_Some (Req.password req') ->
       (registerUser req' env db).1 = (registerUser req env db).1)
  ∧ (∀ req req' env db,
       Req.email req' = Req.email req ->
       status (loginUser req env db).1 = 200%N ->
       status (loginUser req' env db).1 = 200%N ->
       (loginUser req' env db).1 = (loginUser req env db).1).
Proof.
  split_and!.
  - intros req env db view.
    destruct (registerUser_cases req env db) as [[e ->]|[->|[->|(u & a & t & ->)]]];
      [by rewrite registrationError_no_view|done|done|].
    intros [= <-]. split; [apply registrationView_hides|eauto].
  - intros req env db view.
    destruct (loginUser_cases req env db) as [->|[->|[->|(u & a & t & ->)]]];
      [done|done|done|].
    intros [= <-]. split; [apply loginView_hides|eauto].
  - intros reqUser db view [= <-]. split; [apply profileView_hides|eauto].
  - intros reqUser req env db view.
    destruct (updateProfile_cases reqUser req env db) as [->|[->|[u ->]]];
      [done|done|].
    intros [= <-]. split; [apply profileView_hides|eauto].
  - apply registrationView_public.
  - apply loginView_public.
  - apply profileView_public.
  - apply registerUser_ignores_password.
  - apply loginUser_ignores_password.
Qed.

Lemma views_hide_secrets_witness :
  let req := Sample.request (Some "Ann Lee") (Some "ann@x.com") (Some "secret1") in
  let env := Sample.env 5000 "u9" "s9" 7 in
  let db := [Sample.jane; Sample.bob] in
  ∃ view,
    user_view (@registerUser Sample.bcrypt Sample.jwt req env db).1 = Some view
    ∧ hides_secrets view.
Proof.
  intros req env db. eexists. split; [reflexivity|].
  apply (proj1 (@views_hide_secrets Sample.bcrypt Sample.jwt) req env db _).
  reflexivity.
Defined.

End ViewFacts.

(** ** Refresh-token rotation *)

Module RefreshFacts.

Import AuthController StoreFacts Vocabulary.

Section WithLibraries.
Context `{Jwt}.

(** The handler removes the presented token and stores the new one. *)
Lemma refreshToken_run reqUser req env db :
  let tokens := Middleware.generateTokens (User._id reqUser) env in
  let remove := User.retoken
    (λ ts, match Req.refreshToken req with Some t => ts ∖ {[t]} | None => ts end) env in
  let add := User.retoken (λ ts, {[tokens.2]} ∪ ts) env in
  refreshToken reqUser req env db
  = (tokenRefreshed tokens.1 tokens.2,
     User.write (User._id reqUser) add (User.write (User._id reqUser) remove db)).
Proof. reflexivity. Qed.

(** What the middleware checked when it let a request through. *)
Lemma verifyRefreshToken_accepts token env db user :
  Middleware.verifyRefreshToken token env db = inr user ->
  ∃ t claims k,
    token = Some t
    ∧ jwt_decode RefreshToken t = Some claims
    ∧ (now env < exp claims)%N
    ∧ list_find (with_id (userId claims)) db = Some (k, user)
    ∧ t ∈ User.refreshTokens user.
Proof.
  unfold Middleware.verifyRefreshToken.
  destruct token as [t|]; [|done].
  destruct (jwt_decode RefreshToken t) as [claims|] eqn:Hdecode; [|done].
  destruct (N.leb_spec (exp claims) (now env)); [done|].
  destruct (list_find _ db) as [[k u]|] eqn:Hfind; [|done]. simpl.
  case_bool_decide; [|done]. intros [= <-]. by exists t, claims, k.
Qed.

End WithLibraries.

(** C2.  After a RefreshToken call that succeeded for token [t] and returned
    a new refresh token other than [t], a second RefreshToken call that
    presents [t] again, while [t] is still unexpired, is rejected by the
    middleware with [RevokedError]; the handler is not reached, so no tokens
    are issued and the store is left as it was. *)
Theorem consumed_refresh_token_is_revoked `{Jwt}
    (req : Req.body) (env1 env2 : Env) (db db1 : list User.doc)
    (r : Response) (t : string) :
  Req.refreshToken req = Some t ->
  Routes.refresh req env1 db = (Routes.Responded r, db1) ->
  issued_refresh_token r ≠ Some t ->
  (∀ claims, jwt_decode RefreshToken t = Some claims -> (now env2 < exp claims)%N) ->
  Routes.refresh req env2 db1 = (Routes.Rejected Middleware.RevokedError, db1).
Proof.
  intros Ht Hfirst Hnew Hvalid. unfold Routes.refresh in *.
  destruct (Middleware.verifyRefreshToken _ env1 db) as [e|user] eqn:Hverify; [done|].
  apply verifyRefreshToken_accepts in Hverify
    as (t' & claims & k & Ht' & Hdecode & _ & Hfind & _).
  rewrite Ht in Ht'. injection Ht' as <-.
  apply list_find_Some in Hfind as Hid. destruct Hid as (_ & Hid & _).
  rewrite refreshToken_run in Hfirst. rewrite Ht, Hid in Hfirst.
  cbv beta iota zeta in Hfirst. injection Hfirst as <- <-.
  set (tokens := Middleware.generateTokens (userId claims) env1) in *.
  set (remove := User.retoken (λ ts, ts ∖ {[t]}) env1).
  set (add := User.retoken (λ ts, {[tokens.2]} ∪ ts) env1).
  assert (list_find (with_id (userId claims))
            (User.write (userId claims) add (User.write (userId claims) remove db))
          = Some (k, add (remove user))) as Hfind'.
  { apply write_find; [|done]. by apply write_find. }
  unfold Middleware.verifyRefreshToken. rewrite Ht, Hdecode.
  destruct (N.leb_spec (exp claims) (now env2)) as [Hexp|_].
  { specialize (Hvalid claims Hdecode). lia. }
  unfold add, tokens in Hfind'. simpl in Hfind'. rewrite Hfind'. simpl.
  rewrite bool_decide_eq_false_2; [done|].
  unfold issued_refresh_token in Hnew. simpl in Hnew.
  intros [Hin|[_ Hin]%elem_of_difference]%elem_of_union.
  - apply elem_of_singleton in Hin. apply Hnew. by rewrite <- Hin.
  - apply Hin. by apply elem_of_singleton.
Qed.

Lemma consumed_refresh_token_is_revoked_witness :
  let req := {| Req.name := None; Req.email := None; Req.password := None;
                Req.confirmPassword := None; Req.refreshToken := Some "r.u1.0" |} in
  let env1 := Sample.env 5000 "u9" "s9" 7 in
  let env2 := Sample.env 6000 "u10" "s10" 8 in
  let first := @Routes.refresh Sample.jwt req env1 [Sample.jane; Sample.bob] in
  @Routes.refresh Sample.jwt req env2 first.2
  = (Routes.Rejected Middleware.RevokedError, first.2).
Proof.
  intros req env1 env2 first.
  apply (@consumed_refresh_token_is_revoked Sample.jwt req env1 env2
           [Sample.jane; Sample.bob] first.2
           (tokenRefreshed "a.u1." "r.u1.7") "r.u1.0").
  - reflexivity.
  - reflexivity.
  - discriminate.
  - intros claims [= <-]. reflexivity.
Defined.

End RefreshFacts.

(** ** Password hashing in the JSON-file store *)

Module HashFacts.

Import Database Vocabulary.

Lemma find_app_fresh {A} (f : A -> bool) (l l' : list A) :
  Forall (λ x, f x = false) l -> List.find f (l ++ l') = List.find f l'.
Proof. induction 1 as [|x l Hx _ IH]; simpl; [done|]. by rewrite Hx. Qed.

Lemma newUser_password userData hashed env :
  newUser userData hashed env !! "password" = Some (JStr hashed).
Proof. unfold newUser. by simplify_map_eq. Qed.

Lemma newUser_email userData hashed env :
  newUser userData hashed env !! "email" = userData !! "email".
Proof.
  unfold newUser. rewrite !lookup_insert_ne by done.
  rewrite lookup_union_l; [done|]. by apply lookup_singleton_ne.
Qed.

Lemma newUser_id userData hashed env :
  userData !! "id" = None ->
  newUser userData hashed env !! "id" = Some (JStr (pretty (now env))).
Proof.
  intros Hid. unfold newUser. rewrite !lookup_insert_ne by done.
  rewrite lookup_union_r by done. apply lookup_singleton_eq.
Qed.

(** The caller is handed the new record without its password. *)
Lemma createUser_returns_no_password `{Bcrypt} userData env db u :
  (createUser userData env db).1 = Some u -> u !! "password" = None.
Proof.
  unfold createUser. destruct (userData !! "password") as [[]|]; try done.
  simpl. intros [= <-]. apply lookup_delete_eq.
Qed.

Lemma createUser_users `{Bcrypt} userData env db plaintext :
  userData !! "password" = Some (JStr plaintext) ->
  users (createUser userData env db).2
  = users db ++ [newUser userData (bcrypt_hash plaintext (salt env)) env].
Proof. unfold createUser. by intros ->. Qed.

(** After two creations, with e-mails and clock readings that differ from
    each other and from what is stored, [comparePassword] for either e-mail
    gives the verdict of [bcrypt.compare] on the hash of that account and of
    no other. *)
Lemma comparePassword_reaches_own_hash `{Bcrypt}
    (users0 : list record) (user1 user2 : record) (file : option (list record))
    (email1 email2 id1 id2 hash1 hash2 : string) :
  Forall (λ u, is_string (u !! "email") email1 = false
               ∧ strict_equal (u !! "id") (Some (JStr id1)) = false) users0 ->
  Forall (λ u, is_string (u !! "email") email2 = false
               ∧ strict_equal (u !! "id") (Some (JStr id2)) = false) users0 ->
  email1 ≠ email2 -> id1 ≠ id2 ->
  user1 !! "email" = Some (JStr email1) -> user2 !! "email" = Some (JStr email2) ->
  user1 !! "id" = Some (JStr id1) -> user2 !! "id" = Some (JStr id2) ->
  user1 !! "password" = Some (JStr hash1) -> user2 !! "password" = Some (JStr hash2) ->
  let db := {| users := users0 ++ [user1; user2]; usersFile := file |} in
  ∀ candidate,
    comparePassword email1 candidate db = Some (bcrypt_compare candidate hash1)
    ∧ comparePassword email2 candidate db = Some (bcrypt_compare candidate hash2).
Proof.
  intros Hf1 Hf2 Hemail Hid Hm1 Hm2 Hi1 Hi2 Hp1 Hp2 db candidate.
  assert (String.eqb email1 email2 = false) as Hne by (by apply String.eqb_neq).
  assert (String.eqb id1 id2 = false) as Hnid by (by apply String.eqb_neq).
  unfold comparePassword, findUserByEmail. simpl. split.
  - rewrite find_app_fresh by (eapply Forall_impl; [exact Hf1|]; by intros ? [? _]).
    simpl. rewrite Hm1. simpl. rewrite String.eqb_refl.
    rewrite find_app_fresh
      by (rewrite Hi1; eapply Forall_impl; [exact Hf1|]; by intros ? [_ ?]).
    simpl. rewrite Hi1. simpl. rewrite String.eqb_refl. by rewrite Hp1.
  - rewrite find_app_fresh by (eapply Forall_impl; [exact Hf2|]; by intros ? [? _]).
    simpl. rewrite Hm1, Hm2. simpl. rewrite Hne, String.eqb_refl.
    rewrite find_app_fresh
      by (rewrite Hi2; eapply Forall_impl; [exact Hf2|]; by intros ? [_ ?]).
    simpl. rewrite Hi1, Hi2. simpl. rewrite Hnid, String.eqb_refl. by rewrite Hp2.
Qed.

(** C8.  When the store creates two users from the same plaintext password,
    each call hashes it with the salt drawn in that call: the two stored
    values are the hashes under the two salts, they differ when the salts do
    (bcrypt's salting), and [comparePassword(email, candidate)] answers, for
    either account and every candidate, with the verdict of [bcrypt.compare]
    on the hash stored for that account, which for the plaintext is a match
    (bcrypt accepts its own hashes).  The two creations are for different
    e-mails at different clock readings, so that e-mail and id tell the
    accounts apart.  (The salts are inputs here; that two independently
    drawn salts differ is a matter of chance.) *)
Theorem same_password_hashed_twice `{Bcrypt}
    (data1 data2 : gmap string JSON) (env1 env2 : Env) (db : Database.t)
    (plaintext email1 email2 : string) :
  bcrypt_verifies -> bcrypt_salted ->
  salt env1 ≠ salt env2 ->
  now env1 ≠ now env2 -> email1 ≠ email2 ->
  data1 !! "password" = Some (JStr plaintext) ->
  data2 !! "password" = Some (JStr plaintext) ->
  data1 !! "email" = Some (JStr email1) -> data1 !! "id" = None ->
  data2 !! "email" = Some (JStr email2) -> data2 !! "id" = None ->
  fresh_in db email1 (now env1) -> fresh_in db email2 (now env2) ->
  let hash1 := bcrypt_hash plaintext (salt env1) in
  let hash2 := bcrypt_hash plaintext (salt env2) in
  let db2 := (createUser data2 env2 (createUser data1 env1 db).2).2 in
  ∃ user1 user2,
    users db2 = users db ++ [user1; user2]
    ∧ user1 !! "password" = Some (JStr hash1)
    ∧ user2 !! "password" = Some (JStr hash2)
    ∧ hash1 ≠ hash2
    ∧ (∀ candidate,
         comparePassword email1 candidate db2 = Some (bcrypt_compare candidate hash1))
    ∧ (∀ candidate,
         comparePassword email2 candidate db2 = Some (bcrypt_compare candidate hash2))
    ∧ comparePassword email1 plaintext db2 = Some true
    ∧ comparePassword email2 plaintext db2 = Some true.
Proof.
  intros Hverifies Hsalted Hsalt Hclock Hemail Hp1 Hp2 He1 Hi1 He2 Hi2 Hf1 Hf2
    hash1 hash2 db2.
  set (user1 := newUser data1 hash1 env1).
  set (user2 := newUser data2 hash2 env2).
  assert (Hdb2 : db2 = {| users := users db ++ [user1; user2];
                          usersFile := Some (users db ++ [user1; user2]) |}).
  { unfold db2, createUser. rewrite Hp1, Hp2. simpl. unfold saveUsers. simpl.
    by rewrite <- app_assoc. }
  assert (Hpw1 : user1 !! "password" = Some (JStr hash1)) by apply newUser_password.
  assert (Hpw2 : user2 !! "password" = Some (JStr hash2)) by apply newUser_password.
  assert (Hreach : ∀ candidate,
            comparePassword email1 candidate db2 = Some (bcrypt_compare candidate hash1)
            ∧ comparePassword email2 candidate db2
              = Some (bcrypt_compare candidate hash2)).
  { rewrite Hdb2.
    apply (comparePassword_reaches_own_hash (users db) user1 user2 _ email1 email2
             (pretty (now env1)) (pretty (now env2)) hash1 hash2); try done.
    - intros Heq. by apply Hclock, (inj pretty).
    - unfold user1. by rewrite newUser_email.
    - unfold user2. by rewrite newUser_email.
    - by apply newUser_id.
    - by apply newUser_id. }
  exists user1, user2. split_and!; try done.
  - by rewrite Hdb2.
  - intros Heq. apply Hsalt. by eapply Hsalted.
  - intros candidate. apply Hreach.
  - intros candidate. apply Hreach.
  - rewrite (proj1 (Hreach plaintext)). f_equal. apply Hverifies.
  - rewrite (proj2 (Hreach plaintext)). f_equal. apply Hverifies.
Qed.

Lemma same_password_hashed_twice_witness :
  let data1 : gmap string JSON :=
    {[ "email" := JStr "ann@x.com"; "password" := JStr "secret1" ]} in
  let data2 : gmap string JSON :=
    {[ "email" := JStr "ben@x.com"; "password" := JStr "secret1" ]} in
  let env1 := Sample.env 5000 "u9" "s9" 7 in
  let env2 := Sample.env 6000 "u10" "s10" 8 in
  let db := loadUsers None in
  let hash1 := @bcrypt_hash Sample.bcrypt "secret1" (salt env1) in
  let hash2 := @bcrypt_hash Sample.bcrypt "secret1" (salt env2) in
  let db2 := (@createUser Sample.bcrypt data2 env2
                (@createUser Sample.bcrypt data1 env1 db).2).2 in
  ∃ user1 user2,
    users db2 = users db ++ [user1; user2]
    ∧ user1 !! "password" = Some (JStr hash1)
    ∧ user2 !! "password" = Some (JStr hash2)
    ∧ hash1 ≠ hash2
    ∧ (∀ candidate,
         @comparePassword Sample.bcrypt "ann@x.com" candidate db2
         = Some (@bcrypt_compare Sample.bcrypt candidate hash1))
    ∧ (∀ candidate,
         @comparePassword Sample.bcrypt "ben@x.com" candidate db2
         = Some (@bcrypt_compare Sample.bcrypt candidate hash2))
    ∧ @comparePassword Sample.bcrypt "ann@x.com" "secret1" db2 = Some true
    ∧ @comparePassword Sample.bcrypt "ben@x.com" "secret1" db2 = Some true.
Proof.
  intros data1 data2 env1 env2 db.
  apply (@same_password_hashed_twice Sample.bcrypt data1 data2 env1 env2 db
           "secret1" "ann@x.com" "ben@x.com").
  - exact SampleFacts.sample_bcrypt_verifies.
  - exact SampleFacts.sample_bcrypt_salted.
  - discriminate.
  - discriminate.
  - discriminate.
  - reflexivity.
  - reflexivity.
  - reflexivity.
  - reflexivity.
  - reflexivity.
  - reflexivity.
  - constructor.
  - constructor.
Defined.

End HashFacts.

(** ** The two JSON-file stores

    Neither class is called by the controller, which goes through the
    Mongoose model; the lemmas record how their updates and creations relate
    to the credential store of the specification. *)

Module FileStoreFacts.

(** [database/index.js]: an update merges the update document over the stored
    object; a key the document does not mention keeps its value, [updatedAt]
    included. *)
Lemma updateUser_frame `{Bcrypt} id updateData env db k stored key :
  list_find (λ user, Database.is_string (user !! "id") id = true) (Database.users db)
  = Some (k, stored) ->
  Database.truthy (updateData !! "password") = false ->
  updateData !! key = None ->
  ∃ user,
    Database.users (Database.updateUser id updateData env db).2 !! k = Some user
    ∧ user !! key = stored !! key.
Proof.
  intros Hfind Hpw Hkey. unfold Database.updateUser. rewrite Hfind, Hpw. simpl.
  apply list_find_Some in Hfind as (Hk & _).
  exists (updateData ∪ stored). split.
  - apply list_lookup_insert_eq. by eapply lookup_lt_Some.
  - by apply lookup_union_r.
Qed.

(** The static store: an update sets [updatedAt] to the time of the update
    and leaves every other key the update document does not mention. *)
Lemma static_updateUser_refreshes userId updateData env fs k stored :
  FileDatabase.writable fs = true ->
  list_find (λ user, Database.is_string (user !! "id") userId = true)
    (FileDatabase.readUsers fs) = Some (k, stored) ->
  ∃ user,
    FileDatabase.readUsers (FileDatabase.updateUser userId updateData env fs).2 !! k
    = Some user
    ∧ user !! "updatedAt" = Some (JDate (now env))
    ∧ ∀ key, key ≠ "updatedAt" -> updateData !! key = None ->
             user !! key = stored !! key.
Proof.
  intros Hw Hfind. unfold FileDatabase.updateUser, FileDatabase.writeUsers.
  rewrite Hfind, Hw. simpl.
  apply list_find_Some in Hfind as (Hk & _).
  eexists. split; [|split].
  - apply list_lookup_insert_eq. by eapply lookup_lt_Some.
  - apply lookup_insert_eq.
  - intros key Hne Hkey. rewrite lookup_insert_ne by done. by apply lookup_union_r.
Qed.

(** The static store refuses to create a second user with a stored e-mail
    and leaves the file as it was. *)
Lemma static_createUser_duplicate `{Bcrypt} userData env fs other :
  FileDatabase.findUserByEmail (userData !! "email") fs = Some other ->
  FileDatabase.createUser userData env fs
  = (inl (FileDatabase.failure "User already exists"), fs).
Proof. intros Hfound. unfold FileDatabase.createUser. by rewrite Hfound. Qed.

End FileStoreFacts.

(** * Further properties of the code *)

(** ** Trimming, splitting and joining *)

Module TextFacts.

Lemma of_to_chars cs : JS.of_string (JS.to_string cs) = cs.
Proof. apply list_ascii_of_string_of_list_ascii. Qed.

Lemma of_string_app a b : JS.of_string (a +:+ b) = JS.of_string a ++ JS.of_string b.
Proof. induction a as [|c a IH]; simpl; [done|]. by rewrite IH. Qed.

Lemma to_string_inj a b : JS.to_string a = JS.to_string b -> a = b.
Proof. intros Heq. by rewrite <- (of_to_chars a), Heq, of_to_chars. Qed.

Lemma or_else_empty_r a : JS.or_else a "" = a.
Proof. unfold JS.or_else. by destruct (String.eqb_spec a "") as [->|]. Qed.

Lemma or_else_nonempty a b : a ≠ "" -> JS.or_else a b = a.
Proof. intros Ha. unfold JS.or_else. by destruct (String.eqb_spec a ""). Qed.

Lemma trimStart_idem cs : JS.trimStart (JS.trimStart cs) = JS.trimStart cs.
Proof.
  induction cs as [|c cs IH]; simpl; [done|].
  destruct (JS.is_space c) eqn:Hc; [done|]. simpl. by rewrite Hc.
Qed.

(** A trimmed start is empty or begins with a character that is not
    white space. *)
Lemma trimStart_head cs :
  JS.trimStart cs = []
  ∨ ∃ c r, JS.trimStart cs = c :: r ∧ JS.is_space c = false.
Proof.
  induction cs as [|c cs IH]; simpl; [by left|].
  destruct (JS.is_space c) eqn:Hc; [done|]. right. eauto.
Qed.

Lemma trimStart_app_keep x c y :
  JS.is_space c = false ->
  JS.trimStart (x ++ c :: y) = JS.trimStart x ++ c :: y.
Proof.
  intros Hc. induction x as [|d x IH]; simpl; [by rewrite Hc|].
  by destruct (JS.is_space d).
Qed.

Lemma trimEnd_cons_keep c r :
  JS.is_space c = false -> JS.trimEnd (c :: r) = c :: JS.trimEnd r.
Proof.
  intros Hc. unfold JS.trimEnd. simpl.
  rewrite (trimStart_app_keep _ _ [] Hc). by rewrite rev_app_distr.
Qed.

Lemma trimEnd_idem cs : JS.trimEnd (JS.trimEnd cs) = JS.trimEnd cs.
Proof. unfold JS.trimEnd. by rewrite rev_involutive, trimStart_idem. Qed.

(** What [trim] returns has no white space left at either end. *)
Lemma trim_chars_trimmed cs :
  JS.trimStart (JS.trim_chars cs) = JS.trim_chars cs
  ∧ JS.trimEnd (JS.trim_chars cs) = JS.trim_chars cs.
Proof.
  unfold JS.trim_chars. split; [|apply trimEnd_idem].
  destruct (trimStart_head cs) as [->|(c & r & -> & Hc)]; [done|].
  rewrite (trimEnd_cons_keep _ _ Hc). simpl. by rewrite Hc.
Qed.

Lemma trim_chars_idem cs : JS.trim_chars (JS.trim_chars cs) = JS.trim_chars cs.
Proof.
  destruct (trim_chars_trimmed cs) as [Hs He].
  unfold JS.trim_chars at 1. by rewrite Hs, He.
Qed.

(** A space appended to a trimmed string is trimmed away again. *)
Lemma trim_chars_snoc_space s :
  JS.trimStart s = s -> JS.trimEnd s = s -> JS.trim_chars (s ++ [" "%char]) = s.
Proof.
  intros Hs He. unfold JS.trim_chars.
  destruct s as [|c r]; [done|].
  assert (Hc : JS.is_space c = false).
  { simpl in Hs. destruct (JS.is_space c) eqn:Hc; [|done].
    destruct (trimStart_head r) as [Hr|(d & t & Hr & Hd)]; rewrite Hr in Hs.
    - done.
    - injection Hs as -> _. congruence. }
  change ((c :: r) ++ [" "%char]) with ([] ++ c :: (r ++ [" "%char])).
  rewrite (trimStart_app_keep _ _ _ Hc). simpl.
  unfold JS.trimEnd in *. simpl. rewrite rev_app_distr. simpl.
  simpl in He. exact He.
Qed.

(** Joining the pieces of a split gives the string back. *)
Lemma join_split_chars sep cs : JS.join_chars sep (JS.split_chars sep cs) = cs.
Proof.
  induction cs as [|c cs IH]; simpl; [done|].
  destruct (Ascii.eqb_spec c sep) as [->|Hne].
  - destruct (JS.split_chars sep cs) as [|w ws] eqn:Hsplit.
    + by destruct (split_chars_cons sep cs) as (w & ws & Hw); rewrite Hw in Hsplit.
    + simpl in *. by rewrite IH.
  - destruct (JS.split_chars sep cs) as [|w ws]; simpl in *; [by subst|].
    destruct ws; simpl in *; by rewrite <- IH.
Qed.

(** The first piece of a string that starts with another character than
    the separator is not empty. *)
Lemma split_chars_first sep c cs :
  Ascii.eqb c sep = false ->
  ∃ w ws, JS.split_chars sep (c :: cs) = (c :: w) :: ws.
Proof.
  intros Hc. simpl. rewrite Hc.
  destruct (split_chars_cons sep cs) as (w & ws & ->). eauto.
Qed.

Lemma space_is_space c : Ascii.eqb c " " = true -> JS.is_space c = true.
Proof. intros ->%Ascii.eqb_eq. done. Qed.

(** The name parts of the controller: for a trimmed string [s], the first
    piece and the re-joined rest, put together with a space and trimmed, are
    [s] again; the first piece is empty only if [s] is. *)
Lemma name_parts_chars s :
  JS.trimStart s = s -> JS.trimEnd s = s ->
  let parts := JS.split_chars " " s in
  let first := default [] (parts !! 0) in
  let rest := JS.join_chars " " (drop 1 parts) in
  JS.trim_chars (first ++ " "%char :: rest) = s ∧ (s ≠ [] -> first ≠ []).
Proof.
  intros Hs He. simpl.
  pose proof (join_split_chars " " s) as Hjoin.
  destruct (JS.split_chars " " s) as [|w ws] eqn:Hsplit.
  { by destruct (split_chars_cons " " s) as (w & ws & Hw); rewrite Hw in Hsplit. }
  simpl. split.
  - destruct ws as [|w2 ws]; simpl in *.
    + subst w. by apply trim_chars_snoc_space.
    + rewrite Hjoin. unfold JS.trim_chars. by rewrite Hs, He.
  - intros Hne. destruct s as [|c r]; [done|].
    assert (Hc : Ascii.eqb c " " = false).
    { destruct (Ascii.eqb c " ") eqn:Hc; [|done]. apply space_is_space in Hc.
      simpl in Hs. rewrite Hc in Hs.
      destruct (trimStart_head r) as [Hr|(d & t & Hr & Hd)]; rewrite Hr in Hs;
        [done|]. injection Hs as -> _. congruence. }
    destruct (split_chars_first " " c r Hc) as (w' & ws' & Hw).
    rewrite Hw in Hsplit. by injection Hsplit as <- _.
Qed.

Lemma fmap_of_to_chars (l : list JS.chars) :
  JS.of_string <$> (JS.to_string <$> l) = l.
Proof. induction l as [|x l IH]; csimpl; [done|]. by rewrite of_to_chars, IH. Qed.

Lemma at_fmap_to_string (l : list JS.chars) :
  JS.at_ (JS.to_string <$> l) 0 = JS.to_string (default [] (l !! 0)).
Proof. unfold JS.at_. rewrite list_lookup_fmap. by destruct (l !! 0). Qed.

Lemma join_slice1_fmap sep (l : list JS.chars) :
  JS.join sep (JS.slice1 (JS.to_string <$> l))
  = JS.to_string (JS.join_chars sep (drop 1 l)).
Proof. unfold JS.join, JS.slice1. by rewrite <- fmap_drop, fmap_of_to_chars. Qed.

(** The same on strings, as the controller computes it from [name]. *)
Lemma name_parts name :
  let nameParts := JS.split " " (JS.trim name) in
  let first := JS.at_ nameParts 0 in
  let rest := JS.join " " (JS.slice1 nameParts) in
  JS.trim (first +:+ " " +:+ rest) = JS.trim name
  ∧ (JS.trim name ≠ "" -> first ≠ "").
Proof.
  set (s := JS.trim_chars (JS.of_string name)).
  assert (Hparts : JS.split " " (JS.trim name) = JS.to_string <$> JS.split_chars " " s)
    by (unfold JS.split, JS.trim; by rewrite of_to_chars).
  assert (Htrim : JS.trim name = JS.to_string s) by done.
  destruct (trim_chars_trimmed (JS.of_string name)) as [Hs He].
  destruct (name_parts_chars _ Hs He) as [Hdisplay Hfirst]. fold s in Hdisplay, Hfirst.
  simpl. rewrite Hparts, at_fmap_to_string, join_slice1_fmap, Htrim. split.
  - unfold JS.trim. rewrite !of_string_app, !of_to_chars. simpl.
    by rewrite Hdisplay.
  - intros Hne Hempty. apply Hfirst.
    + intros Hnil. apply Hne. by rewrite Hnil.
    + by apply to_string_inj.
Qed.

End TextFacts.

(** ** Names in the responses *)

Module NameFacts.

Import AuthController StoreFacts RegisterFacts UpdateFacts Vocabulary TextFacts.

(** The display name of a record whose names come from splitting [name] as
    [registerUser] does is the trimmed [name]. *)
Lemma displayName_fresh `{Bcrypt} name email password env :
  displayName (User.fresh (new_fields name email password) "" env) = JS.trim name.
Proof.
  unfold displayName, new_fields. simpl. rewrite !or_else_empty_r.
  apply name_parts.
Qed.

(** X1.  A successful registration answers with the name it was given,
    trimmed: splitting the name into first and last name and joining them
    again for the view loses nothing but the surrounding white space. *)
Theorem registered_name_is_trimmed_name `{Bcrypt, Jwt}
    (req : Req.body) (env : Env) (db db' : list User.doc) (r : Response) (name : string) :
  Req.name req = Some name ->
  registerUser req env db = (r, db') ->
  status r = 201%N ->
  (user_view r ≫= Json.get "name") = Some (JStr (JS.trim name)).
Proof.
  intros Hname Hrun Hs.
  destruct (registerUser_201 _ _ _ _ _ Hrun Hs)
    as (name' & email & password & Hn & He & Hp & Hfree).
  rewrite Hname in Hn. injection Hn as <-.
  rewrite (registerUser_free _ _ _ _ _ _ Hname He Hp Hfree) in Hrun.
  injection Hrun as <- _. simpl. do 2 f_equal.
  apply (displayName_fresh name email (Some password) env).
Qed.

Lemma registered_name_is_trimmed_name_witness :
  let name := String "160" " Ann  van Lee" +:+ String "009" (String "160" "") in
  let req := Sample.request (Some name) (Some "ann@x.com") (Some "secret1") in
  let env := Sample.env 5000 "u9" "s9" 7 in
  let result := @registerUser Sample.bcrypt Sample.jwt req env [Sample.jane; Sample.bob] in
  JS.trim name = "Ann  van Lee"
  ∧ (user_view result.1 ≫= Json.get "name") = Some (JStr (JS.trim name)).
Proof.
  intros name req env result. split; [reflexivity|].
  apply (@registered_name_is_trimmed_name Sample.bcrypt Sample.jwt req env
           [Sample.jane; Sample.bob] result.2 result.1 name).
  - reflexivity.
  - apply surjective_pairing.
  - reflexivity.
Defined.

Lemma trim_empty_name name : JS.trim name ≠ "" -> name ≠ "".
Proof. intros Hne ->. by apply Hne. Qed.

(** X2.  A profile update that is not turned away and supplies a name with
    something other than white space in it stores that name: the display
    name of the stored record, and the name in the answer, are the supplied
    name, trimmed. *)
Theorem updated_name_is_trimmed_name `{Bcrypt}
    (reqUser stored : User.doc) (req : Req.body) (env : Env) (db : list User.doc)
    (k : nat) (name : string) :
  list_find (with_id (User._id reqUser)) db = Some (k, stored) ->
  (changes_email reqUser req = true ->
   list_find (with_email (str (Req.email req))) db = None) ->
  Req.name req = Some name ->
  JS.trim name ≠ "" ->
  let result := updateProfile reqUser req env db in
  (user_view result.1 ≫= Json.get "name") = Some (JStr (JS.trim name))
  ∧ displayName <$> result.2 !! k = Some (JS.trim name).
Proof.
  intros Hid Hfree Hname Hne result. subst result.
  rewrite (updateProfile_stored _ _ _ _ _ _ Hfree Hid). simpl.
  assert (Hdisplay : displayName (User.updated stored (profile_changes reqUser req) env)
                     = JS.trim name).
  { unfold displayName, profile_changes, new_names. simpl. rewrite Hname. simpl.
    destruct (String.eqb_spec name "") as [->|_]; [by destruct Hne|]. simpl.
    destruct (name_parts name) as [Hjoin Hfirst].
    rewrite (or_else_nonempty _ _ (Hfirst Hne)), or_else_empty_r. exact Hjoin. }
  split; [by rewrite Hdisplay|].
  apply list_find_Some in Hid as (Hk & _).
  rewrite list_lookup_insert_eq by (by eapply lookup_lt_Some). simpl.
  by rewrite Hdisplay.
Qed.

Lemma updated_name_is_trimmed_name_witness :
  let req := Sample.request (Some " Janet  Q Doe ") None None in
  let env := Sample.env 5000 "u9" "s9" 7 in
  let result := @updateProfile Sample.bcrypt Sample.jane req env [Sample.jane; Sample.bob] in
  (user_view result.1 ≫= Json.get "name") = Some (JStr (JS.trim " Janet  Q Doe "))
  ∧ displayName <$> result.2 !! 0 = Some (JS.trim " Janet  Q Doe ").
Proof.
  intros req env.
  apply (@updated_name_is_trimmed_name Sample.bcrypt Sample.jane Sample.jane req env
           [Sample.jane; Sample.bob] 0 " Janet  Q Doe ").
  - reflexivity.
  - discriminate.
  - reflexivity.
  - discriminate.
Defined.

End NameFacts.

(** ** What validation hands to the registration handler *)

Module AcceptedFacts.

Import Regex RegexFacts AuthController ValidationFacts RoundTripFacts Vocabulary
  Notions TextFacts.

(** A matched word is made of characters of the pattern's classes. *)
Lemma Matches_classes q r w :
  Matches r w -> classes_in q r -> Forall (λ c, q c = true) w.
Proof.
  induction 1 as [|p c Hp|r1 r2 w1 w2 _ IH1 _ IH2|r1 r2 w _ IH|r1 r2 w _ IH
                  |r|r w1 w2 _ IH1 _ IH2]; simpl.
  - by constructor.
  - intros Hq. repeat constructor. by apply Hq.
  - intros [H1 H2]. apply Forall_app. split; [by apply IH1|by apply IH2].
  - intros [H1 _]. by apply IH.
  - intros [_ H2]. by apply IH.
  - by constructor.
  - intros Hr. apply Forall_app. split; [by apply IH1|by apply IH2].
Qed.

Lemma Matches_plus_nonempty p w : Matches (Plus (Class p)) w -> w ≠ [].
Proof.
  intros (w1 & w2 & -> & (c & -> & _)%Matches_class_inv & _)%Matches_cat_inv.
  done.
Qed.

Lemma address_char_word c : JS.is_word c = true -> address_char c = true.
Proof. unfold address_char. by intros ->. Qed.

Lemma address_char_not_at c : address_char c = true -> Ascii.eqb c "@" = false.
Proof.
  intros Hc. destruct (Ascii.eqb_spec c "@") as [->|]; [|done].
  by vm_compute in Hc.
Qed.

Ltac within_address :=
  first
    [ done
    | let c := fresh "c" in
      let Hc := fresh "Hc" in
      intros c Hc;
      first
        [ by apply address_char_word
        | apply orb_true_iff in Hc as [Hc|Hc]; unfold address_char; rewrite Hc;
          by rewrite ?orb_true_r
        | apply Ascii.eqb_eq in Hc as <-; done ] ].

(** An accepted address is a non-empty local part, an [@] and a domain,
    both made of word characters, dots and dashes only. *)
Lemma emailRegex_parts cs :
  Matches emailRegex cs ->
  ∃ local domain,
    cs = local ++ "@"%char :: domain
    ∧ local ≠ []
    ∧ Forall (λ c, address_char c = true) local
    ∧ Forall (λ c, address_char c = true) domain.
Proof.
  unfold emailRegex.
  intros (local & cs1 & -> & Hlocal & H)%Matches_cat_inv.
  apply Matches_cat_inv in H as (at_sign & domain & -> & Hat & Hdomain).
  apply Matches_class_inv in Hat as (c & -> & <-%Ascii.eqb_eq).
  exists local, domain. split; [done|]. split_and!.
  - apply Matches_cat_inv in Hlocal as (w1 & w2 & -> & Hw1 & _).
    apply Matches_plus_nonempty in Hw1. by destruct w1.
  - apply (Matches_classes _ _ _ Hlocal).
    unfold Rep23, Plus, Opt, Chr. cbn [classes_in]. split_and!; within_address.
  - apply (Matches_classes _ _ _ Hdomain).
    unfold Rep23, Plus, Opt, Chr. cbn [classes_in]. split_and!; within_address.
Qed.

(** The middleware lets a request through exactly when the three fields
    are present, the confirmation (if any) repeats the password, the password
    has six characters or more, and the e-mail is in the language of the
    pattern. *)
Lemma validation_passes_iff (req : Req.body) :
  validateRegistrationInput req = None
  ↔ passes_earlier_checks req
    ∧ Matches emailRegex (JS.of_string (str (Req.email req))).
Proof.
  unfold validateRegistrationInput, passes_earlier_checks, Regex.test.
  rewrite <- matches_spec.
  destruct (JS.truthy (Req.name req)), (JS.truthy (Req.email req)),
    (JS.truthy (Req.password req)); simpl;
    try (split; [done|]; by intros [(? & ? & ? & _) _]).
  destruct (JS.truthy (Req.confirmPassword req)); simpl.
  - case_bool_decide as Hc; simpl;
      [|split; [done|]; intros [(_ & _ & _ & Hconf & _) _]; by destruct Hc; apply Hconf].
    destruct (Nat.ltb_spec (String.length (str (Req.password req))) 6);
      [split; [done|]; intros [(_ & _ & _ & _ & ?) _]; exfalso; lia|].
    destruct (matches emailRegex _); simpl; [|split; [done|]; by intros [_ ?]].
    split; [|done]. intros _. split_and!; done.
  - destruct (Nat.ltb_spec (String.length (str (Req.password req))) 6);
      [split; [done|]; intros [(_ & _ & _ & _ & ?) _]; exfalso; lia|].
    destruct (matches emailRegex _); simpl; [|split; [done|]; by intros [_ ?]].
    split; [|done]. intros _. split_and!; done.
Qed.

(** X4.  Every registration that validation lets through has a username: the
    e-mail has a non-empty part before its [@], made of word characters, dots
    and dashes, and that part is what [email.split('@')[0]] yields. *)
Theorem validated_username (req : Req.body) :
  validateRegistrationInput req = None ->
  ∃ email local domain,
    Req.email req = Some email
    ∧ JS.of_string email = local ++ "@"%char :: domain
    ∧ Forall (λ c, address_char c = true) local
    ∧ Forall (λ c, address_char c = true) domain
    ∧ derived_username email = JS.to_string local
    ∧ derived_username email ≠ "".
Proof.
  intros Hvalid.
  destruct (validateRegistrationInput_next _ Hvalid) as (_ & He & _).
  destruct (truthy_Some _ He) as [email Hemail].
  apply validation_passes_iff in Hvalid as [_ Hmatch].
  rewrite Hemail in Hmatch. simpl in Hmatch.
  apply emailRegex_parts in Hmatch as (local & domain & Hsplit & Hne & Hlocal & Hdomain).
  assert (Hname : derived_username email = JS.to_string local).
  { unfold derived_username, JS.split. rewrite Hsplit, split_chars_app.
    rewrite (split_chars_none "@" local)
      by (eapply Forall_impl; [exact Hlocal|]; apply address_char_not_at).
    done. }
  exists email, local, domain. split_and!; try done.
  rewrite Hname. intros Hempty. apply Hne.
  apply to_string_inj. by rewrite Hempty.
Qed.

Lemma validated_username_witness :
  let req := Sample.request (Some "Jane Doe") (Some "jane.doe@x.com") (Some "secret1") in
  ∃ email local domain,
    Req.email req = Some email
    ∧ JS.of_string email = local ++ "@"%char :: domain
    ∧ Forall (λ c, address_char c = true) local
    ∧ Forall (λ c, address_char c = true) domain
    ∧ derived_username email = JS.to_string local
    ∧ derived_username email ≠ "".
Proof.
  intros req. apply (validated_username req). reflexivity.
Defined.

End AcceptedFacts.

(** ** Requests that fail, and what every request keeps *)

Module InvariantFacts.

Import AuthController StoreFacts RegisterFacts LoginFacts LastLoginFacts UpdateFacts
  ValidationFacts Vocabulary Notions.

Lemma NoDup_insert_fresh {A} (l : list A) k x :
  NoDup l -> x ∉ l -> NoDup (<[k := x]> l).
Proof.
  rewrite !NoDup_alt. intros Hl Hx i j y Hi Hj.
  apply list_lookup_insert_Some in Hi as [(-> & -> & _)|[Hik Hi]];
    apply list_lookup_insert_Some in Hj as [(-> & Hy & _)|[Hjk Hj]]; subst.
  - done.
  - destruct Hx. by eapply list_elem_of_lookup_2.
  - destruct Hx. by eapply list_elem_of_lookup_2.
  - by eapply Hl.
Qed.

(** Rewriting the found record changes no field that the rewriting leaves
    alone on that record. *)
Lemma write_fmap_found {K} (key : User.doc -> K) i f db :
  (∀ k u, list_find (with_id i) db = Some (k, u) -> key (f u) = key u) ->
  key <$> User.write i f db = key <$> db.
Proof.
  intros Hf. unfold User.write.
  destruct (list_find _ db) as [[k u]|] eqn:Hfind; [|done].
  specialize (Hf k u eq_refl).
  apply list_find_Some in Hfind as (Hk & _).
  rewrite list_fmap_insert. apply list_insert_id.
  by rewrite list_lookup_fmap, Hk; simpl; rewrite Hf.
Qed.

Section WithLibraries.
Context `{Bcrypt, Jwt}.

Lemma registerUser_failure req env db :
  status (registerUser req env db).1 ≠ 201%N -> (registerUser req env db).2 = db.
Proof.
  unfold registerUser. run_monad.
  destruct (Req.name req) as [name|]; simpl; [|done].
  destruct (Req.email req) as [email|]; simpl; [|done].
  destruct (list_find _ db) as [[k ex]|] eqn:Hfind; simpl; [done|].
  destruct (Req.password req) as [password|]; simpl; [|done].
  rewrite Hfind. simpl. done.
Qed.

Lemma loginUser_failure req env db :
  status (loginUser req env db).1 ≠ 200%N -> (loginUser req env db).2 = db.
Proof.
  destruct (JS.truthy (Req.email req)) eqn:He;
    [|by rewrite loginUser_missing by (by rewrite He)].
  destruct (JS.truthy (Req.password req)) eqn:Hp;
    [|by rewrite loginUser_missing by (by rewrite He, Hp)].
  destruct (list_find (with_email (str (Req.email req))) db) as [[k user]|] eqn:Hfind;
    [|by rewrite loginUser_unknown].
  destruct (User.isActive user) eqn:Ha;
    [|by rewrite (loginUser_inactive _ _ _ _ _ He Hp Hfind Ha)].
  destruct (User.comparePassword user (str (Req.password req))) eqn:Hc;
    [|by rewrite (loginUser_mismatch _ _ _ _ _ He Hp Hfind Ha Hc)].
  destruct (found_has_id _ _ _ _ Hfind) as (k0 & stored & Hid).
  by rewrite (loginUser_verified _ _ _ _ _ _ _ He Hp Hfind Ha Hc Hid).
Qed.

Lemma updateProfile_failure reqUser req env db :
  status (updateProfile reqUser req env db).1 ≠ 200%N ->
  (updateProfile reqUser req env db).2 = db.
Proof.
  destruct (changes_email reqUser req) eqn:Hc.
  - destruct (list_find (with_email (str (Req.email req))) db) as [[k o]|] eqn:Hf.
    { by rewrite (updateProfile_taken _ _ _ _ _ _ Hc Hf). }
    destruct (list_find (with_id (User._id reqUser)) db) as [[k s]|] eqn:Hid.
    + by rewrite (updateProfile_stored _ _ _ _ _ _ (λ _, Hf) Hid).
    + by rewrite (updateProfile_absent _ _ _ _ (λ _, Hf) Hid).
  - assert (changes_email reqUser req = true ->
            list_find (with_email (str (Req.email req))) db = None) as Hf
      by (intros; congruence).
    destruct (list_find (with_id (User._id reqUser)) db) as [[k s]|] eqn:Hid.
    + by rewrite (updateProfile_stored _ _ _ _ _ _ Hf Hid).
    + by rewrite (updateProfile_absent _ _ _ _ Hf Hid).
Qed.

End WithLibraries.

(** X5.  A request that is turned away changes nothing: every answer with
    status 400 of the register route and of the profile handler, and every
    answer with status 400 or 401 of the login handler, is given before any
    write, so the collection is exactly as it was.  (Answers with status 500
    are left out: in the handlers a failure can follow a write.) *)
Theorem rejected_requests_change_nothing `{Bcrypt, Jwt} :
  (∀ req env db,
     status (Routes.register req env db).1 = 400%N ->
     (Routes.register req env db).2 = db)
  ∧ (∀ req env db,
       status (loginUser req env db).1 = 400%N
       ∨ status (loginUser req env db).1 = 401%N ->
       (loginUser req env db).2 = db)
  ∧ (∀ reqUser req env db,
       status (updateProfile reqUser req env db).1 = 400%N ->
       (updateProfile reqUser req env db).2 = db).
Proof.
  split_and!.
  - intros req env db Hs. unfold Routes.register in *.
    destruct (validateRegistrationInput req); [done|].
    apply registerUser_failure. by rewrite Hs.
  - intros req env db Hs. apply loginUser_failure. by destruct Hs as [-> | ->].
  - intros reqUser req env db Hs. apply updateProfile_failure. by rewrite Hs.
Qed.

Lemma rejected_requests_change_nothing_witness :
  let req := Sample.request None (Some "jane@x.com") (Some "wrong-password") in
  let env := Sample.env 5000 "u9" "s9" 7 in
  (@loginUser Sample.bcrypt Sample.jwt req env [Sample.jane; Sample.bob]).2
  = [Sample.jane; Sample.bob].
Proof.
  intros req env.
  apply (proj1 (proj2 (@rejected_requests_change_nothing Sample.bcrypt Sample.jwt))).
  right. reflexivity.
Defined.

Section Uniqueness.
Context `{Bcrypt, Jwt}.

Lemma logoutUser_run reqUser req env db :
  ∃ edit,
    logoutUser reqUser req env db
    = (loggedOut, User.write (User._id reqUser) (User.retoken edit env) db).
Proof.
  unfold logoutUser. run_monad.
  destruct (JS.truthy (Req.refreshToken req)); simpl; eauto.
Qed.

(** Token edits keep e-mails and usernames. *)
Lemma retoken_keeps_identities i edit env db :
  unique_identities db ->
  unique_identities (User.write i (User.retoken edit env) db).
Proof.
  intros [He Hu]. unfold unique_identities.
  by rewrite (write_fmap User.email), (write_fmap User.username).
Qed.

Lemma register_keeps_identities req env db :
  unique_identities db -> unique_identities (Routes.register req env db).2.
Proof.
  intros Hunique. unfold Routes.register.
  destruct (validateRegistrationInput req); [done|].
  destruct (decide (status (registerUser req env db).1 = 201%N)) as [Hs|Hs];
    [|by rewrite registerUser_failure].
  destruct (registerUser req env db) as [r db'] eqn:Hrun. simpl in *.
  destruct (registerUser_201 _ _ _ _ _ Hrun Hs)
    as (name & email & password & Hn & He & Hp & Hfree).
  rewrite (registerUser_free _ _ _ _ _ _ Hn He Hp Hfree) in Hrun.
  injection Hrun as _ <-.
  apply retoken_keeps_identities.
  destruct Hunique as [Hemails Hnames]. apply list_find_None in Hfree.
  unfold unique_identities. rewrite !fmap_app. simpl. split.
  - apply NoDup_app. split_and!; [done| |apply NoDup_singleton].
    intros e [u [He' Hu]]%list_elem_of_fmap Hin%list_elem_of_singleton.
    rewrite Forall_forall in Hfree. destruct (Hfree u Hu). left. congruence.
  - apply NoDup_app. split_and!; [done| |apply NoDup_singleton].
    intros e [u [He' Hu]]%list_elem_of_fmap Hin%list_elem_of_singleton.
    rewrite Forall_forall in Hfree. destruct (Hfree u Hu). right. congruence.
Qed.

Lemma login_keeps_identities req env db :
  unique_identities db -> unique_identities (loginUser req env db).2.
Proof.
  intros Hunique.
  destruct (decide (status (loginUser req env db).1 = 200%N)) as [Hs|Hs];
    [|by rewrite loginUser_failure].
  destruct (loginUser req env db) as [r db'] eqn:Hrun. simpl in *.
  destruct (loginUser_200 _ _ _ _ _ Hrun Hs)
    as (k & user & k0 & stored & He & Hp & Hfind & Ha & Hc & Hid).
  rewrite (loginUser_verified _ _ _ _ _ _ _ He Hp Hfind Ha Hc Hid) in Hrun.
  injection Hrun as _ <-.
  apply retoken_keeps_identities.
  destruct Hunique as [Hemails Hnames]. unfold unique_identities.
  rewrite (write_fmap_found User.email), (write_fmap_found User.username); [done|..];
    intros k' u' Hfound; rewrite Hid in Hfound; by injection Hfound as <- <-.
Qed.

Lemma profile_keeps_identities reqUser req env db k :
  list_find (with_id (User._id reqUser)) db = Some (k, reqUser) ->
  unique_identities db -> unique_identities (updateProfile reqUser req env db).2.
Proof.
  intros Hid Hunique.
  destruct (decide (status (updateProfile reqUser req env db).1 = 200%N)) as [Hs|Hs];
    [|by rewrite updateProfile_failure].
  destruct Hunique as [Hemails Hnames].
  apply list_find_Some in Hid as Hk. destruct Hk as (Hk & _).
  destruct (changes_email reqUser req) eqn:Hc.
  - destruct (list_find (with_email (str (Req.email req))) db) as [[j o]|] eqn:Hf.
    { by rewrite (updateProfile_taken _ _ _ _ _ _ Hc Hf) in Hs. }
    rewrite (updateProfile_stored _ _ _ _ _ _ (λ _, Hf) Hid). simpl.
    unfold unique_identities. rewrite !list_fmap_insert. simpl. split.
    + apply NoDup_insert_fresh; [done|].
      apply andb_true_iff in Hc as [Ht _].
      assert (JS.or_else (str (Req.email req)) (User.email reqUser) = str (Req.email req))
        as -> by (unfold JS.or_else; destruct (Req.email req) as [e|]; [|done];
                  simpl in *; by destruct (String.eqb e "")).
      apply list_find_None in Hf. rewrite Forall_forall in Hf.
      intros [u [Heq Hu]]%list_elem_of_fmap. by destruct (Hf u Hu).
    + rewrite list_insert_id; [done|]. by rewrite list_lookup_fmap, Hk.
  - assert (changes_email reqUser req = true ->
            list_find (with_email (str (Req.email req))) db = None) as Hf
      by (intros; congruence).
    rewrite (updateProfile_stored _ _ _ _ _ _ Hf Hid). simpl.
    unfold unique_identities. rewrite !list_fmap_insert. simpl.
    rewrite (ProfileFacts.unchanged_email _ _ Hc).
    rewrite !list_insert_id; [done|by rewrite list_lookup_fmap, Hk..].
Qed.

Lemma refresh_keeps_identities req env db :
  unique_identities db -> unique_identities (Routes.refresh req env db).2.
Proof.
  intros Hunique. unfold Routes.refresh.
  destruct (Middleware.verifyRefreshToken _ env db) as [e|user]; [done|].
  rewrite RefreshFacts.refreshToken_run. simpl.
  by do 2 apply retoken_keeps_identities.
Qed.

Lemma served_keeps_identities db db' :
  served db db' -> unique_identities db -> unique_identities db'.
Proof.
  destruct 1 as [req env db|req env db|reqUser req env db k Hid|reqUser req env db
                 |req env db].
  - apply register_keeps_identities.
  - apply login_keeps_identities.
  - by apply (profile_keeps_identities _ _ _ _ k).
  - destruct (logoutUser_run reqUser req env db) as [edit ->]. simpl.
    apply retoken_keeps_identities.
  - apply refresh_keeps_identities.
Qed.

End Uniqueness.

(** X6.  Served one after the other, the requests keep e-mails and
    usernames unique: if no two records share an e-mail or a username, none
    do after any sequence of register, login, profile-update, logout and
    refresh requests; in particular none ever do when the service starts
    from the empty collection. *)
Theorem identities_stay_unique `{Bcrypt, Jwt} (db db' : list User.doc) :
  served_all db db' -> unique_identities db -> unique_identities db'.
Proof.
  induction 1 as [db|db db1 db2 Hstep _ IH]; [done|].
  intros Hunique. apply IH. by eapply served_keeps_identities.
Qed.

Lemma identities_stay_unique_witness :
  let ann := Sample.request (Some "Ann Lee") (Some "ann@x.com") (Some "secret1") in
  let env1 := Sample.env 5000 "u9" "s9" 7 in
  let env2 := Sample.env 6000 "u10" "s10" 8 in
  let db1 := (@Routes.register Sample.bcrypt Sample.jwt ann env1 []).2 in
  let db2 := (@Routes.register Sample.bcrypt Sample.jwt ann env2 db1).2 in
  unique_identities db2.
Proof.
  intros ann env1 env2 db1 db2.
  apply (@identities_stay_unique Sample.bcrypt Sample.jwt [] db2).
  - apply (served_more [] db1 db2); [apply served_register|].
    apply (served_more db1 db2 db2); [apply served_register|apply served_none].
  - split; apply NoDup_nil_2.
Defined.

End InvariantFacts.

(** ** What no request changes *)

Module FrameFacts.

Import AuthController StoreFacts RegisterFacts LoginFacts LastLoginFacts UpdateFacts
  Vocabulary Notions InvariantFacts.

Section WithLibraries.
Context `{Bcrypt, Jwt}.

Lemma retoken_keeps_accounts i edit env db :
  account <$> User.write i (User.retoken edit env) db = account <$> db.
Proof. by apply write_fmap. Qed.

Lemma register_keeps_accounts req env db :
  account <$> db `prefix_of` account <$> (Routes.register req env db).2.
Proof.
  unfold Routes.register.
  destruct (validateRegistrationInput req); [done|].
  destruct (decide (status (registerUser req env db).1 = 201%N)) as [Hs|Hs];
    [|by rewrite registerUser_failure].
  destruct (registerUser req env db) as [r db'] eqn:Hrun. simpl in *.
  destruct (registerUser_201 _ _ _ _ _ Hrun Hs)
    as (name & email & password & Hn & He & Hp & Hfree).
  rewrite (registerUser_free _ _ _ _ _ _ Hn He Hp Hfree) in Hrun.
  injection Hrun as _ <-.
  rewrite retoken_keeps_accounts, fmap_app. by apply prefix_app_r.
Qed.

Lemma login_keeps_accounts req env db :
  account <$> (loginUser req env db).2 = account <$> db.
Proof.
  destruct (decide (status (loginUser req env db).1 = 200%N)) as [Hs|Hs];
    [|by rewrite loginUser_failure].
  destruct (loginUser req env db) as [r db'] eqn:Hrun. simpl in *.
  destruct (loginUser_200 _ _ _ _ _ Hrun Hs)
    as (k & user & k0 & stored & He & Hp & Hfind & Ha & Hc & Hid).
  rewrite (loginUser_verified _ _ _ _ _ _ _ He Hp Hfind Ha Hc Hid) in Hrun.
  injection Hrun as _ <-.
  rewrite retoken_keeps_accounts. apply write_fmap_found.
  intros k' u' Hfound. rewrite Hid in Hfound. by injection Hfound as <- <-.
Qed.

Lemma profile_keeps_accounts reqUser req env db :
  account <$> (updateProfile reqUser req env db).2 = account <$> db.
Proof.
  destruct (decide (status (updateProfile reqUser req env db).1 = 200%N)) as [Hs|Hs];
    [|by rewrite updateProfile_failure].
  assert (changes_email reqUser req = true ->
          list_find (with_email (str (Req.email req))) db = None) as Hf.
  { intros Hc.
    destruct (list_find (with_email (str (Req.email req))) db) as [[j o]|] eqn:Hf;
      [|done].
    by rewrite (updateProfile_taken _ _ _ _ _ _ Hc Hf) in Hs. }
  destruct (list_find (with_id (User._id reqUser)) db) as [[k stored]|] eqn:Hid;
    [|by rewrite updateProfile_absent].
  rewrite (updateProfile_stored _ _ _ _ _ _ Hf Hid). simpl.
  apply list_find_Some in Hid as (Hk & _).
  rewrite list_fmap_insert. apply list_insert_id. by rewrite list_lookup_fmap, Hk.
Qed.

Lemma refresh_keeps_accounts req env db :
  account <$> (Routes.refresh req env db).2 = account <$> db.
Proof.
  unfold Routes.refresh.
  destruct (Middleware.verifyRefreshToken _ env db) as [e|user]; [done|].
  rewrite RefreshFacts.refreshToken_run. simpl.
  by rewrite !retoken_keeps_accounts.
Qed.

Lemma served_keeps_accounts db db' :
  served db db' -> account <$> db `prefix_of` account <$> db'.
Proof.
  destruct 1 as [req env db|req env db|reqUser req env db k Hid|reqUser req env db
                 |req env db].
  - apply register_keeps_accounts.
  - unfold Routes.login. by rewrite login_keeps_accounts.
  - by rewrite profile_keeps_accounts.
  - destruct (logoutUser_run reqUser req env db) as [edit ->]. simpl.
    by rewrite retoken_keeps_accounts.
  - by rewrite refresh_keeps_accounts.
Qed.

End WithLibraries.

(** X7.  No request deletes an account or touches what identifies and
    protects it: after any sequence of register, login, profile-update,
    logout and refresh requests every record is still there, in its place,
    with the id, username, password hash, role, active flag and creation time
    it had; the only change to the list is that registrations append. *)
Theorem accounts_are_kept `{Bcrypt, Jwt} (db db' : list User.doc) :
  served_all db db' -> account <$> db `prefix_of` account <$> db'.
Proof.
  induction 1 as [db|db db1 db2 Hstep _ IH]; [done|].
  etrans; [by apply served_keeps_accounts|done].
Qed.

Lemma accounts_are_kept_witness :
  let change := Sample.request (Some "Jane Roe") (Some "jane@y.com") None in
  let login := Sample.request None (Some "jane@y.com") (Some "secret1") in
  let env1 := Sample.env 5000 "u9" "s9" 7 in
  let env2 := Sample.env 6000 "u10" "s10" 8 in
  let db := [Sample.jane; Sample.bob] in
  let db1 := (@updateProfile Sample.bcrypt Sample.jane change env1 db).2 in
  let db2 := (@Routes.login Sample.bcrypt Sample.jwt login env2 db1).2 in
  account <$> db `prefix_of` account <$> db2.
Proof.
  intros change login env1 env2 db db1 db2.
  apply (@accounts_are_kept Sample.bcrypt Sample.jwt db db2).
  apply (served_more db db1 db2); [by apply (served_profile _ _ _ _ 0%nat)|].
  apply (served_more db1 db2 db2); [apply served_login|apply served_none].
Defined.

End FrameFacts.

(** ** Sessions: tokens from issue to logout *)

Module SessionFacts.

Import AuthController StoreFacts Vocabulary Notions.

Section WithLibraries.
Context `{Bcrypt, Jwt}.

Lemma logoutUser_edit reqUser req env db :
  let edit : gset string -> gset string :=
    if JS.truthy (Req.refreshToken req)
    then λ ts, match Req.refreshToken req with Some t => ts ∖ {[t]} | None => ts end
    else λ _, ∅ in
  logoutUser reqUser req env db
  = (loggedOut, User.write (User._id reqUser) (User.retoken edit env) db).
Proof.
  unfold logoutUser. run_monad.
  by destruct (JS.truthy (Req.refreshToken req)).
Qed.

Lemma write_absent i f (db : list User.doc) :
  list_find (with_id i) db = None -> User.write i f db = db.
Proof. unfold User.write. by intros ->. Qed.

(** The refresh token of [generateTokens] decodes to the user it was made
    for and outlives the access token. *)
Lemma generated_refresh_token uid env :
  jwt_round_trip ->
  jwt_decode RefreshToken (Middleware.generateTokens uid env).2
  = Some {| userId := uid; jti := Some (tokenId env);
            exp := now env + Middleware.refreshTokenLifetime |}.
Proof. intros Hjwt. apply Hjwt. Qed.

(** A stored, unexpired token of a stored user passes the middleware; the
    handler is reached, and an answer of 200 carries a new pair for the
    same user, whose refresh token is stored on that user's record. *)
Lemma refresh_accepts env uid env2 db k u :
  jwt_round_trip ->
  (now env2 < now env + Middleware.refreshTokenLifetime)%N ->
  list_find (with_id uid) db = Some (k, u) ->
  (Middleware.generateTokens uid env).2 ∈ User.refreshTokens u ->
  rotated uid env2 db
    (Routes.refresh (refresh_request (Some (Middleware.generateTokens uid env).2))
       env2 db).
Proof.
  intros Hjwt Hexp Hfind Hin.
  unfold Routes.refresh, Middleware.verifyRefreshToken, refresh_request.
  cbn [Req.refreshToken]. rewrite (generated_refresh_token _ _ Hjwt).
  cbn [exp userId].
  destruct (N.leb_spec (now env + Middleware.refreshTokenLifetime) (now env2));
    [lia|].
  rewrite Hfind. cbn [fmap option_fmap option_map snd].
  rewrite bool_decide_eq_true_2 by done.
  rewrite RefreshFacts.refreshToken_run.
  apply list_find_Some in Hfind as Hid. destruct Hid as (_ & Hid & _).
  rewrite Hid. cbv zeta. cbn [Req.refreshToken].
  set (remove := User.retoken (λ ts, ts ∖ {[(Middleware.generateTokens uid env).2]}) env2).
  set (add := User.retoken (λ ts, {[(Middleware.generateTokens uid env2).2]} ∪ ts) env2).
  eexists _, _. split; [reflexivity|]. intros _. split; [reflexivity|].
  exists k, (add (remove u)).
  split; [|unfold add; simpl; by apply elem_of_union_l, elem_of_singleton].
  apply (write_find uid add _ k (remove u)); [|done].
  by apply (write_find uid remove db k u).
Qed.

End WithLibraries.

(** The plain token format reads back what it wrote. *)
Lemma read_digits n rest : Plain.read (Plain.digits n rest) = Some (n, rest).
Proof.
  destruct n as [|p]; [done|]. unfold Plain.digits.
  induction p as [p IH|p IH|]; simpl; [by rewrite IH..|done].
Qed.

Lemma plain_jwt_round_trip : @jwt_round_trip Plain.jwt.
Proof.
  intros kind [uid [j|] e]; unfold jwt_decode, jwt_sign, Plain.jwt, Plain.decode,
    Plain.sign; cbn [userId jti exp]; rewrite Ascii.eqb_refl, read_digits;
    rewrite ?read_digits; done.
Qed.

(** X8.  The refresh token handed out by a registration answered 201 or a
    login answered 200 is accepted by the refresh route for as long as it is
    unexpired: the middleware lets it through to the handler, and when the
    handler answers 200 the answer is a new token pair issued to the id of
    the very user that the registration or login answered with, and the new
    refresh token is stored on that user's record. *)
Theorem issued_refresh_token_is_accepted `{Bcrypt, Jwt}
    (req : Req.body) (env env2 : Env) (db db1 : list User.doc) (r : Response) :
  jwt_round_trip ->
  (Routes.register req env db = (r, db1) ∧ status r = 201%N)
  ∨ (Routes.login req env db = (r, db1) ∧ status r = 200%N) ->
  (now env2 < now env + Middleware.refreshTokenLifetime)%N ->
  ∃ t uid,
    issued_refresh_token r = Some t
    ∧ (user_view r ≫= Json.get "id") = Some (JStr uid)
    ∧ rotated uid env2 db1 (Routes.refresh (refresh_request (Some t)) env2 db1).
Proof.
  intros Hjwt [[Hrun Hs]|[Hrun Hs]] Hexp.
  - unfold Routes.register in Hrun.
    destruct (validateRegistrationInput req) as [rej|] eqn:Hv.
    { injection Hrun as <- <-.
      apply ValidationFacts.validateRegistrationInput_status in Hv. congruence. }
    destruct (RegisterFacts.registerUser_201 _ _ _ _ _ Hrun Hs)
      as (name & email & password & Hn & He & Hp & Hfree).
    rewrite (RegisterFacts.registerUser_free _ _ _ _ _ _ Hn He Hp Hfree) in Hrun.
    injection Hrun as <- <-.
    set (user := User.fresh (new_fields name email (Some password)) password env).
    set (t := (Middleware.generateTokens (User._id user) env).2).
    destruct (list_find_elem_of (with_id (User._id user)) (db ++ [user]) user)
      as [[k u] Hfound]; [set_solver|done|].
    exists t, (User._id user). split_and!; [reflexivity|reflexivity|].
    apply (refresh_accepts env (User._id user) env2 _ k
             (User.retoken (λ ts, {[t]} ∪ ts) env u) Hjwt Hexp).
    + apply write_find; [done|]. by apply list_find_Some in Hfound as (_ & ? & _).
    + simpl. set_solver.
  - unfold Routes.login in Hrun.
    destruct (LastLoginFacts.loginUser_200 _ _ _ _ _ Hrun Hs)
      as (k & user & k0 & stored & He & Hp & Hfind & Ha & Hc & Hid).
    rewrite (LoginFacts.loginUser_verified _ _ _ _ _ _ _ He Hp Hfind Ha Hc Hid) in Hrun.
    injection Hrun as <- <-.
    set (t := (Middleware.generateTokens (User._id user) env).2).
    set (recorded := User.updated stored [User.LastLogin (now env)] env).
    assert (User._id recorded = User._id user) as Hrec.
    { apply list_find_Some in Hid as (_ & ? & _). done. }
    exists t, (User._id user). split_and!; [reflexivity|reflexivity|].
    apply (refresh_accepts env (User._id user) env2 _ k0
             (User.retoken (λ ts, {[t]} ∪ ts) env recorded) Hjwt Hexp).
    + apply (write_find (User._id user) (User.retoken (λ ts, {[t]} ∪ ts) env) _
               k0 recorded); [|done].
      by apply (write_find (User._id user) (λ _, recorded) db k0 stored).
    + simpl. set_solver.
Qed.

Lemma issued_refresh_token_is_accepted_witness :
  let req := Sample.request None (Some "jane@x.com") (Some "secret1") in
  let env := Sample.env 5000 "u9" "s9" 7 in
  let env2 := Sample.env 6000 "u10" "s10" 8 in
  let first := @Routes.login Sample.bcrypt Plain.jwt req env [Sample.jane; Sample.bob] in
  ∃ t uid,
    issued_refresh_token first.1 = Some t
    ∧ (user_view first.1 ≫= Json.get "id") = Some (JStr uid)
    ∧ @rotated Plain.jwt uid env2 first.2
        (@Routes.refresh Plain.jwt (refresh_request (Some t)) env2 first.2).
Proof.
  intros req env env2 first.
  apply (@issued_refresh_token_is_accepted Sample.bcrypt Plain.jwt req env env2
           [Sample.jane; Sample.bob] first.2 first.1).
  - exact plain_jwt_round_trip.
  - right. split; reflexivity.
  - reflexivity.
Defined.

(** X9.  A refresh token revoked by a logout that was answered 200 (the
    token the request named, or any token of the user when the request named
    none or an empty one) is refused by the refresh route afterwards,
    whatever the time; the refusal leaves the store as logout left it. *)
Theorem logged_out_token_is_refused `{Jwt}
    (reqUser : User.doc) (req : Req.body) (env env2 : Env) (db : list User.doc)
    (t : string) :
  (∀ claims, jwt_decode RefreshToken t = Some claims -> userId claims = User._id reqUser) ->
  revoked_by req t ->
  status (logoutUser reqUser req env db).1 = 200%N ->
  let db1 := (logoutUser reqUser req env db).2 in
  ∃ e, Routes.refresh (refresh_request (Some t)) env2 db1 = (Routes.Rejected e, db1).
Proof.
  intros Howner Hrevoked _. rewrite logoutUser_edit. simpl.
  unfold Routes.refresh, Middleware.verifyRefreshToken, refresh_request.
  cbn [Req.refreshToken].
  destruct (jwt_decode RefreshToken t) as [claims|] eqn:Hdecode; [|eauto].
  destruct (exp claims <=? now env2)%N; [eauto|].
  rewrite (Howner claims eq_refl).
  destruct (list_find (with_id (User._id reqUser)) db) as [[k stored]|] eqn:Hfind.
  - erewrite write_find; [|exact Hfind|by apply list_find_Some in Hfind as (_ & ? & _)].
    simpl. rewrite bool_decide_eq_false_2; [eauto|].
    destruct Hrevoked as [Hnone| Hnamed].
    + rewrite Hnone. apply not_elem_of_empty.
    + rewrite Hnamed. destruct (JS.truthy (Some t)); [|apply not_elem_of_empty].
      intros [_ Hin]%elem_of_difference. apply Hin. by apply elem_of_singleton.
  - rewrite write_absent by done. rewrite Hfind. eauto.
Qed.

Lemma logged_out_token_is_refused_witness :
  let req := refresh_request (Some "r.u1.0") in
  let env := Sample.env 5000 "u9" "s9" 7 in
  let env2 := Sample.env 6000 "u10" "s10" 8 in
  let db1 := (logoutUser Sample.jane req env [Sample.jane; Sample.bob]).2 in
  ∃ e, @Routes.refresh Sample.jwt (refresh_request (Some "r.u1.0")) env2 db1
       = (Routes.Rejected e, db1).
Proof.
  intros req env env2.
  apply (@logged_out_token_is_refused Sample.jwt Sample.jane req env env2
           [Sample.jane; Sample.bob] "r.u1.0").
  - intros claims [= <-]. reflexivity.
  - right. reflexivity.
  - reflexivity.
Defined.

End SessionFacts.

(** ** The in-memory store of [database/index.js] *)

Module DatabaseFacts.

Import Database Vocabulary Notions.

Lemma find_list_find {A} (f : A -> bool) (l : list A) :
  List.find f l = snd <$> list_find (λ x, f x = true) l.
Proof.
  induction l as [|x l IH]; [done|]. simpl. case_decide as Hx.
  - by rewrite Hx.
  - apply not_true_is_false in Hx. rewrite Hx, IH.
    by destruct (list_find _ l) as [[]|].
Qed.

Lemma find_app_found {A} (f : A -> bool) (l l' : list A) x :
  List.find f l = Some x -> List.find f (l ++ l') = Some x.
Proof.
  induction l as [|y l IH]; [done|]. simpl. by destruct (f y).
Qed.

(** With a string on the right, [===] is the string test. *)
Lemma strict_equal_string v s : strict_equal v (Some (JStr s)) = is_string v s.
Proof. by destruct v as [[]|]. Qed.

Section WithLibraries.
Context `{Bcrypt}.

(** On a disk that accepts the write, the calls are those of [Database]. *)
Lemma writable_disk_agrees userData id updateData env db :
  DatabaseIO.createUser true userData env db
  = (from_option DatabaseIO.Returned DatabaseIO.Threw (createUser userData env db).1,
     (createUser userData env db).2)
  ∧ DatabaseIO.updateUser true id updateData env db
    = (from_option DatabaseIO.Returned DatabaseIO.Threw (updateUser id updateData env db).1,
       (updateUser id updateData env db).2)
  ∧ DatabaseIO.updateLastLogin true id env db
    = (DatabaseIO.Returned (updateLastLogin id env db).1, (updateLastLogin id env db).2).
Proof.
  unfold DatabaseIO.createUser, DatabaseIO.updateUser, DatabaseIO.updateLastLogin,
    createUser, updateUser, updateLastLogin. split_and!.
  - by destruct (userData !! "password") as [[]|].
  - destruct (list_find _ _) as [[k stored]|]; [|done].
    destruct (truthy _); [|done]. by destruct (updateData !! "password") as [[]|].
  - by destruct (list_find _ _) as [[k stored]|].
Qed.

Lemma saveUsers_synced disk db u db' :
  DatabaseIO.saveUsers disk db = (DatabaseIO.Returned u, db') -> DatabaseIO.synced db'.
Proof. unfold DatabaseIO.saveUsers. destruct disk; [|done]. by intros [= _ <-]. Qed.

Lemma loadUsers_synced disk file db :
  DatabaseIO.loadUsers disk file = (DatabaseIO.Returned (), db) -> DatabaseIO.synced db.
Proof.
  unfold DatabaseIO.loadUsers. destruct file as [us|]; [by intros [= <-]|].
  apply saveUsers_synced.
Qed.

Lemma createUser_synced disk userData env db answer db' :
  DatabaseIO.createUser disk userData env db = (DatabaseIO.Returned answer, db') ->
  DatabaseIO.synced db'.
Proof.
  unfold DatabaseIO.createUser.
  destruct (userData !! "password") as [[]|]; try done.
  destruct (DatabaseIO.saveUsers disk _) as [[u|] db''] eqn:Hsave; [|done].
  intros [= _ <-]. by eapply saveUsers_synced.
Qed.

Lemma updateUser_synced disk id updateData env db answer db' :
  DatabaseIO.synced db ->
  DatabaseIO.updateUser disk id updateData env db = (DatabaseIO.Returned answer, db') ->
  DatabaseIO.synced db'.
Proof.
  intros Hsynced. unfold DatabaseIO.updateUser.
  destruct (list_find _ _) as [[k stored]|]; [|by intros [= _ <-]].
  destruct (if truthy _ then _ else _) as [updateData'|]; [|done].
  destruct (DatabaseIO.saveUsers disk _) as [[u|] db''] eqn:Hsave; [|done].
  intros [= _ <-]. by eapply saveUsers_synced.
Qed.

Lemma updateLastLogin_synced disk id env db answer db' :
  DatabaseIO.synced db ->
  DatabaseIO.updateLastLogin disk id env db = (DatabaseIO.Returned answer, db') ->
  DatabaseIO.synced db'.
Proof.
  intros Hsynced. unfold DatabaseIO.updateLastLogin.
  destruct (list_find _ _) as [[k stored]|]; [|by intros [= _ <-]].
  destruct (DatabaseIO.saveUsers disk _) as [[u|] db''] eqn:Hsave; [|done].
  intros [= _ <-]. by eapply saveUsers_synced.
Qed.

Lemma reachable_synced db : DatabaseIO.reachable db -> DatabaseIO.synced db.
Proof.
  induction 1 as [disk file db Hload
                 |disk userData env db answer db' _ _ Hrun
                 |disk id updateData env db answer db' _ IH Hrun
                 |disk id env db answer db' _ IH Hrun].
  - by eapply loadUsers_synced.
  - by eapply createUser_synced.
  - by eapply updateUser_synced.
  - by eapply updateLastLogin_synced.
Qed.

End WithLibraries.

(** X10.  The file follows the memory as long as the calls return: in every
    state the store reaches from its constructor through calls of
    [createUser], [updateUser] and [updateLastLogin] that returned, loading
    the file again gives exactly the state in memory.  A write that fails
    breaks this: when [fs.writeFileSync] throws in [createUser], the call
    throws with the new user already pushed, so the memory holds a record the
    file does not, and the store is no longer what a restart would load. *)
Theorem file_follows_returned_calls `{Bcrypt} (db : Database.t) :
  DatabaseIO.reachable db ->
  DatabaseIO.synced db
  ∧ ∀ userData env plaintext,
      userData !! "password" = Some (JStr plaintext) ->
      ∃ added db',
        DatabaseIO.createUser false userData env db = (DatabaseIO.Threw, db')
        ∧ users db' = users db ++ [added]
        ∧ usersFile db' = Some (users db)
        ∧ ¬ DatabaseIO.synced db'.
Proof.
  intros Hsynced%reachable_synced. split; [done|].
  intros userData env plaintext Hp.
  unfold DatabaseIO.createUser, DatabaseIO.saveUsers. rewrite Hp.
  unfold DatabaseIO.synced in *. destruct db as [us file]. simpl in *.
  destruct file as [us'|]; [|done]. injection Hsynced as ->.
  eexists _, _. split_and!; try reflexivity.
  simpl. intros [= Heq]. apply (f_equal length) in Heq.
  rewrite length_app in Heq. simpl in Heq. lia.
Qed.

Lemma file_follows_returned_calls_witness :
  let data : gmap string JSON :=
    {[ "email" := JStr "ann@x.com"; "password" := JStr "secret1" ]} in
  let env := Sample.env 5000 "u9" "s9" 7 in
  let db0 := (DatabaseIO.loadUsers true None).2 in
  let db1 := (@DatabaseIO.createUser Sample.bcrypt true data env db0).2 in
  let db := (DatabaseIO.updateLastLogin true "5000" env db1).2 in
  DatabaseIO.synced db
  ∧ ∀ userData env plaintext,
      userData !! "password" = Some (JStr plaintext) ->
      ∃ added db',
        @DatabaseIO.createUser Sample.bcrypt false userData env db
        = (DatabaseIO.Threw, db')
        ∧ users db' = users db ++ [added]
        ∧ usersFile db' = Some (users db)
        ∧ ¬ DatabaseIO.synced db'.
Proof.
  intros data env db0 db1 db.
  apply (@file_follows_returned_calls Sample.bcrypt db).
  set (ann := newUser data "secret1$s9" env).
  apply (@DatabaseIO.reach_updateLastLogin Sample.bcrypt true "5000" env db1
           (Some (<["lastLogin" := JDate 5000]> ann)) db);
    [|reflexivity].
  apply (@DatabaseIO.reach_createUser Sample.bcrypt true data env db0
           (delete "password" ann) db1);
    [|reflexivity].
  apply (@DatabaseIO.reach_load Sample.bcrypt true None db0). reflexivity.
Defined.

(** X11.  [createUser] decides five fields itself: whatever the caller
    passes, the answer has role [user], is active, has never logged in, was
    created now and carries no password, while the stored record carries the
    hash.  Every other key comes from the caller, the id included: a caller
    who passes an id overrides the one made from the clock. *)
Theorem createUser_forces_fields `{Bcrypt}
    (userData : gmap string JSON) (env : Env) (db : Database.t) (plaintext : string) :
  userData !! "password" = Some (JStr plaintext) ->
  ∃ answer stored,
    createUser userData env db
    = (Some answer, saveUsers {| users := users db ++ [stored]; usersFile := usersFile db |})
    ∧ stored !! "password" = Some (JStr (bcrypt_hash plaintext (salt env)))
    ∧ answer !! "password" = None
    ∧ answer !! "role" = Some (JStr "user")
    ∧ answer !! "isActive" = Some (JBool true)
    ∧ answer !! "lastLogin" = Some JNull
    ∧ answer !! "createdAt" = Some (JDate (now env))
    ∧ answer !! "id" = Some (default (JStr (pretty (now env))) (userData !! "id"))
    ∧ ∀ key, key ∉ forced_keys -> key ≠ "id" ->
             answer !! key = userData !! key ∧ stored !! key = userData !! key.
Proof.
  intros Hp. unfold createUser. rewrite Hp. eexists _, _. split; [reflexivity|].
  unfold newUser. split_and!.
  - by simplify_map_eq.
  - apply lookup_delete_eq.
  - by simplify_map_eq.
  - by simplify_map_eq.
  - by simplify_map_eq.
  - by simplify_map_eq.
  - rewrite lookup_delete_ne by done. rewrite !lookup_insert_ne by done.
    destruct (userData !! "id") as [v|] eqn:Hid; simpl.
    + by apply lookup_union_Some_l.
    + rewrite lookup_union_r by done. apply lookup_singleton_eq.
  - intros key Hkey Hid. unfold forced_keys in Hkey.
    rewrite !not_elem_of_cons in Hkey. destruct Hkey as (? & ? & ? & ? & ? & _).
    assert ((userData ∪ {["id" := JStr (pretty (now env))]}) !! key = userData !! key)
      as Hunion.
    { destruct (userData !! key) as [v|] eqn:Hv.
      - by apply lookup_union_Some_l.
      - rewrite lookup_union_r by done. by apply lookup_singleton_ne. }
    split.
    + rewrite lookup_delete_ne by done. by rewrite !lookup_insert_ne by done.
    + by rewrite !lookup_insert_ne by done.
Qed.

Lemma createUser_forces_fields_witness :
  let data : gmap string JSON :=
    {[ "email" := JStr "ann@x.com"; "password" := JStr "secret1";
       "role" := JStr "admin"; "id" := JStr "1" ]} in
  let env := Sample.env 5000 "u9" "s9" 7 in
  let db := loadUsers None in
  ∃ answer stored,
    @createUser Sample.bcrypt data env db
    = (Some answer, saveUsers {| users := users db ++ [stored]; usersFile := usersFile db |})
    ∧ stored !! "password" = Some (JStr (@bcrypt_hash Sample.bcrypt "secret1" (salt env)))
    ∧ answer !! "password" = None
    ∧ answer !! "role" = Some (JStr "user")
    ∧ answer !! "isActive" = Some (JBool true)
    ∧ answer !! "lastLogin" = Some JNull
    ∧ answer !! "createdAt" = Some (JDate (now env))
    ∧ answer !! "id" = Some (default (JStr (pretty (now env))) (data !! "id"))
    ∧ ∀ key, key ∉ forced_keys -> key ≠ "id" ->
             answer !! key = data !! key ∧ stored !! key = data !! key.
Proof.
  intros data env db.
  apply (@createUser_forces_fields Sample.bcrypt data env db "secret1").
  reflexivity.
Defined.

(** X12.  [createUser] does not look for an existing account: given an
    e-mail that is already stored it still answers with a new user and
    appends a record, and a lookup by that e-mail keeps returning the older
    record, so the new one cannot be reached by e-mail and
    [comparePassword] goes on checking every password against the older
    account. *)
Theorem createUser_accepts_taken_email `{Bcrypt}
    (userData : gmap string JSON) (env : Env) (db : Database.t)
    (email plaintext id : string) (older : gmap string JSON) :
  userData !! "email" = Some (JStr email) ->
  userData !! "password" = Some (JStr plaintext) ->
  findUserByEmail email db = Some older ->
  older !! "id" = Some (JStr id) ->
  ∃ answer added,
    (createUser userData env db).1 = Some answer
    ∧ answer !! "email" = Some (JStr email)
    ∧ users (createUser userData env db).2 = users db ++ [added]
    ∧ added !! "email" = Some (JStr email)
    ∧ findUserByEmail email (createUser userData env db).2 = Some older
    ∧ ∀ password, comparePassword email password (createUser userData env db).2
                  = comparePassword email password db.
Proof.
  intros He Hp Hfound Hid. unfold createUser. rewrite Hp. simpl.
  eexists _, _. split_and!; [reflexivity| |reflexivity| | |].
  - rewrite lookup_delete_ne by done. by rewrite HashFacts.newUser_email.
  - by rewrite HashFacts.newUser_email.
  - unfold findUserByEmail in *. simpl. by apply find_app_found.
  - intros password. unfold comparePassword, findUserByEmail in *. simpl.
    rewrite (find_app_found _ _ _ _ Hfound), Hfound.
    destruct (List.find (λ u, strict_equal (u !! "id") (older !! "id")) (users db))
      as [first|] eqn:Hfirst.
    + by rewrite (find_app_found _ _ _ _ Hfirst).
    + apply List.find_some in Hfound as [Hin _].
      apply (List.find_none _ _ Hfirst) in Hin.
      rewrite Hid in Hin. simpl in Hin. by rewrite String.eqb_refl in Hin.
Qed.

Lemma createUser_accepts_taken_email_witness :
  let data : gmap string JSON :=
    {[ "email" := JStr "ann@x.com"; "password" := JStr "secret1" ]} in
  let again : gmap string JSON :=
    {[ "email" := JStr "ann@x.com"; "password" := JStr "other22" ]} in
  let env := Sample.env 5000 "u9" "s9" 7 in
  let env2 := Sample.env 6000 "u10" "s10" 8 in
  let db := (@createUser Sample.bcrypt data env (loadUsers None)).2 in
  ∃ answer added,
    (@createUser Sample.bcrypt again env2 db).1 = Some answer
    ∧ answer !! "email" = Some (JStr "ann@x.com")
    ∧ users (@createUser Sample.bcrypt again env2 db).2 = users db ++ [added]
    ∧ added !! "email" = Some (JStr "ann@x.com")
    ∧ findUserByEmail "ann@x.com" (@createUser Sample.bcrypt again env2 db).2
      = Some (newUser data "secret1$s9" env)
    ∧ ∀ password,
        @comparePassword Sample.bcrypt "ann@x.com" password
          (@createUser Sample.bcrypt again env2 db).2
        = @comparePassword Sample.bcrypt "ann@x.com" password db.
Proof.
  intros data again env env2 db.
  apply (@createUser_accepts_taken_email Sample.bcrypt again env2 db
           "ann@x.com" "other22" "5000" (newUser data "secret1$s9" env)).
  - reflexivity.
  - reflexivity.
  - reflexivity.
  - reflexivity.
Defined.

(** A search by a boolean test, after the first hit was replaced by another
    hit. *)
Lemma find_insert_found {A} (f : A -> bool) (l : list A) k x y :
  list_find (λ x, f x = true) l = Some (k, x) -> f y = true ->
  List.find f (<[k := y]> l) = Some y.
Proof.
  intros Hfind Hy. rewrite find_list_find.
  by rewrite (StoreFacts.list_find_insert_found _ _ _ _ _ Hfind Hy).
Qed.

(** X13.  A password changed through [updateUser] is stored hashed and is
    the one [comparePassword] accepts afterwards; the answer of the update
    carries no password.  (The record is the first one with its id and the
    first one with its e-mail, and the update leaves both alone.) *)
Theorem updated_password_is_accepted `{Bcrypt}
    (id email plaintext : string) (updateData : gmap string JSON) (env : Env)
    (db : Database.t) (k : nat) (stored : gmap string JSON) :
  bcrypt_verifies ->
  list_find (λ user, is_string (user !! "id") id = true) (users db) = Some (k, stored) ->
  list_find (λ user, is_string (user !! "email") email = true) (users db)
  = Some (k, stored) ->
  updateData !! "password" = Some (JStr plaintext) -> plaintext ≠ "" ->
  updateData !! "email" = None -> updateData !! "id" = None ->
  ∃ answer user,
    (updateUser id updateData env db).1 = Some (Some answer)
    ∧ answer !! "password" = None
    ∧ users (updateUser id updateData env db).2 !! k = Some user
    ∧ user !! "password" = Some (JStr (bcrypt_hash plaintext (salt env)))
    ∧ comparePassword email plaintext (updateUser id updateData env db).2 = Some true.
Proof.
  intros Hverifies Hid Hemail Hp Hne Hnoemail Hnoid.
  unfold updateUser. rewrite Hid, Hp.
  assert (truthy (Some (JStr plaintext)) = true) as ->
    by (destruct plaintext; [done|reflexivity]).
  set (user := <["password" := JStr (bcrypt_hash plaintext (salt env))]> updateData
               ∪ stored).
  assert (user !! "password" = Some (JStr (bcrypt_hash plaintext (salt env)))) as Hpw.
  { apply lookup_union_Some_l, lookup_insert_eq. }
  assert (∀ key, key ≠ "password" -> updateData !! key = None ->
                 user !! key = stored !! key) as Hframe.
  { intros key Hkey Hnone. unfold user. rewrite lookup_union_r; [done|].
    by rewrite lookup_insert_ne. }
  apply list_find_Some in Hid as Hid'. destruct Hid' as (Hk & Hidk & _).
  apply list_find_Some in Hemail as Hemail'. destruct Hemail' as (_ & Hemailk & _).
  exists (delete "password" user), user. simpl. split_and!.
  - done.
  - apply lookup_delete_eq.
  - apply list_lookup_insert_eq. by eapply lookup_lt_Some.
  - done.
  - unfold comparePassword, findUserByEmail. simpl.
    rewrite (find_insert_found _ _ _ _ user Hemail)
      by (by rewrite Hframe).
    assert (user !! "id" = Some (JStr id)) as Huid.
    { rewrite Hframe by done. destruct (stored !! "id") as [[]|]; try done.
      simpl in Hidk. by apply String.eqb_eq in Hidk as ->. }
    rewrite Huid.
    rewrite (find_insert_found (λ u, strict_equal (u !! "id") (Some (JStr id)))
               (users db) k stored user).
    + rewrite Hpw. f_equal. apply Hverifies.
    + erewrite list_find_ext; [exact Hid|]. intros u. by rewrite strict_equal_string.
    + by rewrite Huid, strict_equal_string; simpl; rewrite String.eqb_refl.
Qed.

Lemma updated_password_is_accepted_witness :
  let data : gmap string JSON :=
    {[ "email" := JStr "ann@x.com"; "password" := JStr "secret1" ]} in
  let change : gmap string JSON := {[ "password" := JStr "other22" ]} in
  let env := Sample.env 5000 "u9" "s9" 7 in
  let env2 := Sample.env 6000 "u10" "s10" 8 in
  let db := (@createUser Sample.bcrypt data env (loadUsers None)).2 in
  ∃ answer user,
    (@updateUser Sample.bcrypt "5000" change env2 db).1 = Some (Some answer)
    ∧ answer !! "password" = None
    ∧ users (@updateUser Sample.bcrypt "5000" change env2 db).2 !! 0%nat = Some user
    ∧ user !! "password" = Some (JStr (@bcrypt_hash Sample.bcrypt "other22" (salt env2)))
    ∧ @comparePassword Sample.bcrypt "ann@x.com" "other22"
        (@updateUser Sample.bcrypt "5000" change env2 db).2 = Some true.
Proof.
  intros data change env env2 db.
  apply (@updated_password_is_accepted Sample.bcrypt "5000" "ann@x.com" "other22"
           change env2 db 0%nat (newUser data "secret1$s9" env)).
  - exact SampleFacts.sample_bcrypt_verifies.
  - reflexivity.
  - reflexivity.
  - reflexivity.
  - discriminate.
  - reflexivity.
  - reflexivity.
Defined.

(** X14.  An update without a password changes one record and, in it, only
    the keys of the update document: the collection keeps its length, every
    other record stays as it was, and each key of the updated record has the
    value of the update document if it has one and the stored value
    otherwise. *)
Theorem updateUser_touches_one_record `{Bcrypt}
    (id : string) (updateData : gmap string JSON) (env : Env)
    (db : Database.t) (k : nat) (stored : gmap string JSON) :
  list_find (λ user, is_string (user !! "id") id = true) (users db) = Some (k, stored) ->
  truthy (updateData !! "password") = false ->
  let db' := (updateUser id updateData env db).2 in
  length (users db') = length (users db)
  ∧ (∀ j, j ≠ k -> users db' !! j = users db !! j)
  ∧ ∃ user,
      users db' !! k = Some user
      ∧ ∀ key, user !! key = from_option Some (stored !! key) (updateData !! key).
Proof.
  intros Hfind Hpw. unfold updateUser. rewrite Hfind, Hpw. simpl.
  apply list_find_Some in Hfind as (Hk & _). split_and!.
  - apply length_insert.
  - intros j Hj. by apply list_lookup_insert_ne.
  - exists (updateData ∪ stored). split.
    + apply list_lookup_insert_eq. by eapply lookup_lt_Some.
    + intros key. destruct (updateData !! key) as [v|] eqn:Hv; simpl.
      * by apply lookup_union_Some_l.
      * by apply lookup_union_r.
Qed.

Lemma updateUser_touches_one_record_witness :
  let data : gmap string JSON :=
    {[ "email" := JStr "ann@x.com"; "password" := JStr "secret1" ]} in
  let change : gmap string JSON := {[ "name" := JStr "Ann" ]} in
  let env := Sample.env 5000 "u9" "s9" 7 in
  let env2 := Sample.env 6000 "u10" "s10" 8 in
  let db := (@createUser Sample.bcrypt data env (loadUsers None)).2 in
  let db' := (@updateUser Sample.bcrypt "5000" change env2 db).2 in
  length (users db') = length (users db)
  ∧ (∀ j, j ≠ 0%nat -> users db' !! j = users db !! j)
  ∧ ∃ user,
      users db' !! 0%nat = Some user
      ∧ ∀ key, user !! key
               = from_option Some (newUser data "secret1$s9" env !! key) (change !! key).
Proof.
  intros data change env env2 db.
  apply (@updateUser_touches_one_record Sample.bcrypt "5000" change env2 db 0%nat
           (newUser data "secret1$s9" env)).
  - reflexivity.
  - reflexivity.
Defined.

(** X15.  [updateLastLogin] answers with the stored record itself, password
    hash included: the record it returns is the one a lookup by the id finds
    afterwards, its [lastLogin] is the time of the call and every other key
    is as stored. *)
Theorem updateLastLogin_returns_stored_record
    (id : string) (env : Env) (db : Database.t) (k : nat) (stored : gmap string JSON) :
  list_find (λ user, is_string (user !! "id") id = true) (users db) = Some (k, stored) ->
  ∃ user,
    (updateLastLogin id env db).1 = Some user
    ∧ findUserById id (updateLastLogin id env db).2 = Some user
    ∧ user !! "lastLogin" = Some (JDate (now env))
    ∧ ∀ key, key ≠ "lastLogin" -> user !! key = stored !! key.
Proof.
  intros Hfind. unfold updateLastLogin, findUserById. rewrite Hfind. simpl.
  apply list_find_Some in Hfind as Hfind'. destruct Hfind' as (_ & Hid & _).
  eexists. split_and!; [reflexivity| | |].
  - apply (find_insert_found _ _ _ _ _ Hfind). by rewrite lookup_insert_ne.
  - apply lookup_insert_eq.
  - intros key Hkey. by apply lookup_insert_ne.
Qed.

Lemma updateLastLogin_returns_stored_record_witness :
  let data : gmap string JSON :=
    {[ "email" := JStr "ann@x.com"; "password" := JStr "secret1" ]} in
  let env := Sample.env 5000 "u9" "s9" 7 in
  let env2 := Sample.env 6000 "u10" "s10" 8 in
  let db := (@createUser Sample.bcrypt data env (loadUsers None)).2 in
  ∃ user,
    (updateLastLogin "5000" env2 db).1 = Some user
    ∧ findUserById "5000" (updateLastLogin "5000" env2 db).2 = Some user
    ∧ user !! "lastLogin" = Some (JDate (now env2))
    ∧ ∀ key, key ≠ "lastLogin" -> user !! key = newUser data "secret1$s9" env !! key.
Proof.
  intros data env env2 db.
  apply (updateLastLogin_returns_stored_record "5000" env2 db 0%nat
           (newUser data "secret1$s9" env)).
  reflexivity.
Defined.

(** X22.  Ids are clock readings, so two users created at the same reading
    share one: [comparePassword] for the e-mail of the second then looks the
    record up by that id, finds the first user, and checks every candidate
    against the hash of the first user's password, not of the second's. *)
Theorem same_clock_checks_first_password `{Bcrypt}
    (data1 data2 : gmap string JSON) (env1 env2 : Env) (db : Database.t)
    (password1 password2 email1 email2 : string) :
  now env1 = now env2 -> email1 ≠ email2 ->
  data1 !! "password" = Some (JStr password1) ->
  data2 !! "password" = Some (JStr password2) ->
  data1 !! "email" = Some (JStr email1) -> data1 !! "id" = None ->
  data2 !! "email" = Some (JStr email2) -> data2 !! "id" = None ->
  fresh_in db email1 (now env1) -> fresh_in db email2 (now env2) ->
  let db2 := (createUser data2 env2 (createUser data1 env1 db).2).2 in
  ∃ user1 user2,
    users db2 = users db ++ [user1; user2]
    ∧ user1 !! "id" = user2 !! "id"
    ∧ user2 !! "password" = Some (JStr (bcrypt_hash password2 (salt env2)))
    ∧ ∀ candidate,
        comparePassword email2 candidate db2
        = Some (bcrypt_compare candidate (bcrypt_hash password1 (salt env1))).
Proof.
  intros Hclock Hemail Hp1 Hp2 He1 Hi1 He2 Hi2 Hf1 Hf2 db2.
  set (user1 := newUser data1 (bcrypt_hash password1 (salt env1)) env1).
  set (user2 := newUser data2 (bcrypt_hash password2 (salt env2)) env2).
  assert (Husers : users db2 = users db ++ [user1; user2]).
  { unfold db2, createUser. rewrite Hp1, Hp2. simpl. by rewrite <- app_assoc. }
  assert (Hid1 : user1 !! "id" = Some (JStr (pretty (now env1))))
    by (by apply HashFacts.newUser_id).
  assert (Hid2 : user2 !! "id" = Some (JStr (pretty (now env1))))
    by (rewrite Hclock; by apply HashFacts.newUser_id).
  assert (Hm1 : user1 !! "email" = Some (JStr email1))
    by (unfold user1; by rewrite HashFacts.newUser_email).
  assert (Hm2 : user2 !! "email" = Some (JStr email2))
    by (unfold user2; by rewrite HashFacts.newUser_email).
  exists user1, user2. split_and!; [done|congruence|apply HashFacts.newUser_password|].
  intros candidate. unfold comparePassword, findUserByEmail. rewrite Husers.
  rewrite HashFacts.find_app_fresh
    by (eapply Forall_impl; [exact Hf2|]; by intros ? [? _]).
  simpl. rewrite Hm1, Hm2. simpl.
  assert (String.eqb email1 email2 = false) as -> by (by apply String.eqb_neq).
  rewrite String.eqb_refl.
  rewrite HashFacts.find_app_fresh
    by (rewrite Hid2; eapply Forall_impl; [exact Hf1|]; by intros ? [_ ?]).
  simpl. rewrite Hid1, Hid2. simpl. rewrite String.eqb_refl.
  unfold user1. by rewrite HashFacts.newUser_password.
Qed.

Lemma same_clock_checks_first_password_witness :
  let data1 : gmap string JSON :=
    {[ "email" := JStr "ann@x.com"; "password" := JStr "secret1" ]} in
  let data2 : gmap string JSON :=
    {[ "email" := JStr "ben@x.com"; "password" := JStr "other22" ]} in
  let env1 := Sample.env 5000 "u9" "s9" 7 in
  let env2 := Sample.env 5000 "u10" "s10" 8 in
  let db := loadUsers None in
  let db2 := (@createUser Sample.bcrypt data2 env2
                (@createUser Sample.bcrypt data1 env1 db).2).2 in
  ∃ user1 user2,
    users db2 = users db ++ [user1; user2]
    ∧ user1 !! "id" = user2 !! "id"
    ∧ user2 !! "password"
      = Some (JStr (@bcrypt_hash Sample.bcrypt "other22" (salt env2)))
    ∧ ∀ candidate,
        @comparePassword Sample.bcrypt "ben@x.com" candidate db2
        = Some (@bcrypt_compare Sample.bcrypt candidate
                  (@bcrypt_hash Sample.bcrypt "secret1" (salt env1))).
Proof.
  intros data1 data2 env1 env2 db.
  apply (@same_clock_checks_first_password Sample.bcrypt data1 data2 env1 env2 db
           "secret1" "other22" "ann@x.com" "ben@x.com").
  - reflexivity.
  - discriminate.
  - reflexivity.
  - reflexivity.
  - reflexivity.
  - reflexivity.
  - reflexivity.
  - reflexivity.
  - constructor.
  - constructor.
Defined.

End DatabaseFacts.

(** ** The static store over [data/users.json] *)

Module StaticStoreFacts.

Import FileDatabase Vocabulary Notions.

Lemma field_lookup key value (r : record) : field key value r !! key = value.
Proof. destruct value; [apply lookup_insert_eq|apply lookup_delete_eq]. Qed.

Lemma field_lookup_ne key key' value (r : record) :
  key ≠ key' -> field key value r !! key' = r !! key'.
Proof.
  intros Hne. destruct value; [by apply lookup_insert_ne|by apply lookup_delete_ne].
Qed.

(** The object handed back to the caller has no password. *)
Lemma view_no_password user : view user !! "password" = None.
Proof. unfold view. by rewrite !field_lookup_ne by done. Qed.

Lemma view_email user : view user !! "email" = user !! "email".
Proof.
  unfold view. rewrite !(field_lookup_ne _ "email") by done. apply field_lookup.
Qed.

Lemma find_none_forall {A} (f : A -> bool) (l : list A) :
  List.find f l = None -> Forall (λ x, f x = false) l.
Proof.
  induction l as [|x l IH]; [done|]. simpl.
  destruct (f x) eqn:Hx; [done|]. intros Hnone. constructor; auto.
Qed.

Section WithLibraries.
Context `{Bcrypt}.

(** The successful run of [createUser]. *)
Lemma createUser_inr userData env fs answer fs' :
  createUser userData env fs = (inr answer, fs') ->
  ∃ plaintext stored,
    findUserByEmail (userData !! "email") fs = None
    ∧ userData !! "password" = Some (JStr plaintext)
    ∧ stored !! "password" = Some (JStr (bcrypt_hash plaintext (salt env)))
    ∧ stored !! "email" = userData !! "email"
    ∧ answer = view stored
    ∧ fs' = {| usersFile := Some (readUsers fs ++ [stored]); writable := true |}.
Proof.
  unfold createUser, writeUsers.
  destruct (findUserByEmail _ fs) eqn:Hfind; [done|].
  destruct (userData !! "password") as [[| | |plaintext| | |]|] eqn:Hp; try done.
  destruct (writable fs); [|done]. intros [= <- <-].
  eexists plaintext, _. split_and!; [done|done| | |reflexivity|reflexivity].
  - rewrite lookup_insert_ne by done. rewrite !field_lookup_ne by done.
    apply lookup_insert_eq.
  - rewrite lookup_insert_ne by done. rewrite field_lookup_ne by done.
    apply field_lookup.
Qed.

End WithLibraries.

(** X16.  [createUser] of the static store never writes a second record
    with a stored e-mail: if the string e-mails in the file are pairwise
    different, they still are after the call, whether it succeeded or
    threw. *)
Theorem static_createUser_keeps_emails_unique `{Bcrypt}
    (userData : gmap string JSON) (env : Env) (fs : FileDatabase.t) :
  NoDup (string_emails (readUsers fs)) ->
  NoDup (string_emails (readUsers (createUser userData env fs).2)).
Proof.
  intros Hunique.
  destruct (createUser userData env fs) as [[e|answer] fs'] eqn:Hrun.
  - assert (fs' = fs) as ->; [|done].
    revert Hrun. unfold createUser, writeUsers.
    destruct (findUserByEmail _ fs); [by intros [= _ <-]|].
    destruct (userData !! "password") as [[]|]; try by intros [= _ <-].
    destruct (writable fs); [done|by intros [= _ <-]].
  - apply createUser_inr in Hrun
      as (plaintext & stored & Hfree & _ & _ & Hemail & _ & ->).
    cbn [snd].
    change (readUsers {| usersFile := Some (readUsers fs ++ [stored]); writable := true |})
      with (readUsers fs ++ [stored]).
    unfold string_emails. rewrite omap_app. simpl. rewrite Hemail.
    destruct (userData !! "email") as [[| | |email| | |]|] eqn:He;
      rewrite ?app_nil_r; try done.
    apply NoDup_app. split_and!; [done| |apply NoDup_singleton].
    intros e [user [Huser Hsame]]%list_elem_of_omap ->%list_elem_of_singleton.
    apply find_none_forall in Hfree. rewrite Forall_forall in Hfree.
    specialize (Hfree user Huser). simpl in Hfree.
    destruct (user !! "email") as [[]|]; simplify_eq/=.
    by rewrite String.eqb_refl in Hfree.
Qed.

Lemma static_createUser_keeps_emails_unique_witness :
  let data : gmap string JSON :=
    {[ "email" := JStr "ann@x.com"; "password" := JStr "secret1" ]} in
  let env := Sample.env 5000 "u9" "s9" 7 in
  let env2 := Sample.env 6000 "u10" "s10" 8 in
  let fs := {| usersFile := Some []; writable := true |} in
  let fs1 := (@createUser Sample.bcrypt data env fs).2 in
  NoDup (string_emails (readUsers (@createUser Sample.bcrypt data env2 fs1).2)).
Proof.
  intros data env env2 fs fs1.
  apply (@static_createUser_keeps_emails_unique Sample.bcrypt data env2 fs1).
  apply NoDup_singleton.
Defined.

(** X17.  A user created in the static store can be found and verified: after
    a call that returned, a lookup by the e-mail finds a record whose stored
    hash [comparePassword] accepts for the password given, while the object
    returned to the caller has the e-mail and no password. *)
Theorem static_created_user_is_found `{Bcrypt}
    (userData : gmap string JSON) (env : Env) (fs fs' : FileDatabase.t)
    (email : string) (answer : gmap string JSON) :
  bcrypt_verifies ->
  userData !! "email" = Some (JStr email) ->
  createUser userData env fs = (inr answer, fs') ->
  ∃ plaintext stored hashed,
    userData !! "password" = Some (JStr plaintext)
    ∧ findUserByEmail (Some (JStr email)) fs' = Some stored
    ∧ stored !! "password" = Some (JStr hashed)
    ∧ comparePassword plaintext hashed = true
    ∧ answer !! "email" = Some (JStr email)
    ∧ answer !! "password" = None.
Proof.
  intros Hverifies He Hrun.
  apply createUser_inr in Hrun
    as (plaintext & stored & Hfree & Hp & Hpw & Hemail & -> & ->).
  rewrite He in Hfree, Hemail.
  exists plaintext, stored, (bcrypt_hash plaintext (salt env)). split_and!.
  - done.
  - unfold findUserByEmail in *.
    change (readUsers {| usersFile := Some (readUsers fs ++ [stored]); writable := true |})
      with (readUsers fs ++ [stored]).
    rewrite HashFacts.find_app_fresh by (by apply find_none_forall).
    simpl. rewrite Hemail. simpl. by rewrite String.eqb_refl.
  - done.
  - apply Hverifies.
  - by rewrite view_email.
  - apply view_no_password.
Qed.

Lemma static_created_user_is_found_witness :
  let data : gmap string JSON :=
    {[ "email" := JStr "ann@x.com"; "password" := JStr "secret1" ]} in
  let env := Sample.env 5000 "u9" "s9" 7 in
  let fs := {| usersFile := None; writable := true |} in
  let run := @createUser Sample.bcrypt data env fs in
  let answer := match run.1 with inr a => a | inl _ => ∅ end in
  ∃ plaintext stored hashed,
    data !! "password" = Some (JStr plaintext)
    ∧ findUserByEmail (Some (JStr "ann@x.com")) run.2 = Some stored
    ∧ stored !! "password" = Some (JStr hashed)
    ∧ @comparePassword Sample.bcrypt plaintext hashed = true
    ∧ answer !! "email" = Some (JStr "ann@x.com")
    ∧ answer !! "password" = None.
Proof.
  intros data env fs run answer.
  apply (@static_created_user_is_found Sample.bcrypt data env fs run.2
           "ann@x.com" answer).
  - exact SampleFacts.sample_bcrypt_verifies.
  - reflexivity.
  - reflexivity.
Defined.

(** X18.  When the file cannot be written the static store changes nothing:
    [createUser] and [updateUser] throw and [updateLastLogin] returns, each
    leaving the file as it was. *)
Theorem unwritable_file_is_kept `{Bcrypt}
    (userData updateData : gmap string JSON) (userId : string) (env : Env)
    (fs : FileDatabase.t) :
  writable fs = false ->
  (∃ e, createUser userData env fs = (inl e, fs))
  ∧ (∃ e, updateUser userId updateData env fs = (inl e, fs))
  ∧ updateLastLogin userId env fs = fs.
Proof.
  intros Hw. unfold createUser, updateUser, updateLastLogin, writeUsers.
  rewrite Hw. split_and!.
  - destruct (findUserByEmail _ fs); [eauto|].
    destruct (userData !! "password") as [[]|]; eauto.
  - destruct (list_find _ _) as [[k stored]|]; eauto.
  - by destruct (list_find _ _) as [[k stored]|].
Qed.

Lemma unwritable_file_is_kept_witness :
  let data : gmap string JSON :=
    {[ "email" := JStr "ann@x.com"; "password" := JStr "secret1" ]} in
  let change : gmap string JSON := {[ "name" := JStr "Ann" ]} in
  let env := Sample.env 5000 "u9" "s9" 7 in
  let fs := {| usersFile := Some [data]; writable := false |} in
  (∃ e, @createUser Sample.bcrypt data env fs = (inl e, fs))
  ∧ (∃ e, updateUser "5000" change env fs = (inl e, fs))
  ∧ updateLastLogin "5000" env fs = fs.
Proof.
  intros data change env fs.
  apply (@unwritable_file_is_kept Sample.bcrypt data change "5000" env fs).
  reflexivity.
Defined.

(** X19.  [updateUser] of the static store merges the update document over
    the stored record and stamps it: [updatedAt] is the time of the call
    even when the document names another, every other key has the
    document's value if it has one and the stored value otherwise, so a
    password in the document is stored as given, without hashing, and the
    object returned to the caller has no password. *)
Theorem static_updateUser_merges
    (userId : string) (updateData : gmap string JSON) (env : Env)
    (fs : FileDatabase.t) (k : nat) (stored : gmap string JSON) :
  writable fs = true ->
  list_find (λ user, Database.is_string (user !! "id") userId = true) (readUsers fs)
  = Some (k, stored) ->
  ∃ user,
    updateUser userId updateData env fs
    = (inr (view user),
       {| usersFile := Some (<[k := user]> (readUsers fs)); writable := true |})
    ∧ user !! "updatedAt" = Some (JDate (now env))
    ∧ (∀ key, key ≠ "updatedAt" ->
              user !! key = from_option Some (stored !! key) (updateData !! key))
    ∧ (∀ v, updateData !! "password" = Some v -> user !! "password" = Some v)
    ∧ view user !! "password" = None.
Proof.
  intros Hw Hfind. unfold updateUser, writeUsers. rewrite Hfind, Hw.
  eexists. split_and!; [reflexivity| | | |].
  - apply lookup_insert_eq.
  - intros key Hkey. rewrite lookup_insert_ne by done.
    destruct (updateData !! key) as [v|] eqn:Hv; simpl.
    + by apply lookup_union_Some_l.
    + by apply lookup_union_r.
  - intros v Hv. rewrite lookup_insert_ne by done. by apply lookup_union_Some_l.
  - apply view_no_password.
Qed.

Lemma static_updateUser_merges_witness :
  let ann : gmap string JSON :=
    {[ "id" := JStr "5000"; "email" := JStr "ann@x.com";
       "password" := JStr "secret1$s9" ]} in
  let change : gmap string JSON :=
    {[ "password" := JStr "other22"; "updatedAt" := JDate 1 ]} in
  let env := Sample.env 6000 "u10" "s10" 8 in
  let fs := {| usersFile := Some [ann]; writable := true |} in
  ∃ user,
    updateUser "5000" change env fs
    = (inr (view user),
       {| usersFile := Some (<[0%nat := user]> (readUsers fs)); writable := true |})
    ∧ user !! "updatedAt" = Some (JDate (now env))
    ∧ (∀ key, key ≠ "updatedAt" ->
              user !! key = from_option Some (ann !! key) (change !! key))
    ∧ (∀ v, change !! "password" = Some v -> user !! "password" = Some v)
    ∧ view user !! "password" = None.
Proof.
  intros ann change env fs.
  apply (static_updateUser_merges "5000" change env fs 0%nat ann).
  - reflexivity.
  - reflexivity.
Defined.

End StaticStoreFacts.

(** ** The origin check of the application *)

Module OriginFacts.

Import Regex RegexFacts App Notions.

Lemma Matches_any w : Matches (Star (Class (λ _, true))) w.
Proof.
  induction w as [|c w IH]; [constructor|].
  apply (MStarApp _ [c] w); [by constructor|done].
Qed.

Lemma Matches_Lit_i cs w : Matches (Lit_i cs) w ↔ lower <$> w = lower <$> cs.
Proof.
  revert w. induction cs as [|c cs IH]; intros w; simpl.
  - split.
    + by intros ->%Matches_eps_inv.
    + intros ->%fmap_nil_inv. constructor.
  - split.
    + intros (w1 & w2 & -> & H1 & H2)%Matches_cat_inv.
      apply Matches_class_inv in H1 as (x & -> & Hx).
      apply Ascii.eqb_eq in Hx. apply IH in H2.
      change ([x] ++ w2) with (x :: w2). rewrite !fmap_cons. by f_equal.
    + destruct w as [|x w]; [done|]. rewrite !fmap_cons. intros [= Hx Hw].
      apply (MCat _ _ [x] w).
      * constructor. by apply Ascii.eqb_eq.
      * by apply IH.
Qed.

(** The pattern accepts the origins that end with [.vercel.app] in any mix
    of cases. *)
Lemma vercelRegex_spec origin : Regex.test vercelRegex origin = true ↔ ends_with_vercel origin.
Proof.
  unfold Regex.test, ends_with_vercel. rewrite matches_spec. unfold vercelRegex. split.
  - intros (pre & suf & Heq & _ & Hsuf)%Matches_cat_inv.
    apply Matches_Lit_i in Hsuf. by exists pre, suf.
  - intros (pre & suf & -> & Hsuf). constructor; [apply Matches_any|].
    by apply Matches_Lit_i.
Qed.

(** X20.  The origin check lets a request through exactly when it carries
    no origin (or an empty one), when its origin ends with [.vercel.app] in
    any mix of upper and lower case, or when its origin is on the allow-list;
    every other origin gets the error that names it. *)
Theorem corsOrigin_allows_iff (CORS_ORIGIN origin : option string) :
  (corsOrigin CORS_ORIGIN origin = inr ()
   ↔ JS.truthy origin = false
     ∨ ends_with_vercel (default "" origin)
     ∨ default "" origin ∈ explicitAllowedOrigins CORS_ORIGIN)
  ∧ (corsOrigin CORS_ORIGIN origin = inr ()
     ∨ corsOrigin CORS_ORIGIN origin = inl (notAllowedByCors (default "" origin))).
Proof.
  unfold corsOrigin. destruct (JS.truthy origin); simpl; [|by split; [split|]; auto].
  destruct (Regex.test vercelRegex (default "" origin)) eqn:Hv; simpl.
  - apply vercelRegex_spec in Hv. split; [split|]; auto.
  - assert (¬ ends_with_vercel (default "" origin)) as Hnot.
    { intros Hends%vercelRegex_spec. congruence. }
    case_bool_decide as Hin; split; try split; auto; try done.
    intros [|[|]]; done.
Qed.

End OriginFacts.

(** ** Usernames made from e-mails *)

Module CollisionFacts.

Import AuthController StoreFacts RegisterFacts RoundTripFacts Vocabulary Notions.

Section WithLibraries.
Context `{Bcrypt, Jwt}.

(** A registration answered 201 leaves a record whose username is the part
    of the e-mail before its [@]. *)
Lemma registered_username req env db r db1 email :
  Routes.register req env db = (r, db1) -> status r = 201%N ->
  Req.email req = Some email ->
  ∃ u, u ∈ db1 ∧ User.username u = derived_username email.
Proof.
  unfold Routes.register. intros Hrun Hs Hemail.
  destruct (validateRegistrationInput req) as [rej|] eqn:Hv.
  { injection Hrun as <- <-.
    apply ValidationFacts.validateRegistrationInput_status in Hv. congruence. }
  destruct (registerUser_201 _ _ _ _ _ Hrun Hs)
    as (name & email' & password & Hn & He & Hp & Hfree).
  rewrite Hemail in He. injection He as <-.
  rewrite (registerUser_free _ _ _ _ _ _ Hn Hemail Hp Hfree) in Hrun.
  injection Hrun as _ <-.
  set (user := User.fresh (new_fields name email (Some password)) password env).
  set (issue := User.retoken _ env).
  assert (derived_username email ∈ User.username <$> User.write (User._id user) issue
                                                        (db ++ [user])) as Hin.
  { rewrite (write_fmap User.username) by done.
    rewrite fmap_app. apply elem_of_app. right. by apply list_elem_of_singleton. }
  apply list_elem_of_fmap in Hin as (u & Heq & Hu). eauto.
Qed.

End WithLibraries.

(** X21.  Two e-mails that share the part before the [@] cannot both
    register: after a registration answered 201, a valid registration with
    another, unused e-mail that has the same local part is answered 400
    'Username already exists' and changes nothing. *)
Theorem shared_local_part_is_refused `{Bcrypt, Jwt}
    (req1 req2 : Req.body) (env1 env2 : Env) (db db1 : list User.doc)
    (r1 : Response) (email1 email2 : string) :
  Routes.register req1 env1 db = (r1, db1) -> status r1 = 201%N ->
  Req.email req1 = Some email1 -> Req.email req2 = Some email2 ->
  validateRegistrationInput req2 = None ->
  derived_username email2 = derived_username email1 ->
  Forall (λ u, User.email u ≠ email2) db1 ->
  Routes.register req2 env2 db1 = (usernameAlreadyExists, db1).
Proof.
  intros Hrun Hs He1 He2 Hvalid Hlocal Hunused.
  destruct (registered_username _ _ _ _ _ _ Hrun Hs He1) as (u & Hu & Hname).
  destruct (validateRegistrationInput_next _ Hvalid) as (Hn & _).
  destruct (truthy_Some _ Hn) as [name Hname2].
  destruct (list_find_elem_of (taken email2 (derived_username email2)) db1 u)
    as [[k existing] Hfound]; [done|right; congruence|].
  unfold Routes.register. rewrite Hvalid.
  rewrite (registerUser_taken _ _ _ _ _ _ _ Hname2 He2 Hfound).
  rewrite bool_decide_eq_false_2; [done|].
  apply list_find_Some in Hfound as (Hk & _).
  rewrite Forall_forall in Hunused. apply Hunused.
  by eapply list_elem_of_lookup_2.
Qed.

Lemma shared_local_part_is_refused_witness :
  let req1 := Sample.request (Some "Ann Lee") (Some "ann@x.com") (Some "secret1") in
  let req2 := Sample.request (Some "Ann Poe") (Some "ann@y.org") (Some "other22") in
  let env1 := Sample.env 5000 "u9" "s9" 7 in
  let env2 := Sample.env 6000 "u10" "s10" 8 in
  let first := @Routes.register Sample.bcrypt Sample.jwt req1 env1 [Sample.jane] in
  @Routes.register Sample.bcrypt Sample.jwt req2 env2 first.2
  = (usernameAlreadyExists, first.2).
Proof.
  intros req1 req2 env1 env2 first.
  apply (@shared_local_part_is_refused Sample.bcrypt Sample.jwt req1 req2 env1 env2
           [Sample.jane] first.2 first.1 "ann@x.com" "ann@y.org").
  - reflexivity.
  - reflexivity.
  - reflexivity.
  - reflexivity.
  - reflexivity.
  - reflexivity.
  - repeat constructor; discriminate.
Defined.

End CollisionFacts.
